(** * Order-to-inventory reconciliation engine (sara_kas)

    A shallow embedding of [stock_repository.py], [stock_service.py],
    [kaspi.py] (as the order-feed collaborator) and [main.py].

    - The database is a record of tables; a table is the list of its rows in
      storage order, so that [first()], [scalar()], [LIMIT 1] and
      [scalar_one_or_none()] read as they do in the source.
    - Every coroutine is a computation in a state-and-exception monad over a
      [World]: the database, a clock that advances on every call to the
      marketplace and on every sleep, and the trace of log lines, marketplace
      calls and sleeps.
    - The marketplace is a function from the clock to what it would answer at
      that moment; any sequence of answers is such a function.
    - The tasks that [asyncio.gather] runs under the semaphore are executed
      here one after another in batch order.  The event loop interleaves them
      at their awaits and appends an id when its task finishes, so about the
      batch functions only what holds whatever the order of completion is
      stated: which ids are returned, as a rearrangement, not their order.
    - A session keeps what it added until its [commit]; a path that leaves
      the session without reaching the commit leaves the tables as they were.
      The one assignment to a loaded row that no commit follows, in
      [update_stock_quantity_and_log], is governed by [writes_back]: the
      source is [writes_back = false].
    - Exceptions are the ones the code can raise on well-typed data:
      [MultipleResultsFound] from [scalar_one_or_none], [IntegrityError] from
      the [NOT NULL] and unique columns of [kaspi_orders], [TypeError] from
      slicing a missing pickup point.  Failures of the network or of the
      database connection are not modelled. *)

From Stdlib Require Import List String ZArith Bool Lia Arith Permutation.
From Stdlib Require Import RelationClasses Morphisms.
Import ListNotations.
Local Open Scope string_scope.
Local Open Scope Z_scope.
Local Open Scope list_scope.

Set Implicit Arguments.

(** ** Rows of [models.py]

    Only the columns that the engine reads or writes are kept; display
    columns and timestamps are left out. *)

Record Product := mkProduct {
  p_id : Z;
  p_sku : string;
  p_is_active : bool
}.

Record Stock := mkStock {
  s_id : Z;
  s_name : string;
  s_is_active : bool
}.

Record StockInventory := mkStockInventory {
  si_id : Z;
  si_product_id : Z;
  si_stock_id : Z;
  si_quantity : Z;
  si_is_active : bool
}.

Record KaspiOrder := mkKaspiOrder {
  ko_order_id : string;
  ko_order_code : string;
  ko_stock_name : string;
  ko_status : string;
  ko_invoice_generated : bool;
  ko_is_returned : bool;
  ko_is_canceled : bool
}.

Record KaspiSoldProduct := mkKaspiSoldProduct {
  ksp_order_id : string;
  ksp_order_code : string;
  ksp_product_code : string;
  ksp_product_name : string;
  ksp_quantity : Z;
  ksp_price : Z;
  ksp_customer_name : option string;
  ksp_customer_phone : option string;
  ksp_waybill : option string
}.

Record KaspiCanceledOrder := mkKaspiCanceledOrder {
  kc_order_id : string;
  kc_order_code : string;
  kc_product_code : string
}.

Record DB := mkDB {
  products : list Product;
  stocks : list Stock;
  stock_inventory : list StockInventory;
  kaspi_orders : list KaspiOrder;
  kaspi_sold_products : list KaspiSoldProduct;
  kaspi_canceled_orders : list KaspiCanceledOrder
}.

Definition with_stock_inventory (d : DB) (l : list StockInventory) : DB :=
  mkDB (products d) (stocks d) l (kaspi_orders d) (kaspi_sold_products d)
       (kaspi_canceled_orders d).

Definition with_kaspi_orders (d : DB) (l : list KaspiOrder) : DB :=
  mkDB (products d) (stocks d) (stock_inventory d) l (kaspi_sold_products d)
       (kaspi_canceled_orders d).

Definition with_kaspi_sold_products (d : DB) (l : list KaspiSoldProduct) : DB :=
  mkDB (products d) (stocks d) (stock_inventory d) (kaspi_orders d) l
       (kaspi_canceled_orders d).

Definition with_kaspi_canceled_orders (d : DB) (l : list KaspiCanceledOrder) : DB :=
  mkDB (products d) (stocks d) (stock_inventory d) (kaspi_orders d)
       (kaspi_sold_products d) l.

(** ** Payloads of the order feed ([dict]s in the source)

    A key that the source reads with [.get] is an [option]; [None] stands for
    a missing key as well as for a JSON null. *)

Record Order := mkOrder {
  o_id : option string;
  o_code : option string;
  o_status : option string;
  o_pickupPointId : option string;
  o_waybill : option string;
  o_customer_name : option string;
  o_customer_phone : option string
}.

Record Entry := mkEntry {
  e_code : string;
  e_name : string;
  e_quantity : Z;
  e_totalPrice : Z
}.

(** Python truthiness of an optional string: [None] and [""] are falsy. *)
Definition truthy (s : option string) : bool :=
  match s with
  | Some EmptyString => false
  | Some _ => true
  | None => false
  end.

(** [s[-3:]]: the last three characters, the whole string when shorter. *)
Fixpoint last3 (s : string) : string :=
  match s with
  | EmptyString => EmptyString
  | String c rest =>
      if (String.length rest <? 3)%nat then String c rest else last3 rest
  end.

(** What the marketplace would answer at one moment. *)
Record Kaspi := mkKaspi {
  new_orders : list Order;
  kaspi_delivery : list Order;
  new_archive : list Order;
  returned_archive : list Order;
  order_entries : option string -> list Entry;
  accept_ok : string -> string -> bool;
  invoice_ok : option string -> bool
}.

(** ** Results of the batch functions *)

Record NewOrdersResult := mkNewOrdersResult {
  nr_processed : nat;
  nr_success : list string;
  nr_failed : list string;
  nr_skipped : list (Order + string)
}.

Record OrdersResult := mkOrdersResult {
  or_processed : nat;
  or_success : list (option string);
  or_failed : list (option string)
}.

(** ** Exceptions, log lines and the trace *)

Inductive exn :=
| MultipleResultsFound
| IntegrityError
| TypeError.

Definition is_SQLAlchemyError (e : exn) : bool :=
  match e with
  | MultipleResultsFound | IntegrityError => true
  | TypeError => false
  end.

Inductive Level := INFO | WARNING | ERROR.

Inductive LogMsg :=
| Text (s : string)
| TextFor (s : string) (subject : option string)
| NewOrdersLine (r : NewOrdersResult)
| ProcessOrdersAttempt (attempt : nat) (r : OrdersResult)
| CancelArchiveAttempt (attempt : nat) (ids : list string)
| WaybillAttempt (attempt : nat) (ids : list (option string))
| CancelArchiveWaybillAttempt (attempt : nat) (ids : list string).

Inductive ApiCall :=
| GetNewOrders
| GetKaspiDelivery
| GetNewArchive
| GetReturnedArchive
| GetOrderEntries (order_id : option string)
| AcceptOrder (order_id order_code : string)
| CreateInvoice (order_id : option string).

Inductive Event :=
| Log (lvl : Level) (msg : LogMsg)
| Api (call : ApiCall)
| Sleep (seconds : Z).

Record World := mkWorld {
  db : DB;
  clock : nat;
  trace : list Event
}.

(** ** The monad of coroutines *)

Inductive Result (A : Type) :=
| Ok (a : A)
| Raise (e : exn).
Arguments Ok {A} a.
Arguments Raise {A} e.

Definition M (A : Type) : Type := World -> Result A * World.

Definition ret {A} (a : A) : M A := fun w => (Ok a, w).

Definition bind {A B} (m : M A) (f : A -> M B) : M B :=
  fun w =>
    match m w with
    | (Ok a, w') => f a w'
    | (Raise e, w') => (Raise e, w')
    end.

Definition raise {A} (e : exn) : M A := fun w => (Raise e, w).

(** [try: m  except <handles>: h e]. *)
Definition try_except {A} (m : M A) (handles : exn -> bool) (h : exn -> M A) : M A :=
  fun w =>
    match m w with
    | (Ok a, w') => (Ok a, w')
    | (Raise e, w') => if handles e then h e w' else (Raise e, w')
    end.

Notation "x <- m ;; k" := (bind m (fun x => k))
  (at level 61, m at next level, right associativity).
Notation "m ;; k" := (bind m (fun _ => k))
  (at level 61, right associativity).

Definition emit (ev : Event) : M unit :=
  fun w => (Ok tt, mkWorld (db w) (clock w) (trace w ++ [ev])).

Definition logger (lvl : Level) (msg : LogMsg) : M unit := emit (Log lvl msg).

Definition tick : M unit :=
  fun w => (Ok tt, mkWorld (db w) (S (clock w)) (trace w)).

Definition sleep (seconds : Z) : M unit := emit (Sleep seconds) ;; tick.

Definition read_db {A} (q : DB -> A) : M A := fun w => (Ok (q (db w)), w).

Definition write_db (f : DB -> DB) : M unit :=
  fun w => (Ok tt, mkWorld (f (db w)) (clock w) (trace w)).

Definition any_exception (_ : exn) : bool := true.

Definition lift_result {A} (r : Result A) : M A := fun w => (r, w).

(** [Result.scalar_one_or_none()]: no row, the only row, or
    [MultipleResultsFound]. *)
Definition scalar_one_or_none {A} (rows : list A) : Result (option A) :=
  match rows with
  | [] => Ok None
  | [x] => Ok (Some x)
  | _ :: _ :: _ => Raise MultipleResultsFound
  end.

(** The decorator of [stock_repository.py] and [kaspi.py]: [retries] more
    tries after the first one, the delay doubling between them; an exception
    outside [allowed] propagates at once. *)
Fixpoint async_retry {A} (retries : nat) (backoff_in_seconds : Z)
         (allowed : exn -> bool) (func : M A) : M A :=
  try_except func allowed
    (fun e =>
       match retries with
       | O => raise e
       | S k =>
           sleep backoff_in_seconds ;;
           async_retry k (backoff_in_seconds * 2) allowed func
       end).

(** ** [stock_repository.py] *)

Section Engine.

(** The order feed, indexed by the clock. *)
Variable kaspi : nat -> Kaspi.

(** [update_stock_quantity_and_log] assigns [inventory.quantity] on a row
    loaded in a session that it leaves without a commit, and [db_conn.py]
    configures no autocommit: the assignment is rolled back when the session
    closes.  The source is [writes_back = false].  With [writes_back = true]
    the assignment reaches the table, which is what the docstring of the
    function and its callers expect; a result that does not fix
    [writes_back] holds either way. *)
Variable writes_back : bool.

Definition is_falsy_id (product_id : option Z) : bool :=
  match product_id with
  | None => true
  | Some n => n =? 0
  end.

Definition active_products_by_sku (d : DB) (product_code : string) : list Product :=
  filter (fun p => (p_sku p =? product_code)%string && p_is_active p) (products d).

Definition get_product_id (product_code : string) : M (option Z) :=
  async_retry 3 2 is_SQLAlchemyError
    (product_id <- read_db (fun d =>
        hd_error (map p_id (active_products_by_sku d product_code))) ;;
     if is_falsy_id product_id
     then logger WARNING (TextFor "product not found by code" (Some product_code)) ;;
          ret None
     else ret product_id).

Definition name_is (stock_name : option string) (s : Stock) : bool :=
  match stock_name with
  | Some n => (s_name s =? n)%string
  | None => false
  end.

(** The rows of the three-table join of [get_stock_quantity], one per
    inventory row that has a joining product and stock.  The product's own
    activity flag is not part of the filter. *)
Definition stock_quantity_rows (d : DB) (product_code : string)
           (stock_name : option string) : list StockInventory :=
  filter (fun si =>
            si_is_active si
            && existsb (fun p => (p_id p =? si_product_id si)
                                 && (p_sku p =? product_code)%string) (products d)
            && existsb (fun s => (s_id s =? si_stock_id si)
                                 && name_is stock_name s && s_is_active s) (stocks d))
         (stock_inventory d).

Definition stock_quantity_of (d : DB) (product_code : string)
           (stock_name : option string) : Z :=
  match stock_quantity_rows d product_code stock_name with
  | si :: _ => si_quantity si
  | [] => 0
  end.

Definition get_stock_quantity (product_code : string) (stock_name : option string)
           (for_update : bool) : M Z :=
  async_retry 3 2 is_SQLAlchemyError
    (try_except
       (read_db (fun d => stock_quantity_of d product_code stock_name))
       any_exception
       (fun _ => logger ERROR (Text "error while reading stock") ;; ret 0)).

Definition active_stocks_by_name (d : DB) (stock_name : option string) : list Stock :=
  filter (fun s => name_is stock_name s && s_is_active s) (stocks d).

Definition is_inventory_of (product : Product) (stock : Stock) (si : StockInventory) : bool :=
  (si_product_id si =? p_id product) && (si_stock_id si =? s_id stock) && si_is_active si.

Definition set_quantity (new_quantity : Z) (si : StockInventory) : StockInventory :=
  mkStockInventory (si_id si) (si_product_id si) (si_stock_id si) new_quantity
                   (si_is_active si).

(** [inventory.quantity = new_quantity] on the one row that the inventory
    query returned. *)
Definition assign_quantity (product : Product) (stock : Stock) (new_quantity : Z)
           (d : DB) : DB :=
  with_stock_inventory d
    (map (fun si => if is_inventory_of product stock si
                    then set_quantity new_quantity si else si)
         (stock_inventory d)).

Definition update_stock_quantity_and_log (product_code : string)
           (new_quantity order_quantity : Z) (operation : string)
           (stock_name : option string) : M unit :=
  async_retry 3 2 is_SQLAlchemyError
    (stock <- bind (read_db (fun d => active_stocks_by_name d stock_name))
                   (fun rows => lift_result (scalar_one_or_none rows)) ;;
     match stock with
     | None => logger WARNING (TextFor "stock not found or not active" stock_name)
     | Some stock =>
         product <- bind (read_db (fun d => active_products_by_sku d product_code))
                         (fun rows => lift_result (scalar_one_or_none rows)) ;;
         match product with
         | None => logger WARNING
                     (TextFor "product not found or not active" (Some product_code))
         | Some product =>
             inventory <- bind (read_db (fun d =>
                                   filter (is_inventory_of product stock)
                                          (stock_inventory d)))
                               (fun rows => lift_result (scalar_one_or_none rows)) ;;
             match inventory with
             | None => logger WARNING
                         (TextFor "no inventory row for product at stock"
                                  (Some product_code))
             | Some _ =>
                 if new_quantity <? 0
                 then logger WARNING
                        (TextFor "zero or negative quantity for product"
                                 (Some product_code))
                 else if writes_back
                      then write_db (assign_quantity product stock new_quantity)
                      else ret tt
             end
         end
     end).

Definition order_exists (d : DB) (order_id : option string) : bool :=
  match order_id with
  | Some oid => existsb (fun ko => (ko_order_id ko =? oid)%string) (kaspi_orders d)
  | None => false
  end.

Definition is_order_processed (order_id : option string) : M bool :=
  async_retry 3 2 is_SQLAlchemyError
    (try_except
       (read_db (fun d => order_exists d order_id))
       any_exception
       (fun _ => logger ERROR (TextFor "error while checking order" order_id) ;;
                 ret false)).

Definition sold_product_of (order_id order_code : string)
           (customer_info : option string * option string) (product : Entry)
  : KaspiSoldProduct :=
  mkKaspiSoldProduct order_id order_code (e_code product) (e_name product)
                     (e_quantity product) (e_totalPrice product)
                     (fst customer_info) (snd customer_info) None.

(** One transaction: the order header, then its line items.  The header
    columns are [NOT NULL] and [order_id] is unique. *)
Definition insert_order (order_id order_code status stock_name : string)
           (products : list Entry) (customer_info : option string * option string)
           (d : DB) : DB :=
  with_kaspi_sold_products
    (with_kaspi_orders d
       (kaspi_orders d ++
        [mkKaspiOrder order_id order_code stock_name status false false false]))
    (kaspi_sold_products d ++
     map (sold_product_of order_id order_code customer_info) products).

Definition save_order (order_id order_code status : option string)
           (stock_name : string) (products : list Entry)
           (customer_info : option string * option string) : M unit :=
  async_retry 3 2 is_SQLAlchemyError
    (try_except
       (match order_id, order_code, status with
        | Some oid, Some code, Some st =>
            taken <- read_db (fun d => order_exists d (Some oid)) ;;
            if taken then raise IntegrityError
            else write_db (insert_order oid code st stock_name products customer_info)
        | _, _, _ => raise IntegrityError
        end)
       is_SQLAlchemyError
       (fun e => logger ERROR (TextFor "error while saving order" order_id) ;;
                 raise e)).

Definition order_products (d : DB) (order_id : string) : list (string * Z * string) :=
  map (fun ksp => (ksp_product_code ksp, ksp_quantity ksp, ksp_product_name ksp))
      (filter (fun ksp => (ksp_order_id ksp =? order_id)%string)
              (kaspi_sold_products d)).

Definition get_order_products (order_id : string) : M (list (string * Z * string)) :=
  try_except (read_db (fun d => order_products d order_id))
             is_SQLAlchemyError
             (fun e => logger ERROR (TextFor "error while reading order products"
                                             (Some order_id)) ;;
                       raise e).

Definition order_rows (d : DB) (order_id : string) : list KaspiOrder :=
  filter (fun ko => (ko_order_id ko =? order_id)%string) (kaspi_orders d).

Definition order_code_of (d : DB) (order_id : string) : string :=
  match order_rows d order_id with
  | ko :: _ => ko_order_code ko
  | [] => ""
  end.

(** Adds the row to the caller's session and leaves the commit to the
    caller; the result is the pending row. *)
Definition save_canceled_order (order_id product_code : string) : M KaspiCanceledOrder :=
  try_except
    (read_db (fun d => mkKaspiCanceledOrder order_id (order_code_of d order_id)
                                            product_code))
    any_exception
    (fun e => logger ERROR (TextFor "error while saving canceled order"
                                    (Some order_id)) ;;
              raise e).

Definition set_canceled (ko : KaspiOrder) : KaspiOrder :=
  mkKaspiOrder (ko_order_id ko) (ko_order_code ko) (ko_stock_name ko) (ko_status ko)
               (ko_invoice_generated ko) (ko_is_returned ko) true.

Definition set_invoice_generated (ko : KaspiOrder) : KaspiOrder :=
  mkKaspiOrder (ko_order_id ko) (ko_order_code ko) (ko_stock_name ko) (ko_status ko)
               true (ko_is_returned ko) (ko_is_canceled ko).

Definition update_orders (order_id : string) (f : KaspiOrder -> KaspiOrder) (d : DB) : DB :=
  with_kaspi_orders d
    (map (fun ko => if (ko_order_id ko =? order_id)%string then f ko else ko)
         (kaspi_orders d)).

Definition mark_order_as_canceled (order_id : string) : M unit :=
  try_except (write_db (update_orders order_id set_canceled))
             is_SQLAlchemyError
             (fun e => logger ERROR (TextFor "error while marking order canceled"
                                             (Some order_id)) ;;
                       raise e).

Definition order_canceled (d : DB) (order_id : string) : bool :=
  match order_rows d order_id with
  | ko :: _ => ko_is_canceled ko
  | [] => false
  end.

Definition is_order_canceled (order_id : string) : M bool :=
  try_except (read_db (fun d => order_canceled d order_id))
             is_SQLAlchemyError
             (fun _ => logger ERROR (TextFor "error while checking cancellation"
                                             (Some order_id)) ;;
                       ret false).

Definition invoice_generated (d : DB) (order_id : string) : bool :=
  match order_rows d order_id with
  | ko :: _ => ko_invoice_generated ko
  | [] => false
  end.

Definition is_invoice_generated (order_id : string) : M bool :=
  try_except (read_db (fun d => invoice_generated d order_id))
             any_exception
             (fun _ => logger ERROR (TextFor "error while checking invoice"
                                             (Some order_id)) ;;
                       ret false).

Definition get_order_code (order_id : string) : M string :=
  try_except (read_db (fun d => order_code_of d order_id))
             is_SQLAlchemyError
             (fun _ => logger ERROR (TextFor "error while reading order code"
                                             (Some order_id)) ;;
                       ret "").

Definition mark_order_as_invoiced (order_id : string) : M unit :=
  try_except (write_db (update_orders order_id set_invoice_generated))
             is_SQLAlchemyError
             (fun e => logger ERROR (TextFor "error while marking order invoiced"
                                             (Some order_id)) ;;
                       raise e).

(** The rows of the [stock_name] query of [process_product_cancellation]:
    the join of [kaspi_orders] with [kaspi_sold_products] filtered by the
    product code alone, one row for each line item of that product and each
    header of its order, in the order of the line items. *)
Definition stock_name_rows (d : DB) (product_code : string) : list string :=
  flat_map
    (fun ksp =>
       map ko_stock_name
           (filter (fun ko => (ko_order_id ko =? ksp_order_id ksp)%string)
                   (kaspi_orders d)))
    (filter (fun ksp => (ksp_product_code ksp =? product_code)%string)
            (kaspi_sold_products d)).

(** [LIMIT 1] of that query.  It has no [ORDER BY], so the storage decides
    which row comes first; the first line item of the product is taken
    here. *)
Definition stock_name_for_product (d : DB) (product_code : string) : option string :=
  hd_error (stock_name_rows d product_code).

Definition insert_canceled_order (row : KaspiCanceledOrder) (d : DB) : DB :=
  with_kaspi_canceled_orders d (kaspi_canceled_orders d ++ [row]).

Definition process_product_cancellation (product_code : string) (quantity : Z)
           (order_id : string) : M unit :=
  try_except
    (pending <- save_canceled_order order_id product_code ;;
     stock_name <- read_db (fun d => stock_name_for_product d product_code) ;;
     product_id <- get_product_id product_code ;;
     if is_falsy_id product_id
     then logger WARNING (TextFor "product not found in the database"
                                  (Some product_code))
     else
       is_canceled <- is_order_canceled order_id ;;
       if (is_canceled : bool) then ret tt
       else
         current_quantity <- get_stock_quantity product_code stock_name true ;;
         update_stock_quantity_and_log product_code (current_quantity + quantity)
                                       quantity "return" stock_name ;;
         write_db (insert_canceled_order pending))
    is_SQLAlchemyError
    (fun e => logger ERROR (TextFor "error while cancelling product"
                                    (Some product_code)) ;;
              raise e).

(** ** [kaspi.py]: the order feed

    Each function catches every exception itself and answers [[]] or [False]
    in that case, so the decorator around it never sees one; the answer is
    whatever the marketplace gives at the current clock. *)

Definition is_ClientError_or_Timeout (_ : exn) : bool := false.

Definition api {A} (call : ApiCall) (answer : Kaspi -> A) : M A :=
  fun w => (Ok (answer (kaspi (clock w))),
            mkWorld (db w) (S (clock w)) (trace w ++ [Api call])).

Definition get_new_orders : M (list Order) :=
  async_retry 3 2 is_ClientError_or_Timeout (api GetNewOrders new_orders).

Definition get_kaspi_delivery : M (list Order) :=
  async_retry 3 2 is_ClientError_or_Timeout (api GetKaspiDelivery kaspi_delivery).

Definition get_new_archive : M (list Order) :=
  async_retry 3 2 is_ClientError_or_Timeout (api GetNewArchive new_archive).

Definition get_returned_archive : M (list Order) :=
  async_retry 3 2 is_ClientError_or_Timeout (api GetReturnedArchive returned_archive).

Definition get_order_entries (order_id : option string) : M (list Entry) :=
  async_retry 3 2 is_ClientError_or_Timeout
    (api (GetOrderEntries order_id) (fun k => order_entries k order_id)).

Definition accept_order (order_id order_code : string) : M bool :=
  async_retry 3 2 is_ClientError_or_Timeout
    (api (AcceptOrder order_id order_code) (fun k => accept_ok k order_id order_code)).

Definition create_invoice (order_id : option string) : M bool :=
  async_retry 3 2 is_ClientError_or_Timeout
    (api (CreateInvoice order_id) (fun k => invoice_ok k order_id)).

(** ** [stock_service.py] *)

Definition CONCURRENT_ORDER_LIMIT : nat := 5.

Definition nonempty {A} (l : list A) : bool :=
  match l with
  | [] => false
  | _ :: _ => true
  end.

Definition max_retries : nat := 2.

(** The state of the accept loop for one order: [attempt], [success] and
    [failed]. *)
Definition AcceptState : Type := nat * list string * list string.

(** One pass through the body of the [while] loop; the first component is
    [accepted]. *)
Definition accept_once (order_id order_code : string) (st : AcceptState)
  : M (bool * AcceptState) :=
  let '(attempt, success, failed) := st in
  try_except
    (result <- accept_order order_id order_code ;;
     if (result : bool) then ret (true, (attempt, success ++ [order_id], failed))
     else
       let attempt := S attempt in
       if (max_retries <? attempt)%nat
       then logger ERROR (TextFor "could not accept order" (Some order_id)) ;;
            ret (false, (attempt, success, failed ++ [order_id]))
       else ret (false, (attempt, success, failed)))
    any_exception
    (fun _ =>
       let attempt := S attempt in
       logger ERROR (TextFor "error while accepting order" (Some order_id)) ;;
       if (max_retries <? attempt)%nat
       then ret (false, (attempt, success, failed ++ [order_id]))
       else ret (false, (attempt, success, failed))).

(** [while attempt <= max_retries and not accepted]; every pass that does
    not accept increments [attempt], so [S max_retries] passes are enough. *)
Fixpoint accept_loop (passes : nat) (order_id order_code : string) (st : AcceptState)
  : M AcceptState :=
  match passes with
  | O => ret st
  | S k =>
      let '(attempt, _, _) := st in
      if (attempt <=? max_retries)%nat
      then r <- accept_once order_id order_code st ;;
           if fst r then ret (snd r) else accept_loop k order_id order_code (snd r)
      else ret st
  end.

Fixpoint accept_new_orders (orders : list Order) (acc : NewOrdersResult)
  : M NewOrdersResult :=
  match orders with
  | [] => ret acc
  | order :: rest =>
      match o_id order, o_code order with
      | Some order_id, Some order_code =>
          if negb (truthy (o_id order)) || negb (truthy (o_code order))
          then logger WARNING (TextFor "skipped order without id or code" (o_id order)) ;;
               accept_new_orders rest
                 (mkNewOrdersResult (nr_processed acc) (nr_success acc) (nr_failed acc)
                                    (nr_skipped acc ++ [inl order]))
          else if truthy (o_status order)
                  && negb (match o_status order with
                           | Some st => (st =? "APPROVED_BY_BANK")%string
                           | None => false
                           end)
          then accept_new_orders rest
                 (mkNewOrdersResult (nr_processed acc) (nr_success acc) (nr_failed acc)
                                    (nr_skipped acc ++ [inr order_id]))
          else
            st <- accept_loop (S max_retries) order_id order_code
                              (O, nr_success acc, nr_failed acc) ;;
            let '(_, success, failed) := st in
            accept_new_orders rest
              (mkNewOrdersResult (S (nr_processed acc)) success failed (nr_skipped acc))
      | _, _ =>
          logger WARNING (TextFor "skipped order without id or code" (o_id order)) ;;
          accept_new_orders rest
            (mkNewOrdersResult (nr_processed acc) (nr_success acc) (nr_failed acc)
                               (nr_skipped acc ++ [inl order]))
      end
  end.

Definition empty_new_orders_result : NewOrdersResult :=
  mkNewOrdersResult 0 [] [] [].

Definition process_new_orders : M NewOrdersResult :=
  try_except
    (orders <- get_new_orders ;;
     if negb (nonempty orders) then ret empty_new_orders_result
     else
       r <- accept_new_orders orders empty_new_orders_result ;;
       (if nonempty (nr_failed r)
        then logger WARNING (Text "could not accept some orders")
        else ret tt) ;;
       ret r)
    any_exception
    (fun _ =>
       logger ERROR (Text "Error in process_new_orders") ;;
       logger ERROR (Text "Error details") ;;
       ret empty_new_orders_result).

(** The availability pass of [process_single_order]; [false] is the early
    [return False]. *)
Fixpoint check_availability (order_code : option string) (stock_name : string)
         (products : list Entry) : M bool :=
  match products with
  | [] => ret true
  | entry :: rest =>
      current_quantity <- get_stock_quantity (e_code entry) (Some stock_name) false ;;
      if current_quantity <? e_quantity entry
      then logger WARNING (TextFor "not enough stock for order" order_code) ;;
           ret false
      else check_availability order_code stock_name rest
  end.

(** The commit pass of [process_single_order]. *)
Fixpoint decrement_stock (stock_name : string) (products : list Entry) : M unit :=
  match products with
  | [] => ret tt
  | entry :: rest =>
      current_quantity <- get_stock_quantity (e_code entry) (Some stock_name) false ;;
      update_stock_quantity_and_log (e_code entry)
                                    (current_quantity - e_quantity entry)
                                    (e_quantity entry) "sales" (Some stock_name) ;;
      decrement_stock stock_name rest
  end.

Definition process_single_order (order : Order) : M bool :=
  try_except
    (let order_id := o_id order in
     let order_code := o_code order in
     processed <- is_order_processed order_id ;;
     if (processed : bool) then ret false
     else
       products <- get_order_entries order_id ;;
       stock_name <- match o_pickupPointId order with
                     | Some p => ret (last3 p)
                     | None => raise TypeError
                     end ;;
       let customer_info := (o_customer_name order, o_customer_phone order) in
       available <- check_availability order_code stock_name products ;;
       if negb available then ret false
       else
         decrement_stock stock_name products ;;
         save_order order_id order_code (o_status order) stock_name products
                    customer_info ;;
         invoice_result <- create_invoice order_id ;;
         if (invoice_result : bool) then ret true
         else logger ERROR (TextFor "create_invoice returned False" order_id) ;;
              ret false)
    any_exception
    (fun _ => logger ERROR (TextFor "error while processing order" (o_id order)) ;;
              ret false).

(** [sem_task] of [process_orders], threading the two result lists.  The
    tasks are taken one after another, see the head of the file. *)
Definition process_orders_task (order : Order)
           (acc : list (option string) * list (option string))
  : M (list (option string) * list (option string)) :=
  let order_id := o_id order in
  try_except
    (result <- process_single_order order ;;
     if (result : bool) then ret (fst acc ++ [order_id], snd acc)
     else ret (fst acc, snd acc ++ [order_id]))
    any_exception
    (fun _ => ret (fst acc, snd acc ++ [order_id])).

Fixpoint process_orders_tasks (orders : list Order)
         (acc : list (option string) * list (option string))
  : M (list (option string) * list (option string)) :=
  match orders with
  | [] => ret acc
  | order :: rest =>
      acc' <- process_orders_task order acc ;;
      process_orders_tasks rest acc'
  end.

Definition process_orders : M OrdersResult :=
  orders <- get_kaspi_delivery ;;
  if negb (nonempty orders) then ret (mkOrdersResult 0 [] [])
  else
    acc <- process_orders_tasks orders ([], []) ;;
    ret (mkOrdersResult (List.length (fst acc)) (fst acc) (snd acc)).

Definition set_waybill (waybill : string) (ksp : KaspiSoldProduct) : KaspiSoldProduct :=
  mkKaspiSoldProduct (ksp_order_id ksp) (ksp_order_code ksp) (ksp_product_code ksp)
                     (ksp_product_name ksp) (ksp_quantity ksp) (ksp_price ksp)
                     (ksp_customer_name ksp) (ksp_customer_phone ksp) (Some waybill).

Definition update_waybill (order_id waybill : string) (d : DB) : DB :=
  with_kaspi_sold_products d
    (map (fun ksp => if (ksp_order_id ksp =? order_id)%string
                     then set_waybill waybill ksp else ksp)
         (kaspi_sold_products d)).

(** The two [UPDATE]s of [save_waybill_links] and their commit; the result is
    [invoice_row.scalar()], the flag of the first row that the second
    [UPDATE ... RETURNING] touched. *)
Definition write_waybill (order_id : option string) (waybill : string) : M (option bool) :=
  match order_id with
  | Some oid =>
      write_db (fun d => update_orders oid set_invoice_generated
                                       (update_waybill oid waybill d)) ;;
      read_db (fun d => hd_error (map ko_invoice_generated (order_rows d oid)))
  | None => ret None
  end.

Fixpoint save_waybill_loop (orders : list Order) (updated_ids : list (option string))
  : M (list (option string)) :=
  match orders with
  | [] => ret updated_ids
  | order :: rest =>
      let order_id := o_id order in
      match o_waybill order with
      | Some waybill =>
          if negb (truthy (o_waybill order)) then save_waybill_loop rest updated_ids
          else
            flag <- write_waybill order_id waybill ;;
            match flag with
            | Some true => save_waybill_loop rest (updated_ids ++ [order_id])
            | _ => save_waybill_loop rest updated_ids
            end
      | None => save_waybill_loop rest updated_ids
      end
  end.

Definition save_waybill_links : M (list (option string)) :=
  try_except
    (orders <- get_kaspi_delivery ;;
     if negb (nonempty orders) then ret []
     else save_waybill_loop orders [])
    any_exception
    (fun _ =>
       logger ERROR (Text "Error in save_waybill_links") ;;
       logger ERROR (Text "Error details") ;;
       ret []).

Fixpoint cancel_products (products : list (string * Z * string)) (order_id : string)
  : M unit :=
  match products with
  | [] => ret tt
  | (product_code, quantity, _) :: rest =>
      process_product_cancellation product_code quantity order_id ;;
      cancel_products rest order_id
  end.

Definition cancel_single_order (order : Order) : M unit :=
  try_except
    (match o_id order with
     | Some order_id =>
         if negb (truthy (o_id order))
         then logger WARNING (Text "skipped order without id on cancellation")
         else
           processed <- is_order_processed (Some order_id) ;;
           if negb processed then ret tt
           else
             canceled <- is_order_canceled order_id ;;
             if (canceled : bool) then ret tt
             else
               products <- get_order_products order_id ;;
               if negb (nonempty products)
               then logger WARNING (TextFor "archived order has no products"
                                            (Some order_id))
               else
                 cancel_products products order_id ;;
                 mark_order_as_canceled order_id
     | None => logger WARNING (Text "skipped order without id on cancellation")
     end)
    any_exception
    (fun _ => logger ERROR (TextFor "Error canceling order" (o_id order))).

(** [sem_task] of the two archive passes, the tasks taken one after
    another as in [process_orders]. *)
Definition cancel_task (order : Order) (canceled_ids : list string) : M (list string) :=
  cancel_single_order order ;;
  match o_id order with
  | Some order_id =>
      if truthy (o_id order) then ret (canceled_ids ++ [order_id]) else ret canceled_ids
  | None => ret canceled_ids
  end.

Fixpoint cancel_tasks (orders : list Order) (canceled_ids : list string)
  : M (list string) :=
  match orders with
  | [] => ret canceled_ids
  | order :: rest =>
      canceled_ids' <- cancel_task order canceled_ids ;;
      cancel_tasks rest canceled_ids'
  end.

Definition cancel_orders_from_archive : M (list string) :=
  try_except
    (archived_orders <- get_new_archive ;;
     if negb (nonempty archived_orders) then ret []
     else cancel_tasks archived_orders [])
    any_exception
    (fun _ =>
       logger ERROR (Text "Error in cancel_orders_from_archive") ;;
       logger ERROR (Text "Error details") ;;
       ret []).

Definition cancel_orders_from_returned_archive : M (list string) :=
  try_except
    (returned_orders <- get_returned_archive ;;
     if negb (nonempty returned_orders) then ret []
     else cancel_tasks returned_orders [])
    any_exception
    (fun _ =>
       logger ERROR (Text "Error in cancel_orders_from_returned_archive") ;;
       logger ERROR (Text "Error details") ;;
       ret []).

(** ** [main.py] *)

Definition MAX_ATTEMPTS : nat := 5.
Definition SLEEP_SECONDS : Z := 10.

(** [try: body  finally: cleanup]. *)
Definition try_finally {A} (body : M A) (cleanup : M unit) : M A :=
  fun w =>
    match body w with
    | (r, w') =>
        match cleanup w' with
        | (Ok _, w'') => (r, w'')
        | (Raise e, w'') => (Raise e, w'')
        end
    end.

(** How a [for ... else] loop of [main] is left: by [break], by [return], or
    by running out of attempts (the [else] branch). *)
Inductive LoopExit := Break | Return | Exhausted.

Definition any_in (ids : list string) (new_order_ids : list string) : bool :=
  existsb (fun order_id => existsb (String.eqb order_id) ids) new_order_ids.

Definition any_in_opt (ids : list (option string)) (new_order_ids : list string) : bool :=
  existsb (fun order_id =>
             existsb (fun x => match x with
                               | Some y => (order_id =? y)%string
                               | None => false
                               end) ids)
          new_order_ids.

(** The fulfillment loop, [for attempt in range(1, MAX_ATTEMPTS + 1)];
    [remaining] counts the attempts that are left. *)
Fixpoint fulfillment_attempts (new_order_ids : list string) (remaining attempt : nat)
  : M LoopExit :=
  match remaining with
  | O =>
      logger WARNING (Text "process_orders gave no result after the attempts") ;;
      ret Exhausted
  | S k =>
      orders_result <- process_orders ;;
      logger INFO (ProcessOrdersAttempt attempt orders_result) ;;
      if nonempty (or_success orders_result) then ret Break
      else
        canceled_ids <- cancel_orders_from_archive ;;
        logger INFO (CancelArchiveAttempt attempt canceled_ids) ;;
        if any_in canceled_ids new_order_ids
        then logger WARNING (Text "a new order was canceled by the customer") ;;
             ret Return
        else
          sleep SLEEP_SECONDS ;;
          fulfillment_attempts new_order_ids k (S attempt)
  end.

(** The waybill loop. *)
Fixpoint waybill_attempts (new_order_ids : list string) (remaining attempt : nat)
  : M LoopExit :=
  match remaining with
  | O =>
      logger WARNING (Text "save_waybill_links gave no result after the attempts") ;;
      ret Exhausted
  | S k =>
      waybill_result <- save_waybill_links ;;
      logger INFO (WaybillAttempt attempt waybill_result) ;;
      if nonempty waybill_result && any_in_opt waybill_result new_order_ids
      then ret Break
      else
        canceled_ids <- cancel_orders_from_archive ;;
        logger INFO (CancelArchiveWaybillAttempt attempt canceled_ids) ;;
        if any_in canceled_ids new_order_ids
        then logger WARNING (Text "a new order was canceled by the customer (waybill)") ;;
             ret Return
        else
          sleep SLEEP_SECONDS ;;
          waybill_attempts new_order_ids k (S attempt)
  end.

(** Step 3 of [main]: what follows the log line with the result of
    [process_new_orders]. *)
Definition after_acceptance (new_orders_result : NewOrdersResult) : M unit :=
  if nonempty (nr_failed new_orders_result)
  then logger ERROR (NewOrdersLine new_orders_result)
  else if nonempty (nr_success new_orders_result)
  then
    let new_order_ids := nr_success new_orders_result in
    exit1 <- fulfillment_attempts new_order_ids MAX_ATTEMPTS 1 ;;
    match exit1 with
    | Return => ret tt
    | Break | Exhausted =>
        waybill_attempts new_order_ids MAX_ATTEMPTS 1 ;;
        ret tt
    end
  else logger INFO (Text "no new orders to process").

Definition main : M unit :=
  logger INFO (Text "Script started") ;;
  try_finally
    (try_except
       (try_except
          (cancel_orders_from_returned_archive ;;
           cancel_orders_from_archive ;;
           ret tt)
          any_exception
          (fun _ => logger ERROR (Text "Error in cancel_orders_from_archive")) ;;
        new_orders_result <- process_new_orders ;;
        logger INFO (NewOrdersLine new_orders_result) ;;
        after_acceptance new_orders_result)
       any_exception
       (fun e => logger ERROR (Text "Critical error in main process") ;;
                 raise e))
    (logger INFO (Text "Script finished")).

End Engine.

Unset Implicit Arguments.

(** * Vocabulary of the properties *)

(** [m] never leaves the relation [R] between the world it starts in and the
    world it ends in, whatever it returns or raises. *)
Definition preserves {A} (R : World -> World -> Prop) (m : M A) : Prop :=
  forall w, R w (snd (m w)).

(** The events of the repository and service layers: plain log lines, calls
    to the marketplace and sleeps.  The structured lines are those of
    [main]. *)
Definition inner (ev : Event) : Prop :=
  match ev with
  | Log _ (Text _) | Log _ (TextFor _ _) | Api _ | Sleep _ => True
  | Log _ _ => False
  end.

Definition any_event (_ : Event) : Prop := True.

(** The events of the fulfillment loop of [main]. *)
Definition fulfillment_event (ev : Event) : Prop :=
  inner ev
  \/ match ev with
     | Log INFO (ProcessOrdersAttempt _ _) | Log INFO (CancelArchiveAttempt _ _) => True
     | _ => False
     end.

(** The events of the waybill loop of [main]. *)
Definition waybill_event (ev : Event) : Prop :=
  inner ev
  \/ match ev with
     | Log INFO (WaybillAttempt _ _) | Log INFO (CancelArchiveWaybillAttempt _ _) => True
     | _ => False
     end.

(** A relation on worlds that does not mind the clock and tolerates the
    events in [P]. *)
Class Ambient (P : Event -> Prop) (R : World -> World -> Prop) : Prop := {
  ambient_preorder :: PreOrder R;
  ambient_quiet : forall w c t,
      Forall P t -> R w (mkWorld (db w) c (trace w ++ t))
}.

(** Every statement that the engine commits to the database. *)
Inductive engine_write : (DB -> DB) -> Prop :=
| ew_assign_quantity product stock new_quantity :
    0 <= new_quantity ->
    engine_write (assign_quantity product stock new_quantity)
| ew_insert_order order_id order_code status stock_name products customer_info :
    engine_write (insert_order order_id order_code status stock_name products
                               customer_info)
| ew_set_canceled order_id :
    engine_write (update_orders order_id set_canceled)
| ew_set_invoice_generated order_id :
    engine_write (update_orders order_id set_invoice_generated)
| ew_waybill order_id waybill :
    engine_write (fun d => update_orders order_id set_invoice_generated
                                         (update_waybill order_id waybill d))
| ew_insert_canceled_order row :
    engine_write (insert_canceled_order row).

(** An ambient relation that every committed statement respects. *)
Class Invariant (P : Event -> Prop) (R : World -> World -> Prop) : Prop := {
  invariant_ambient :: Ambient P R;
  invariant_write : forall f, engine_write f -> preserves R (write_db f)
}.

(** The statements of the stock-moving steps alone: the assignment of a
    quantity and the audit row of a cancellation. *)
Inductive reversal_write : (DB -> DB) -> Prop :=
| rw_assign_quantity product stock new_quantity :
    0 <= new_quantity ->
    reversal_write (assign_quantity product stock new_quantity)
| rw_insert_canceled_order row :
    reversal_write (insert_canceled_order row).

(** An ambient relation that the stock-moving steps respect. *)
Class Reversal (P : Event -> Prop) (R : World -> World -> Prop) : Prop := {
  reversal_ambient :: Ambient P R;
  reversal_write_ok : forall f, reversal_write f -> preserves R (write_db f)
}.

Definition same_db (w w' : World) : Prop := db w' = db w.

(** The order header and line-item tables are what they were. *)
Definition same_orders (w w' : World) : Prop :=
  kaspi_orders (db w') = kaspi_orders (db w)
  /\ kaspi_sold_products (db w') = kaspi_sold_products (db w).

Definition nonneg_stock (d : DB) : Prop :=
  Forall (fun si => 0 <= si_quantity si) (stock_inventory d).

Definition keeps_nonneg (w w' : World) : Prop :=
  nonneg_stock (db w) -> nonneg_stock (db w').

(** The inventory row is the same row, and its quantity is what it was or
    is not negative. *)
Definition kept_or_nonneg (si si' : StockInventory) : Prop :=
  si_id si' = si_id si
  /\ si_product_id si' = si_product_id si
  /\ si_stock_id si' = si_stock_id si
  /\ si_is_active si' = si_is_active si
  /\ (si_quantity si' = si_quantity si \/ 0 <= si_quantity si').

(** No inventory row appears or disappears, and every quantity that was
    written is non-negative. *)
Definition writes_nonneg (w w' : World) : Prop :=
  Forall2 kept_or_nonneg (stock_inventory (db w)) (stock_inventory (db w')).

Definition extends_with (P : Event -> Prop) (w w' : World) : Prop :=
  exists t, trace w' = trace w ++ t /\ Forall P t.

Definition keeps_orders (w w' : World) : Prop :=
  forall order_id, order_exists (db w) order_id = true ->
                   order_exists (db w') order_id = true.

(** What [update_stock_quantity_and_log] leaves in the database: the
    assignment when each of the three lookups finds its one row and the new
    quantity is not negative, nothing otherwise. *)
Definition stock_after_update (writes_back : bool) (d : DB) (product_code : string)
           (new_quantity : Z) (stock_name : option string) : DB :=
  match active_stocks_by_name d stock_name, active_products_by_sku d product_code with
  | [stock], [product] =>
      match filter (is_inventory_of product stock) (stock_inventory d) with
      | [_] => if new_quantity <? 0 then d
               else if writes_back then assign_quantity product stock new_quantity d
                    else d
      | _ => d
      end
  | _, _ => d
  end.

(** The four rejections of [update_stock_quantity_and_log], in the order in
    which the source tests them. *)
Inductive rejected (d : DB) (product_code : string) (new_quantity : Z)
          (stock_name : option string) : Prop :=
| rej_stock :
    active_stocks_by_name d stock_name = [] ->
    rejected d product_code new_quantity stock_name
| rej_product stock :
    active_stocks_by_name d stock_name = [stock] ->
    active_products_by_sku d product_code = [] ->
    rejected d product_code new_quantity stock_name
| rej_inventory stock product :
    active_stocks_by_name d stock_name = [stock] ->
    active_products_by_sku d product_code = [product] ->
    filter (is_inventory_of product stock) (stock_inventory d) = [] ->
    rejected d product_code new_quantity stock_name
| rej_negative stock product inventory :
    active_stocks_by_name d stock_name = [stock] ->
    active_products_by_sku d product_code = [product] ->
    filter (is_inventory_of product stock) (stock_inventory d) = [inventory] ->
    new_quantity < 0 ->
    rejected d product_code new_quantity stock_name.

(** The operations of the engine, as a caller can issue them. *)
Inductive Operation :=
| OpUpdateStock (product_code : string) (new_quantity order_quantity : Z)
                (operation : string) (stock_name : option string)
| OpProcessSingleOrder (order : Order)
| OpProcessOrders
| OpProcessNewOrders
| OpSaveWaybillLinks
| OpCancelSingleOrder (order : Order)
| OpCancelFromArchive
| OpCancelFromReturnedArchive
| OpProductCancellation (product_code : string) (quantity : Z) (order_id : string)
| OpMain.

Definition forget {A} (m : M A) : M unit :=
  fun w => (Ok tt, snd (m w)).

Definition run_operation (kaspi : nat -> Kaspi) (writes_back : bool) (op : Operation)
  : M unit :=
  match op with
  | OpUpdateStock product_code new_quantity order_quantity operation stock_name =>
      forget (update_stock_quantity_and_log writes_back product_code new_quantity
                                            order_quantity operation stock_name)
  | OpProcessSingleOrder order => forget (process_single_order kaspi writes_back order)
  | OpProcessOrders => forget (process_orders kaspi writes_back)
  | OpProcessNewOrders => forget (process_new_orders kaspi)
  | OpSaveWaybillLinks => forget (save_waybill_links kaspi)
  | OpCancelSingleOrder order => forget (cancel_single_order writes_back order)
  | OpCancelFromArchive => forget (cancel_orders_from_archive kaspi writes_back)
  | OpCancelFromReturnedArchive =>
      forget (cancel_orders_from_returned_archive kaspi writes_back)
  | OpProductCancellation product_code quantity order_id =>
      forget (process_product_cancellation writes_back product_code quantity order_id)
  | OpMain => forget (main kaspi writes_back)
  end.

Fixpoint run_operations (kaspi : nat -> Kaspi) (writes_back : bool)
         (ops : list Operation) (w : World) : World :=
  match ops with
  | [] => w
  | op :: rest =>
      run_operations kaspi writes_back rest
                     (snd (run_operation kaspi writes_back op w))
  end.

(** No active stock of that name, no active product of that code, or no
    active inventory row for them. *)
Definition unavailable (d : DB) (product_code : string) (stock_name : option string)
  : Prop :=
  active_stocks_by_name d stock_name = []
  \/ active_products_by_sku d product_code = []
  \/ forall stock product,
       In stock (active_stocks_by_name d stock_name) ->
       In product (active_products_by_sku d product_code) ->
       filter (is_inventory_of product stock) (stock_inventory d) = [].

(** ** Example data *)

(** Product [P1], ten pieces at stock [PP5]. *)
Definition shop_db : DB :=
  mkDB [mkProduct 1 "P1" true]
       [mkStock 1 "PP5" true]
       [mkStockInventory 1 1 1 10 true]
       [] [] [].

Definition order_o1 : Order :=
  mkOrder (Some "o1") (Some "c1") (Some "ACCEPTED_BY_MERCHANT") (Some "store_PP5")
          None None None.

(** A feed that always delivers [o1] with three pieces of [P1], accepts
    every order and creates every invoice. *)
Definition quiet_feed (_ : nat) : Kaspi :=
  mkKaspi [] [order_o1] [] []
          (fun _ => [mkEntry "P1" "thing" 3 100])
          (fun _ _ => true) (fun _ => true).

Definition shop_world : World := mkWorld shop_db 0 [].

(** The stock location of a delivery order: the last three characters of
    its pickup point, when it has one. *)
Definition stock_name_of (order : Order) : option string :=
  option_map last3 (o_pickupPointId order).

(** The line item asks for more than [get_stock_quantity] reads. *)
Definition short (d : DB) (stock_name : option string) (entry : Entry) : Prop :=
  stock_quantity_of d (e_code entry) stock_name < e_quantity entry.

(** Two pieces of [P1] at [PP5], and a feed whose order [o1] asks for five. *)
Definition scarce_db : DB :=
  mkDB [mkProduct 1 "P1" true]
       [mkStock 1 "PP5" true]
       [mkStockInventory 1 1 1 2 true]
       [] [] [].

Definition hungry_feed (_ : nat) : Kaspi :=
  mkKaspi [] [order_o1] [] []
          (fun _ => [mkEntry "P1" "thing" 5 100])
          (fun _ _ => true) (fun _ => true).

Definition scarce_world : World := mkWorld scarce_db 0 [].

(** The shop after [o1] has been fulfilled once. *)
Definition recorded_world : World :=
  snd (process_single_order quiet_feed true order_o1 shop_world).

(** A feed whose delivery page lists [o1] twice. *)
Definition twice_feed (_ : nat) : Kaspi :=
  mkKaspi [] [order_o1; order_o1] [] []
          (fun _ => [mkEntry "P1" "thing" 3 100])
          (fun _ _ => true) (fun _ => true).

(** The id that [sem_task] appends for an archived order: its [id] when
    truthy. *)
Definition carried_id (order : Order) : list string :=
  match o_id order with
  | Some order_id => if truthy (o_id order) then [order_id] else []
  | None => []
  end.

Definition carried_ids (orders : list Order) : list string :=
  flat_map carried_id orders.

(** [cancel_single_order] skips the order: it has no id, was never recorded,
    or is already marked canceled. *)
Definition skipped_on_cancel (d : DB) (order : Order) : Prop :=
  match o_id order with
  | Some order_id =>
      truthy (o_id order) = false
      \/ order_exists d (Some order_id) = false
      \/ order_canceled d order_id = true
  | None => True
  end.

(** An archive page with an order that the shop never saw. *)
Definition order_o9 : Order :=
  mkOrder (Some "o9") (Some "c9") (Some "CANCELLED") (Some "store_PP5")
          None None None.

Definition archive_feed (_ : nat) : Kaspi :=
  mkKaspi [] [] [order_o9; order_o1] []
          (fun _ => [mkEntry "P1" "thing" 3 100])
          (fun _ _ => true) (fun _ => true).

(** What [cancel_single_order] leaves in the database: on the full path,
    the mark on top of what the reversal of the line items left, or just the
    latter when the reversal raised; the database as it was on every other
    path. *)
Definition db_after_cancel (writes_back : bool) (order : Order) (w : World) : DB :=
  match o_id order with
  | Some order_id =>
      if truthy (o_id order)
         && order_exists (db w) (Some order_id)
         && negb (order_canceled (db w) order_id)
         && nonempty (order_products (db w) order_id)
      then
        match cancel_products writes_back (order_products (db w) order_id)
                              order_id w with
        | (Ok _, w') => update_orders order_id set_canceled (db w')
        | (Raise _, w') => db w'
        end
      else db w
  | None => db w
  end.

(** The reversal of the persisted line items of the order, started in [w],
    runs to its end without raising. *)
Definition reversal_completes (writes_back : bool) (order : Order) (w : World) : Prop :=
  forall order_id,
    o_id order = Some order_id ->
    exists w', cancel_products writes_back (order_products (db w) order_id)
                               order_id w = (Ok tt, w').

(** [o1] was fulfilled (seven pieces left), then [P1] was deactivated. *)
Definition discontinued_db : DB :=
  mkDB [mkProduct 1 "P1" false]
       [mkStock 1 "PP5" true]
       [mkStockInventory 1 1 1 7 true]
       [mkKaspiOrder "o1" "c1" "PP5" "ACCEPTED_BY_MERCHANT" false false false]
       [mkKaspiSoldProduct "o1" "c1" "P1" "thing" 3 100 None None None]
       [].

Definition discontinued_world : World := mkWorld discontinued_db 0 [].

(** [o1] sold [P1] and [P2]; [P2] has two active inventory rows at [PP5]. *)
Definition duplicated_db : DB :=
  mkDB [mkProduct 1 "P1" true; mkProduct 2 "P2" true]
       [mkStock 1 "PP5" true]
       [mkStockInventory 1 1 1 7 true;
        mkStockInventory 2 2 1 1 true;
        mkStockInventory 3 2 1 1 true]
       [mkKaspiOrder "o1" "c1" "PP5" "ACCEPTED_BY_MERCHANT" false false false]
       [mkKaspiSoldProduct "o1" "c1" "P1" "thing" 3 100 None None None;
        mkKaspiSoldProduct "o1" "c1" "P2" "other" 1 50 None None None]
       [].

Definition duplicated_world : World := mkWorld duplicated_db 0 [].

(** [P1] is kept at [PP1] and at [PP2], five pieces each; order [oA] sold one
    piece from [PP1], order [oB] two pieces from [PP2]. *)
Definition two_location_db : DB :=
  mkDB [mkProduct 1 "P1" true]
       [mkStock 1 "PP1" true; mkStock 2 "PP2" true]
       [mkStockInventory 1 1 1 5 true; mkStockInventory 2 1 2 5 true]
       [mkKaspiOrder "oA" "cA" "PP1" "ACCEPTED_BY_MERCHANT" false false false;
        mkKaspiOrder "oB" "cB" "PP2" "ACCEPTED_BY_MERCHANT" false false false]
       [mkKaspiSoldProduct "oA" "cA" "P1" "thing" 1 100 None None None;
        mkKaspiSoldProduct "oB" "cB" "P1" "thing" 2 100 None None None]
       [].

Definition two_location_world : World := mkWorld two_location_db 0 [].

Definition order_oB : Order :=
  mkOrder (Some "oB") (Some "cB") (Some "CANCELLED") (Some "store_PP2")
          None None None.

(** The header of the order says where it was sold from. *)
Definition header_stock_name (d : DB) (order_id : string) : option string :=
  hd_error (map ko_stock_name (order_rows d order_id)).

(** A feed whose invoicing call fails. *)
Definition refusing_feed (_ : nat) : Kaspi :=
  mkKaspi [] [order_o1] [] []
          (fun _ => [mkEntry "P1" "thing" 3 100])
          (fun _ _ => true) (fun _ => false).

(** The shop after [o1] was fulfilled while the invoicing call failed. *)
Definition uninvoiced_world : World :=
  snd (process_single_order refusing_feed true order_o1 shop_world).

Definition order_o1_with_waybill : Order :=
  mkOrder (Some "o1") (Some "c1") (Some "ACCEPTED_BY_MERCHANT") (Some "store_PP5")
          (Some "WB-1") None None.

(** The delivery page now shows a waybill for [o1]; invoicing still fails. *)
Definition waybill_feed (_ : nat) : Kaspi :=
  mkKaspi [] [order_o1_with_waybill] [] []
          (fun _ => [mkEntry "P1" "thing" 3 100])
          (fun _ _ => true) (fun _ => false).

Definition waybills_of (d : DB) (order_id : string) : list (option string) :=
  map ksp_waybill
      (filter (fun ksp => (ksp_order_id ksp =? order_id)%string)
              (kaspi_sold_products d)).

(** ** The shape of the trace of [main] *)

Definition started_line : Event := Log INFO (Text "Script started").
Definition finished_line : Event := Log INFO (Text "Script finished").
Definition exhausted_line : Event :=
  Log WARNING (Text "process_orders gave no result after the attempts").
Definition canceled_line : Event :=
  Log WARNING (Text "a new order was canceled by the customer").

(** The trace of the fulfillment loop and the way the loop is left.  Every
    attempt opens with the call that fetches the delivery page; an attempt
    without success is followed by the archive pass, which opens with the
    call that fetches the archive. *)
Inductive fulfillment_trace (new_order_ids : list string)
  : list Event -> LoopExit -> Prop :=
| ft_exhausted :
    fulfillment_trace new_order_ids [exhausted_line] Exhausted
| ft_break t1 attempt r :
    Forall inner t1 ->
    nonempty (or_success r) = true ->
    fulfillment_trace new_order_ids
      ((Api GetKaspiDelivery :: t1) ++ [Log INFO (ProcessOrdersAttempt attempt r)])
      Break
| ft_return t1 attempt r t2 canceled_ids :
    Forall inner t1 ->
    nonempty (or_success r) = false ->
    Forall inner t2 ->
    any_in canceled_ids new_order_ids = true ->
    fulfillment_trace new_order_ids
      ((Api GetKaspiDelivery :: t1)
         ++ Log INFO (ProcessOrdersAttempt attempt r)
         :: (Api GetNewArchive :: t2)
         ++ [Log INFO (CancelArchiveAttempt attempt canceled_ids); canceled_line])
      Return
| ft_again t1 attempt r t2 canceled_ids rest exit :
    Forall inner t1 ->
    nonempty (or_success r) = false ->
    Forall inner t2 ->
    any_in canceled_ids new_order_ids = false ->
    fulfillment_trace new_order_ids rest exit ->
    fulfillment_trace new_order_ids
      ((Api GetKaspiDelivery :: t1)
         ++ Log INFO (ProcessOrdersAttempt attempt r)
         :: (Api GetNewArchive :: t2)
         ++ Log INFO (CancelArchiveAttempt attempt canceled_ids)
         :: Sleep SLEEP_SECONDS :: rest)
      exit.

(** The trace of [after_acceptance]. *)
Inductive after_acceptance_trace (r : NewOrdersResult) : list Event -> Prop :=
| at_failed :
    nonempty (nr_failed r) = true ->
    after_acceptance_trace r [Log ERROR (NewOrdersLine r)]
| at_aborted tf :
    nonempty (nr_failed r) = false ->
    nonempty (nr_success r) = true ->
    hd_error tf = Some (Api GetKaspiDelivery) ->
    fulfillment_trace (nr_success r) tf Return ->
    after_acceptance_trace r tf
| at_waybill tf exit tw :
    nonempty (nr_failed r) = false ->
    nonempty (nr_success r) = true ->
    hd_error tf = Some (Api GetKaspiDelivery) ->
    fulfillment_trace (nr_success r) tf exit ->
    exit <> Return ->
    Forall waybill_event tw ->
    after_acceptance_trace r (tf ++ tw)
| at_idle :
    nonempty (nr_failed r) = false ->
    nonempty (nr_success r) = false ->
    after_acceptance_trace r [Log INFO (Text "no new orders to process")].

(** The trace of a run of [main]. *)
Inductive main_trace : list Event -> Prop :=
| mt_run t1 r t2 :
    Forall inner t1 ->
    after_acceptance_trace r t2 ->
    main_trace ((started_line :: t1)
                  ++ Log INFO (NewOrdersLine r) :: t2 ++ [finished_line]).

(** A line of the fulfillment loop that reports canceled ids among which is
    one of the accepted orders. *)
Definition abort_trigger (new_order_ids : list string) (ev : Event) : Prop :=
  match ev with
  | Log INFO (CancelArchiveAttempt _ canceled_ids) =>
      any_in canceled_ids new_order_ids = true
  | _ => False
  end.

(** A line of the fulfillment loop that reports an attempt without any
    successful order. *)
Definition unsuccessful_attempt (ev : Event) : Prop :=
  match ev with
  | Log INFO (ProcessOrdersAttempt _ r) => nonempty (or_success r) = false
  | _ => False
  end.

Definition is_new_orders_line (ev : Event) : Prop :=
  match ev with
  | Log INFO (NewOrdersLine _) => True
  | _ => False
  end.

(** Two new orders, of which the marketplace lets the shop accept only
    [n1]; the delivery page then shows [n1]. *)
Definition order_n1 : Order :=
  mkOrder (Some "n1") (Some "k1") (Some "APPROVED_BY_BANK") (Some "store_PP5")
          None None None.

Definition order_n2 : Order :=
  mkOrder (Some "n2") (Some "k2") (Some "APPROVED_BY_BANK") (Some "store_PP5")
          None None None.

Definition rejecting_feed (_ : nat) : Kaspi :=
  mkKaspi [order_n1; order_n2] [order_n1] [] []
          (fun _ => [mkEntry "P1" "thing" 3 100])
          (fun order_id _ => (order_id =? "n1")%string) (fun _ => true).

(** One new order is accepted; the delivery page stays empty and the
    archive shows the order as canceled. *)
Definition canceling_feed (_ : nat) : Kaspi :=
  mkKaspi [order_n1] [] [order_n1] []
          (fun _ => [mkEntry "P1" "thing" 3 100])
          (fun _ _ => true) (fun _ => true).

(** * Further vocabulary

    ** The retry decorator *)

(** What a run of [async_retry] leaves in the trace when every try fails
    the same way: what the failing try itself logs, then a sleep before each
    further try, the delay doubling. *)
Fixpoint retry_trace (noise : list Event) (retries : nat) (backoff_in_seconds : Z)
  : list Event :=
  noise ++ match retries with
           | O => []
           | S k => Sleep backoff_in_seconds
                      :: retry_trace noise k (backoff_in_seconds * 2)
           end.

(** An operation that fails with [e] until the clock reaches [ready_at] and
    returns [a] from then on. *)
Definition recovering {A} (ready_at : nat) (a : A) (e : exn) : M A :=
  fun w => (if (ready_at <=? clock w)%nat then Ok a else Raise e, w).

(** ** Well-formed stock

    The product code names one product, which is active; the stock name
    names one active stock; and they share one active inventory row. *)
Definition located (d : DB) (product_code : string) (stock_name : option string)
           (product : Product) (stock : Stock) (inventory : StockInventory) : Prop :=
  filter (fun p => (p_sku p =? product_code)%string) (products d) = [product]
  /\ p_is_active product = true
  /\ active_stocks_by_name d stock_name = [stock]
  /\ filter (is_inventory_of product stock) (stock_inventory d) = [inventory].

(** ** Order records *)

(** [save_order] cannot insert the header: a [NOT NULL] column would be
    empty, or the order id is taken. *)
Definition unsavable (d : DB) (order_id order_code status : option string) : Prop :=
  order_id = None \/ order_code = None \/ status = None
  \/ order_exists d order_id = true.

(** A line item of the feed as [get_order_products] reads it back. *)
Definition entry_row (entry : Entry) : string * Z * string :=
  (e_code entry, e_quantity entry, e_name entry).

(** ** The fulfillment pipeline *)

(** The order is not recorded, has a pickup point [p], and every line item
    that the marketplace lists for it passes the availability pass. *)
Definition passes_availability (kaspi : nat -> Kaspi) (order : Order) (p : string)
           (w : World) : Prop :=
  order_exists (db w) (o_id order) = false
  /\ o_pickupPointId order = Some p
  /\ Forall (fun entry => ~ short (db w) (Some (last3 p)) entry)
            (order_entries (kaspi (clock w)) (o_id order)).

(** The commit pass of the order, started after the line items were
    fetched in [w], ends in [wd] without raising. *)
Definition commits_in (kaspi : nat -> Kaspi) (writes_back : bool) (order : Order)
           (p : string) (w wd : World) : Prop :=
  decrement_stock writes_back (last3 p)
                  (order_entries (kaspi (clock w)) (o_id order))
                  (mkWorld (db w) (S (clock w))
                           (trace w ++ [Api (GetOrderEntries (o_id order))]))
  = (Ok tt, wd).

(** A delivery order that lacks its code. *)
Definition order_without_code : Order :=
  mkOrder (Some "o5") None (Some "ACCEPTED_BY_MERCHANT") (Some "store_PP5")
          None None None.

(** Ten pieces of [P1] at [PP5], but [P1] is inactive. *)
Definition inactive_db : DB :=
  mkDB [mkProduct 1 "P1" false]
       [mkStock 1 "PP5" true]
       [mkStockInventory 1 1 1 10 true]
       [] [] [].

Definition inactive_world : World := mkWorld inactive_db 0 [].


(** ** Acceptance *)

(** The number of tries in a row, out of [tries] and starting at clock [c],
    at which the marketplace refuses to accept the order. *)
Fixpoint refusals (kaspi : nat -> Kaspi) (order_id order_code : string)
         (c tries : nat) : nat :=
  match tries with
  | O => O
  | S k => if accept_ok (kaspi c) order_id order_code then O
           else S (refusals kaspi order_id order_code (S c) k)
  end.

(** An order of the page that [process_new_orders] tries to accept: it has
    an id and a code, and its status is absent or [APPROVED_BY_BANK]. *)
Definition acceptable (order : Order) : bool :=
  truthy (o_id order) && truthy (o_code order)
  && negb (truthy (o_status order)
           && negb (match o_status order with
                    | Some st => (st =? "APPROVED_BY_BANK")%string
                    | None => false
                    end)).

(** What [process_new_orders] appends to [skipped] for an order that it
    does not try: the order itself when the id or the code is missing,
    the id otherwise. *)
Definition skipped_entry (order : Order) : Order + string :=
  match o_id order with
  | Some order_id =>
      if truthy (o_id order) && truthy (o_code order) then inr order_id
      else inl order
  | None => inl order
  end.

(** The accept calls of a trace, in order. *)
Definition accept_calls (t : list Event) : list (string * string) :=
  flat_map (fun ev => match ev with
                      | Api (AcceptOrder order_id order_code) =>
                          [(order_id, order_code)]
                      | _ => []
                      end) t.

(** A page of new orders: one without a code, one that is already accepted,
    and two to accept. *)
Definition order_n3 : Order :=
  mkOrder (Some "n3") None (Some "APPROVED_BY_BANK") (Some "store_PP5")
          None None None.

Definition order_n4 : Order :=
  mkOrder (Some "n4") (Some "c4") (Some "ACCEPTED_BY_MERCHANT") (Some "store_PP5")
          None None None.

Definition mixed_feed (_ : nat) : Kaspi :=
  mkKaspi [order_n3; order_n1; order_n4; order_n2] [] [] []
          (fun _ => [])
          (fun order_id _ => (order_id =? "n1")%string) (fun _ => true).

(** ** Records are kept *)

(** The header is the same header; a flag that was raised stays raised. *)
Definition header_kept (ko ko' : KaspiOrder) : Prop :=
  ko_order_id ko' = ko_order_id ko
  /\ ko_order_code ko' = ko_order_code ko
  /\ ko_stock_name ko' = ko_stock_name ko
  /\ ko_status ko' = ko_status ko
  /\ ko_is_returned ko' = ko_is_returned ko
  /\ (ko_invoice_generated ko = true -> ko_invoice_generated ko' = true)
  /\ (ko_is_canceled ko = true -> ko_is_canceled ko' = true).

(** The line item is what it was, except maybe for its waybill. *)
Definition line_kept (ksp ksp' : KaspiSoldProduct) : Prop :=
  ksp' = ksp \/ exists waybill, ksp' = set_waybill waybill ksp.

(** The table keeps its rows, in their order and up to [kept], and may have
    new rows after them. *)
Definition grown {A} (kept : A -> A -> Prop) (l l' : list A) : Prop :=
  exists l1 added, l' = l1 ++ added /\ Forall2 kept l l1.

(** The catalog is what it was, and the three tables of order records have
    only grown. *)
Definition keeps_records (w w' : World) : Prop :=
  products (db w') = products (db w)
  /\ stocks (db w') = stocks (db w)
  /\ grown header_kept (kaspi_orders (db w)) (kaspi_orders (db w'))
  /\ grown line_kept (kaspi_sold_products (db w)) (kaspi_sold_products (db w'))
  /\ grown eq (kaspi_canceled_orders (db w)) (kaspi_canceled_orders (db w')).

(** ** The waybill pass *)

(** The order of the delivery page carries a waybill and is recorded. *)
Definition waybill_applies (d : DB) (order : Order) : bool :=
  truthy (o_waybill order) && order_exists d (o_id order).

(** ** The attempts of a run *)

(** The attempt numbers of the lines that report a fulfillment attempt, in
    the order of the trace. *)
Definition fulfillment_numbers (t : list Event) : list nat :=
  flat_map (fun ev => match ev with
                      | Log _ (ProcessOrdersAttempt attempt _) => [attempt]
                      | _ => []
                      end) t.

(** The attempt numbers of the lines that report a waybill attempt. *)
Definition waybill_numbers (t : list Event) : list nat :=
  flat_map (fun ev => match ev with
                      | Log _ (WaybillAttempt attempt _) => [attempt]
                      | _ => []
                      end) t.

(** ** Ambiguous stock

    The three lookups of [update_stock_quantity_and_log] expect at most one
    row each; here the first one that matters finds more. *)
Inductive ambiguous (d : DB) (product_code : string) (stock_name : option string)
  : Prop :=
| amb_stock s1 s2 rest :
    active_stocks_by_name d stock_name = s1 :: s2 :: rest ->
    ambiguous d product_code stock_name
| amb_product stock p1 p2 rest :
    active_stocks_by_name d stock_name = [stock] ->
    active_products_by_sku d product_code = p1 :: p2 :: rest ->
    ambiguous d product_code stock_name
| amb_inventory stock product i1 i2 rest :
    active_stocks_by_name d stock_name = [stock] ->
    active_products_by_sku d product_code = [product] ->
    filter (is_inventory_of product stock) (stock_inventory d) = i1 :: i2 :: rest ->
    ambiguous d product_code stock_name.

(** A delivery order that lacks its pickup point. *)
Definition order_without_pickup_point : Order :=
  mkOrder (Some "o6") (Some "c6") (Some "ACCEPTED_BY_MERCHANT") None
          None None None.

(** The archive of returns shows [o9], which the shop never saw, and [o1]. *)
Definition returns_feed (_ : nat) : Kaspi :=
  mkKaspi [] [] [] [order_o9; order_o1]
          (fun _ => [mkEntry "P1" "thing" 3 100])
          (fun _ _ => true) (fun _ => true).

(** The shop after the source has fulfilled [o1] and then canceled it. *)
Definition canceled_world : World :=
  snd (cancel_single_order false order_o1
                           (snd (process_single_order quiet_feed false order_o1
                                                      shop_world))).
(** ** Reversal of line items *)

(** What a run of [process_product_cancellation] that does not raise leaves
    in the database.  For a product that is missing or inactive, or an order
    already canceled, nothing; otherwise the one update that it issues, which
    adds the quantity to the stock at the resolved location, under the
    cancellation record. *)
Definition reversal_of (writes_back : bool) (order_id : string) (d : DB)
           (item : string * Z * string) : DB :=
  let '(product_code, quantity, _) := item in
  if is_falsy_id (hd_error (map p_id (active_products_by_sku d product_code)))
     || order_canceled d order_id
  then d
  else
    let stock_name := stock_name_for_product d product_code in
    insert_canceled_order
      (mkKaspiCanceledOrder order_id (order_code_of d order_id) product_code)
      (stock_after_update writes_back d product_code
                          (stock_quantity_of d product_code stock_name + quantity)
                          stock_name).

(** The stock name query has a row for the product, and every row of it
    carries [stock_name]: whichever row [LIMIT 1] returns, it is
    [stock_name]. *)
Definition resolves_to (d : DB) (product_code stock_name : string) : Prop :=
  stock_name_rows d product_code <> []
  /\ Forall (eq stock_name) (stock_name_rows d product_code).

(** The shop after the source has fulfilled [o1]: the order is recorded and
    the ten pieces are still there. *)
Definition fulfilled_world : World :=
  snd (process_single_order quiet_feed false order_o1 shop_world).

(** * Reasoning about coroutines *)

Section Preservation.

Context {P : Event -> Prop} {R : World -> World -> Prop} `{!Ambient P R}.

Lemma preserves_ret A (a : A) : preserves R (ret a).
Proof. intros w. simpl. reflexivity. Qed.

Lemma preserves_raise A (e : exn) : preserves R (@raise A e).
Proof. intros w. simpl. reflexivity. Qed.

Lemma preserves_lift_result A (r : Result A) : preserves R (lift_result r).
Proof. intros w. simpl. reflexivity. Qed.

Lemma preserves_read_db A (q : DB -> A) : preserves R (read_db q).
Proof. intros w. simpl. reflexivity. Qed.

Lemma preserves_bind A B (m : M A) (f : A -> M B) :
  preserves R m -> (forall a, preserves R (f a)) -> preserves R (bind m f).
Proof.
  intros Hm Hf w. unfold bind. specialize (Hm w).
  destruct (m w) as [[a|e] w1]; simpl in *.
  - etransitivity; [exact Hm | apply Hf].
  - exact Hm.
Qed.

Lemma preserves_try_except A (m : M A) handles (h : exn -> M A) :
  preserves R m -> (forall e, preserves R (h e)) -> preserves R (try_except m handles h).
Proof.
  intros Hm Hh w. unfold try_except. specialize (Hm w).
  destruct (m w) as [[a|e] w1]; simpl in *.
  - exact Hm.
  - destruct (handles e); simpl.
    + etransitivity; [exact Hm | apply Hh].
    + exact Hm.
Qed.

Lemma preserves_try_finally A (body : M A) (cleanup : M unit) :
  preserves R body -> preserves R cleanup -> preserves R (try_finally body cleanup).
Proof.
  intros Hb Hc w. unfold try_finally. specialize (Hb w).
  destruct (body w) as [r w1]. specialize (Hc w1).
  destruct (cleanup w1) as [[u|e] w2]; simpl in *; etransitivity; eauto.
Qed.

Lemma preserves_forget A (m : M A) : preserves R m -> preserves R (forget m).
Proof. intros Hm w. exact (Hm w). Qed.

Lemma preserves_emit ev : P ev -> preserves R (emit ev).
Proof.
  intros Hev w. simpl. apply ambient_quiet. constructor; [exact Hev | constructor].
Qed.

Lemma preserves_tick : preserves R tick.
Proof.
  intros w. simpl.
  pose proof (ambient_quiet w (S (clock w)) [] (@Forall_nil Event P)) as H.
  rewrite app_nil_r in H. exact H.
Qed.

Lemma preserves_sleep seconds : P (Sleep seconds) -> preserves R (sleep seconds).
Proof.
  intros H. apply preserves_bind; [apply preserves_emit, H | intros; apply preserves_tick].
Qed.

Lemma preserves_api (kaspi : nat -> Kaspi) A call (answer : Kaspi -> A) :
  P (Api call) -> preserves R (api kaspi call answer).
Proof.
  intros Hev w. simpl. apply ambient_quiet. constructor; [exact Hev | constructor].
Qed.

Lemma preserves_async_retry A retries delay allowed (func : M A) :
  (forall s, P (Sleep s)) -> preserves R func ->
  preserves R (async_retry retries delay allowed func).
Proof.
  intros Hs Hf. revert delay.
  induction retries as [|k IH]; intros delay; simpl.
  - apply preserves_try_except; [exact Hf | intros; apply preserves_raise].
  - apply preserves_try_except; [exact Hf |].
    intros e. apply preserves_bind; [apply preserves_sleep, Hs | intros; apply IH].
Qed.

End Preservation.

Ltac preserve_step :=
  lazymatch goal with
  | |- preserves _ (bind _ _) => apply preserves_bind; [| intros ?]
  | |- preserves _ (ret _) => apply preserves_ret
  | |- preserves _ (raise _) => apply preserves_raise
  | |- preserves _ (lift_result _) => apply preserves_lift_result
  | |- preserves _ (read_db _) => apply preserves_read_db
  | |- preserves _ (forget _) => apply preserves_forget
  | |- preserves _ (try_except _ _ _) => apply preserves_try_except; [| intros ?]
  | |- preserves _ (try_finally _ _) => apply preserves_try_finally
  | |- preserves _ (async_retry _ _ _ _) => apply preserves_async_retry; [intros ? |]
  | |- preserves _ (logger _ _) => apply preserves_emit
  | |- preserves _ (emit _) => apply preserves_emit
  | |- preserves _ (sleep _) => apply preserves_sleep
  | |- preserves _ (api _ _ _) => apply preserves_api
  | |- preserves _ tick => apply preserves_tick
  | |- preserves _ (write_db _) =>
      first [ solve [apply reversal_write_ok; constructor; lia]
            | apply invariant_write; constructor ]
  | |- preserves _ (if ?b then _ else _) => destruct b eqn:?
  | |- preserves _ (match ?x with _ => _ end) => destruct x eqn:?
  end.

Create HintDb preserve.

Ltac preserve :=
  repeat (first [ preserve_step
                | match goal with
                  | H : forall ev, inner ev -> _ |- _ ?ev => apply H; exact I
                  end
                | solve [eauto with preserve typeclass_instances]
                | lia ]).

Section ReadOnly.

Context {P : Event -> Prop} {R : World -> World -> Prop} `{!Ambient P R}.
Hypothesis inner_tolerated : forall ev, inner ev -> P ev.
Variable kaspi : nat -> Kaspi.

Lemma preserves_get_product_id product_code :
  preserves R (get_product_id product_code).
Proof. unfold get_product_id. preserve. Qed.

Lemma preserves_get_stock_quantity product_code stock_name for_update :
  preserves R (get_stock_quantity product_code stock_name for_update).
Proof. unfold get_stock_quantity. preserve. Qed.

Lemma preserves_is_order_processed order_id :
  preserves R (is_order_processed order_id).
Proof. unfold is_order_processed. preserve. Qed.

Lemma preserves_get_order_products order_id :
  preserves R (get_order_products order_id).
Proof. unfold get_order_products. preserve. Qed.

Lemma preserves_save_canceled_order order_id product_code :
  preserves R (save_canceled_order order_id product_code).
Proof. unfold save_canceled_order. preserve. Qed.

Lemma preserves_is_order_canceled order_id :
  preserves R (is_order_canceled order_id).
Proof. unfold is_order_canceled. preserve. Qed.

Lemma preserves_is_invoice_generated order_id :
  preserves R (is_invoice_generated order_id).
Proof. unfold is_invoice_generated. preserve. Qed.

Lemma preserves_get_order_code order_id :
  preserves R (get_order_code order_id).
Proof. unfold get_order_code. preserve. Qed.

Lemma preserves_get_new_orders : preserves R (get_new_orders kaspi).
Proof. unfold get_new_orders. preserve. Qed.

Lemma preserves_get_kaspi_delivery : preserves R (get_kaspi_delivery kaspi).
Proof. unfold get_kaspi_delivery. preserve. Qed.

Lemma preserves_get_new_archive : preserves R (get_new_archive kaspi).
Proof. unfold get_new_archive. preserve. Qed.

Lemma preserves_get_returned_archive : preserves R (get_returned_archive kaspi).
Proof. unfold get_returned_archive. preserve. Qed.

Lemma preserves_get_order_entries order_id :
  preserves R (get_order_entries kaspi order_id).
Proof. unfold get_order_entries. preserve. Qed.

Lemma preserves_accept_order order_id order_code :
  preserves R (accept_order kaspi order_id order_code).
Proof. unfold accept_order. preserve. Qed.

Lemma preserves_create_invoice order_id :
  preserves R (create_invoice kaspi order_id).
Proof. unfold create_invoice. preserve. Qed.

End ReadOnly.

#[export] Hint Resolve preserves_get_product_id preserves_get_stock_quantity
  preserves_is_order_processed preserves_get_order_products
  preserves_save_canceled_order preserves_is_order_canceled
  preserves_is_invoice_generated preserves_get_order_code
  preserves_get_new_orders preserves_get_kaspi_delivery preserves_get_new_archive
  preserves_get_returned_archive preserves_get_order_entries
  preserves_accept_order preserves_create_invoice : preserve.

Section ReadOnlyLoops.

Context {P : Event -> Prop} {R : World -> World -> Prop} `{!Ambient P R}.
Hypothesis inner_tolerated : forall ev, inner ev -> P ev.
Variable kaspi : nat -> Kaspi.

Lemma preserves_accept_once order_id order_code st :
  preserves R (accept_once kaspi order_id order_code st).
Proof. unfold accept_once. destruct st as [[attempt success] failed]. preserve. Qed.

Lemma preserves_accept_loop passes order_id order_code st :
  preserves R (accept_loop kaspi passes order_id order_code st).
Proof.
  revert st. induction passes as [|k IH]; intros st; simpl.
  - preserve.
  - destruct st as [[attempt success] failed].
    pose proof preserves_accept_once. preserve.
Qed.

Lemma preserves_accept_new_orders orders acc :
  preserves R (accept_new_orders kaspi orders acc).
Proof.
  revert acc. induction orders as [|order rest IH]; intros acc;
    cbn [accept_new_orders].
  - preserve.
  - pose proof preserves_accept_loop. preserve.
Qed.

Lemma preserves_process_new_orders : preserves R (process_new_orders kaspi).
Proof.
  unfold process_new_orders. pose proof preserves_accept_new_orders. preserve.
Qed.

Lemma preserves_check_availability order_code stock_name products :
  preserves R (check_availability order_code stock_name products).
Proof.
  induction products as [|entry rest IH]; simpl; preserve.
Qed.

End ReadOnlyLoops.

#[export] Hint Resolve preserves_accept_once preserves_accept_loop
  preserves_accept_new_orders preserves_process_new_orders
  preserves_check_availability : preserve.

#[export] Instance invariant_reversal P R : Invariant P R -> Reversal P R.
Proof.
  intros H. split; [exact _ |].
  intros f Hf. apply invariant_write. destruct Hf; constructor. assumption.
Qed.

Section ReversalWrites.

Context {P : Event -> Prop} {R : World -> World -> Prop} `{!Reversal P R}.
Hypothesis inner_tolerated : forall ev, inner ev -> P ev.
Variable writes_back : bool.

Lemma preserves_update_stock_quantity_and_log product_code new_quantity
      order_quantity operation stock_name :
  preserves R (update_stock_quantity_and_log writes_back product_code new_quantity
                                             order_quantity operation stock_name).
Proof. unfold update_stock_quantity_and_log. preserve. Qed.

Lemma preserves_process_product_cancellation product_code quantity order_id :
  preserves R (process_product_cancellation writes_back product_code quantity
                                            order_id).
Proof.
  pose proof preserves_update_stock_quantity_and_log.
  unfold process_product_cancellation. preserve.
Qed.

Lemma preserves_decrement_stock stock_name products :
  preserves R (decrement_stock writes_back stock_name products).
Proof.
  pose proof preserves_update_stock_quantity_and_log.
  induction products as [|entry rest IH]; cbn [decrement_stock]; preserve.
Qed.

Lemma preserves_cancel_products products order_id :
  preserves R (cancel_products writes_back products order_id).
Proof.
  pose proof preserves_process_product_cancellation.
  induction products as [|[[product_code quantity] name] rest IH];
    cbn [cancel_products]; preserve.
Qed.

End ReversalWrites.

#[export] Hint Resolve preserves_update_stock_quantity_and_log
  preserves_process_product_cancellation preserves_decrement_stock
  preserves_cancel_products : preserve.

Section Writes.

Context {P : Event -> Prop} {R : World -> World -> Prop} `{!Invariant P R}.
Hypothesis inner_tolerated : forall ev, inner ev -> P ev.
Variable kaspi : nat -> Kaspi.
Variable writes_back : bool.

Lemma preserves_save_order order_id order_code status stock_name products
      customer_info :
  preserves R (save_order order_id order_code status stock_name products
                          customer_info).
Proof. unfold save_order. preserve. Qed.

Lemma preserves_mark_order_as_canceled order_id :
  preserves R (mark_order_as_canceled order_id).
Proof. unfold mark_order_as_canceled. preserve. Qed.

Lemma preserves_mark_order_as_invoiced order_id :
  preserves R (mark_order_as_invoiced order_id).
Proof. unfold mark_order_as_invoiced. preserve. Qed.

Lemma preserves_process_single_order order :
  preserves R (process_single_order kaspi writes_back order).
Proof.
  pose proof preserves_save_order.
  unfold process_single_order. preserve.
Qed.

Lemma preserves_process_orders_tasks orders acc :
  preserves R (process_orders_tasks kaspi writes_back orders acc).
Proof.
  pose proof preserves_process_single_order.
  revert acc. induction orders as [|order rest IH]; intros acc;
    cbn [process_orders_tasks]; unfold process_orders_task; preserve.
Qed.

Lemma preserves_process_orders : preserves R (process_orders kaspi writes_back).
Proof.
  pose proof preserves_process_orders_tasks. unfold process_orders. preserve.
Qed.

Lemma preserves_write_waybill order_id waybill :
  preserves R (write_waybill order_id waybill).
Proof. unfold write_waybill. preserve. Qed.

Lemma preserves_save_waybill_loop orders updated_ids :
  preserves R (save_waybill_loop orders updated_ids).
Proof.
  pose proof preserves_write_waybill.
  revert updated_ids. induction orders as [|order rest IH]; intros updated_ids;
    cbn [save_waybill_loop]; preserve.
Qed.

Lemma preserves_save_waybill_links : preserves R (save_waybill_links kaspi).
Proof.
  pose proof preserves_save_waybill_loop. unfold save_waybill_links. preserve.
Qed.

Lemma preserves_cancel_single_order order :
  preserves R (cancel_single_order writes_back order).
Proof.
  pose proof preserves_mark_order_as_canceled.
  unfold cancel_single_order. preserve.
Qed.

Lemma preserves_cancel_tasks orders canceled_ids :
  preserves R (cancel_tasks writes_back orders canceled_ids).
Proof.
  pose proof preserves_cancel_single_order.
  revert canceled_ids. induction orders as [|order rest IH]; intros canceled_ids;
    cbn [cancel_tasks]; unfold cancel_task; preserve.
Qed.

Lemma preserves_cancel_orders_from_archive :
  preserves R (cancel_orders_from_archive kaspi writes_back).
Proof.
  pose proof preserves_cancel_tasks. unfold cancel_orders_from_archive. preserve.
Qed.

Lemma preserves_cancel_orders_from_returned_archive :
  preserves R (cancel_orders_from_returned_archive kaspi writes_back).
Proof.
  pose proof preserves_cancel_tasks.
  unfold cancel_orders_from_returned_archive. preserve.
Qed.

End Writes.

#[export] Hint Resolve preserves_save_order
  preserves_mark_order_as_canceled preserves_mark_order_as_invoiced
  preserves_process_single_order preserves_process_orders_tasks
  preserves_process_orders preserves_write_waybill preserves_save_waybill_loop
  preserves_save_waybill_links
  preserves_cancel_single_order preserves_cancel_tasks
  preserves_cancel_orders_from_archive
  preserves_cancel_orders_from_returned_archive : preserve.

Section FulfillmentLoop.

Context {P : Event -> Prop} {R : World -> World -> Prop} `{!Invariant P R}.
Hypothesis fulfillment_tolerated : forall ev, fulfillment_event ev -> P ev.
Variable kaspi : nat -> Kaspi.
Variable writes_back : bool.

Let inner_tolerated : forall ev, inner ev -> P ev :=
  fun ev H => fulfillment_tolerated ev (or_introl H).

Lemma preserves_fulfillment_attempts new_order_ids remaining attempt :
  preserves R (fulfillment_attempts kaspi writes_back new_order_ids remaining attempt).
Proof.
  revert attempt. induction remaining as [|k IH]; intros attempt;
    cbn [fulfillment_attempts]; preserve;
    apply fulfillment_tolerated; first [left; exact I | right; exact I].
Qed.

End FulfillmentLoop.

Section WaybillLoop.

Context {P : Event -> Prop} {R : World -> World -> Prop} `{!Invariant P R}.
Hypothesis waybill_tolerated : forall ev, waybill_event ev -> P ev.
Variable kaspi : nat -> Kaspi.
Variable writes_back : bool.

Let inner_tolerated : forall ev, inner ev -> P ev :=
  fun ev H => waybill_tolerated ev (or_introl H).

Lemma preserves_waybill_attempts new_order_ids remaining attempt :
  preserves R (waybill_attempts kaspi writes_back new_order_ids remaining attempt).
Proof.
  revert attempt. induction remaining as [|k IH]; intros attempt;
    cbn [waybill_attempts]; preserve;
    apply waybill_tolerated; first [left; exact I | right; exact I].
Qed.

End WaybillLoop.

Section Orchestration.

Context {P : Event -> Prop} {R : World -> World -> Prop} `{!Invariant P R}.
Hypothesis all_tolerated : forall ev, P ev.
Variable kaspi : nat -> Kaspi.
Variable writes_back : bool.

Let inner_tolerated : forall ev, inner ev -> P ev := fun ev _ => all_tolerated ev.

Lemma preserves_after_acceptance new_orders_result :
  preserves R (after_acceptance kaspi writes_back new_orders_result).
Proof.
  pose proof (preserves_fulfillment_attempts (fun ev _ => all_tolerated ev)
                                             kaspi writes_back).
  pose proof (preserves_waybill_attempts (fun ev _ => all_tolerated ev)
                                         kaspi writes_back).
  unfold after_acceptance. preserve.
Qed.

Lemma preserves_main : preserves R (main kaspi writes_back).
Proof.
  pose proof preserves_after_acceptance. unfold main. preserve.
Qed.

Lemma preserves_run_operation op : preserves R (run_operation kaspi writes_back op).
Proof.
  pose proof preserves_main. destruct op; cbn [run_operation]; preserve.
Qed.

End Orchestration.

(** * The relations used below *)

#[export] Instance same_db_preorder : PreOrder same_db.
Proof.
  split.
  - intros w. reflexivity.
  - intros w1 w2 w3 H12 H23. unfold same_db in *. congruence.
Qed.

#[export] Instance same_db_ambient : Ambient any_event same_db.
Proof. split; [exact _ | intros w c t _; reflexivity]. Qed.

#[export] Instance keeps_nonneg_preorder : PreOrder keeps_nonneg.
Proof.
  split.
  - intros w H. exact H.
  - intros w1 w2 w3 H12 H23 H. apply H23, H12, H.
Qed.

#[export] Instance keeps_nonneg_ambient : Ambient any_event keeps_nonneg.
Proof. split; [exact _ | intros w c t _ H; exact H]. Qed.

Lemma nonneg_assign_quantity product stock new_quantity d :
  0 <= new_quantity -> nonneg_stock d ->
  nonneg_stock (assign_quantity product stock new_quantity d).
Proof.
  intros Hq Hd. unfold nonneg_stock, assign_quantity in *. simpl.
  induction Hd as [|si l Hsi _ IH]; simpl; constructor.
  - destruct (is_inventory_of product stock si); simpl; assumption.
  - exact IH.
Qed.

#[export] Instance keeps_nonneg_invariant : Invariant any_event keeps_nonneg.
Proof.
  split; [exact _ |].
  intros f Hf w Hw. destruct Hf; simpl; try exact Hw.
  apply nonneg_assign_quantity; assumption.
Qed.

Lemma kept_or_nonneg_refl l : Forall2 kept_or_nonneg l l.
Proof.
  induction l as [|si l IH]; constructor; [|exact IH].
  unfold kept_or_nonneg. auto 6.
Qed.

Lemma kept_or_nonneg_trans l1 l2 l3 :
  Forall2 kept_or_nonneg l1 l2 -> Forall2 kept_or_nonneg l2 l3 ->
  Forall2 kept_or_nonneg l1 l3.
Proof.
  intros H12. revert l3. induction H12 as [|a b l1 l2 Hab _ IH]; intros l3 H23.
  - inversion H23. constructor.
  - inversion H23 as [|b' c l2' l3' Hbc Hrest]; subst. constructor.
    + unfold kept_or_nonneg in *.
      destruct Hab as [A1 [A2 [A3 [A4 A5]]]]. destruct Hbc as [B1 [B2 [B3 [B4 B5]]]].
      repeat split; try congruence.
      destruct B5 as [B5 | B5]; [|right; exact B5].
      destruct A5 as [A5 | A5]; [left; congruence | right; lia].
    + apply IH, Hrest.
Qed.

#[export] Instance writes_nonneg_preorder : PreOrder writes_nonneg.
Proof.
  split.
  - intros w. apply kept_or_nonneg_refl.
  - intros w1 w2 w3. apply kept_or_nonneg_trans.
Qed.

#[export] Instance writes_nonneg_ambient : Ambient any_event writes_nonneg.
Proof. split; [exact _ | intros w c t _; apply kept_or_nonneg_refl]. Qed.

#[export] Instance writes_nonneg_invariant : Invariant any_event writes_nonneg.
Proof.
  split; [exact _ |].
  intros f Hf w. unfold writes_nonneg.
  destruct Hf; simpl; try apply kept_or_nonneg_refl.
  induction (stock_inventory (db w)) as [|si l IH]; simpl; constructor; [|exact IH].
  unfold kept_or_nonneg.
  destruct (is_inventory_of product stock si); simpl; auto 6.
Qed.

#[export] Instance extends_with_preorder P : PreOrder (extends_with P).
Proof.
  split.
  - intros w. exists []. rewrite app_nil_r. split; [reflexivity | constructor].
  - intros w1 w2 w3 [t1 [E1 F1]] [t2 [E2 F2]]. exists (t1 ++ t2). split.
    + rewrite E2, E1, app_assoc. reflexivity.
    + apply Forall_app. split; assumption.
Qed.

#[export] Instance extends_with_ambient P : Ambient P (extends_with P).
Proof.
  split; [exact _ |]. intros w c t Ht. exists t. split; [reflexivity | exact Ht].
Qed.

#[export] Instance extends_with_invariant P : Invariant P (extends_with P).
Proof.
  split; [exact _ |]. intros f _ w. exists []. simpl. rewrite app_nil_r.
  split; [reflexivity | constructor].
Qed.

#[export] Instance keeps_orders_preorder : PreOrder keeps_orders.
Proof.
  split.
  - intros w order_id H. exact H.
  - intros w1 w2 w3 H12 H23 order_id H. apply H23, H12, H.
Qed.

#[export] Instance keeps_orders_ambient : Ambient any_event keeps_orders.
Proof. split; [exact _ | intros w c t _ order_id H; exact H]. Qed.

Lemma order_exists_update_orders order_id f d x :
  (forall ko, ko_order_id (f ko) = ko_order_id ko) ->
  order_exists (update_orders order_id f d) x = order_exists d x.
Proof.
  intros Hf. destruct x as [oid|]; simpl; [|reflexivity].
  induction (kaspi_orders d) as [|ko l IH]; simpl; [reflexivity|].
  rewrite IH. f_equal.
  destruct (ko_order_id ko =? order_id)%string; [rewrite Hf|]; reflexivity.
Qed.

#[export] Instance keeps_orders_invariant : Invariant any_event keeps_orders.
Proof.
  split; [exact _ |].
  intros f Hf w x Hx. destruct Hf; simpl; try exact Hx.
  - destruct x as [oid|]; simpl in *; [|discriminate].
    rewrite existsb_app, Hx. reflexivity.
  - rewrite order_exists_update_orders; [exact Hx | reflexivity].
  - rewrite order_exists_update_orders; [exact Hx | reflexivity].
  - rewrite order_exists_update_orders; [exact Hx | reflexivity].
Qed.

(** * Stock quantities (C1) *)

Section AsyncRetry.

Variables (A : Type) (F : DB -> DB) (func : M A).
Hypothesis func_db : forall w, db (snd (func w)) = F (db w).
Hypothesis func_raise : forall w e, fst (func w) = Raise e -> F (db w) = db w.

Lemma async_retry_db retries delay allowed w :
  db (snd (async_retry retries delay allowed func w)) = F (db w).
Proof.
  revert delay w. induction retries as [|k IH]; intros delay w; simpl;
    unfold try_except;
    pose proof (func_db w) as Hdb; pose proof (func_raise w) as Hr;
    destruct (func w) as [[a|e] w1]; simpl in *; try exact Hdb;
    destruct (allowed e); simpl; try exact Hdb.
  unfold bind, sleep, bind. simpl. rewrite IH. simpl.
  rewrite Hdb, (Hr e eq_refl). apply Hr with (e := e). reflexivity.
Qed.

End AsyncRetry.

Ltac run_monad :=
  unfold bind, ret, raise, read_db, write_db, lift_result, logger, emit,
    try_except; simpl.

Lemma update_stock_quantity_and_log_db writes_back product_code new_quantity
      order_quantity operation stock_name w :
  db (snd (update_stock_quantity_and_log writes_back product_code new_quantity
                                         order_quantity operation stock_name w))
  = stock_after_update writes_back (db w) product_code new_quantity stock_name.
Proof.
  unfold update_stock_quantity_and_log.
  apply (async_retry_db unit
           (fun d => stock_after_update writes_back d product_code new_quantity
                                        stock_name)).
  - intros w0. unfold stock_after_update. run_monad.
    destruct (active_stocks_by_name (db w0) stock_name) as [|stock [|? ?]];
      simpl; try reflexivity.
    destruct (active_products_by_sku (db w0) product_code) as [|product [|? ?]];
      simpl; try reflexivity.
    destruct (filter (is_inventory_of product stock) (stock_inventory (db w0)))
      as [|inventory [|? ?]]; simpl; try reflexivity.
    destruct (new_quantity <? 0); simpl; [reflexivity|].
    destruct writes_back; reflexivity.
  - intros w0 e. unfold stock_after_update. run_monad.
    destruct (active_stocks_by_name (db w0) stock_name) as [|stock [|? ?]];
      simpl; try reflexivity; try discriminate.
    destruct (active_products_by_sku (db w0) product_code) as [|product [|? ?]];
      simpl; try reflexivity; try discriminate.
    destruct (filter (is_inventory_of product stock) (stock_inventory (db w0)))
      as [|inventory [|? ?]]; simpl; try reflexivity; try discriminate.
    destruct (new_quantity <? 0); simpl; [discriminate|].
    destruct writes_back; discriminate.
Qed.

Lemma stock_after_update_rejected writes_back d product_code new_quantity stock_name :
  new_quantity < 0 \/ unavailable d product_code stock_name ->
  stock_after_update writes_back d product_code new_quantity stock_name = d.
Proof.
  intros H. unfold stock_after_update. unfold unavailable in H.
  destruct (active_stocks_by_name d stock_name) as [|stock [|? ?]] eqn:Es;
    try reflexivity.
  destruct (active_products_by_sku d product_code) as [|product [|? ?]] eqn:Ep;
    try reflexivity.
  destruct (filter (is_inventory_of product stock) (stock_inventory d))
    as [|inventory [|? ?]] eqn:Ei; try reflexivity.
  destruct H as [Hq | [Hs | [Hp | Hi]]]; try discriminate.
  - apply Z.ltb_lt in Hq. rewrite Hq. reflexivity.
  - rewrite (Hi stock product) in Ei; [discriminate | left; reflexivity
                                       | left; reflexivity].
Qed.

Lemma update_stock_quantity_and_log_rejected writes_back product_code new_quantity
      order_quantity operation stock_name w :
  rejected (db w) product_code new_quantity stock_name ->
  exists msg,
    update_stock_quantity_and_log writes_back product_code new_quantity
                                  order_quantity operation stock_name w
    = (Ok tt, mkWorld (db w) (clock w) (trace w ++ [Log WARNING msg])).
Proof.
  intros H. unfold update_stock_quantity_and_log. simpl. run_monad.
  destruct H as [Hs | stock Hs Hp | stock product Hs Hp Hi
                 | stock product inventory Hs Hp Hi Hq].
  - rewrite Hs. simpl. eexists. reflexivity.
  - rewrite Hs. simpl. rewrite Hp. simpl. eexists. reflexivity.
  - rewrite Hs. simpl. rewrite Hp. simpl. rewrite Hi. simpl. eexists. reflexivity.
  - rewrite Hs. simpl. rewrite Hp. simpl. rewrite Hi. simpl.
    apply Z.ltb_lt in Hq. rewrite Hq. simpl. eexists. reflexivity.
Qed.

Lemma run_operations_writes_nonneg kaspi writes_back ops w :
  writes_nonneg w (run_operations kaspi writes_back ops w).
Proof.
  revert w. induction ops as [|op rest IH]; intros w; simpl.
  - reflexivity.
  - etransitivity; [|apply IH].
    apply (preserves_run_operation (R := writes_nonneg) (P := any_event)
                                   (fun _ => I) kaspi writes_back op w).
Qed.

Lemma run_operations_nonneg kaspi writes_back ops w :
  nonneg_stock (db w) -> nonneg_stock (db (run_operations kaspi writes_back ops w)).
Proof.
  revert w. induction ops as [|op rest IH]; intros w Hw; simpl; [exact Hw|].
  apply IH.
  apply (preserves_run_operation (R := keeps_nonneg) (P := any_event)
                                 (fun _ => I) kaspi writes_back op w Hw).
Qed.

(** C1. A call of [update_stock_quantity_and_log] that asks for a negative
    quantity, or whose stock location, product or inventory row is missing or
    inactive, leaves the database as it was; when the source reaches one of
    its four rejections the call returns normally and all it does is log one
    warning.  Consequently no sequence of operations of the engine ever
    stores a negative quantity: after it, every inventory row holds the
    quantity it had before or a non-negative one, so that no stored quantity
    is negative when none was. *)
Theorem stock_update_rejections_and_nonnegative_stock :
  forall (kaspi : nat -> Kaspi) (writes_back : bool),
    (forall product_code new_quantity order_quantity operation stock_name w,
        new_quantity < 0 \/ unavailable (db w) product_code stock_name ->
        db (snd (update_stock_quantity_and_log writes_back product_code new_quantity
                                               order_quantity operation stock_name w))
        = db w)
    /\ (forall product_code new_quantity order_quantity operation stock_name w,
           rejected (db w) product_code new_quantity stock_name ->
           exists msg,
             update_stock_quantity_and_log writes_back product_code new_quantity
                                           order_quantity operation stock_name w
             = (Ok tt, mkWorld (db w) (clock w) (trace w ++ [Log WARNING msg])))
    /\ (forall ops w, writes_nonneg w (run_operations kaspi writes_back ops w))
    /\ (forall ops w,
           nonneg_stock (db w) ->
           nonneg_stock (db (run_operations kaspi writes_back ops w))).
Proof.
  intros kaspi writes_back. split; [|split; [|split]].
  - intros. rewrite update_stock_quantity_and_log_db.
    apply stock_after_update_rejected. assumption.
  - intros. apply update_stock_quantity_and_log_rejected. assumption.
  - intros. apply run_operations_writes_nonneg.
  - intros. apply run_operations_nonneg. assumption.
Qed.

Lemma stock_update_rejections_witness :
  db (snd (update_stock_quantity_and_log true "P1" (-1) 3 "sales" (Some "PP5")
                                         shop_world))
  = db shop_world
  /\ (exists msg,
         update_stock_quantity_and_log true "P1" 5 3 "sales" (Some "XX1") shop_world
         = (Ok tt, mkWorld (db shop_world) (clock shop_world)
                           (trace shop_world ++ [Log WARNING msg])))
  /\ nonneg_stock
       (db (run_operations quiet_feed true
                           [OpProcessOrders;
                            OpUpdateStock "P1" (-4) 0 "sales" (Some "PP5");
                            OpMain]
                           shop_world)).
Proof.
  destruct (stock_update_rejections_and_nonnegative_stock quiet_feed true)
    as [H1 [H2 [_ H3]]].
  split; [|split].
  - apply H1. left. lia.
  - apply H2. apply rej_stock. reflexivity.
  - apply H3. repeat constructor. simpl. lia.
Defined.

(** * The fulfillment pipeline (C2, C3) *)

Lemma is_order_processed_run order_id w :
  is_order_processed order_id w = (Ok (order_exists (db w) order_id), w).
Proof. reflexivity. Qed.

Lemma get_stock_quantity_run product_code stock_name for_update w :
  get_stock_quantity product_code stock_name for_update w
  = (Ok (stock_quantity_of (db w) product_code stock_name), w).
Proof. reflexivity. Qed.

Lemma is_order_canceled_run order_id w :
  is_order_canceled order_id w = (Ok (order_canceled (db w) order_id), w).
Proof. reflexivity. Qed.

Lemma get_order_products_run order_id w :
  get_order_products order_id w = (Ok (order_products (db w) order_id), w).
Proof. reflexivity. Qed.

Lemma get_order_entries_run kaspi order_id w :
  get_order_entries kaspi order_id w
  = (Ok (order_entries (kaspi (clock w)) order_id),
     mkWorld (db w) (S (clock w)) (trace w ++ [Api (GetOrderEntries order_id)])).
Proof. reflexivity. Qed.

Lemma check_availability_short order_code stock_name products w :
  Exists (short (db w) (Some stock_name)) products ->
  exists w', check_availability order_code stock_name products w = (Ok false, w')
             /\ db w' = db w.
Proof.
  induction products as [|entry rest IH]; intros H.
  - inversion H.
  - cbn [check_availability]. unfold bind at 1. rewrite get_stock_quantity_run.
    destruct (stock_quantity_of (db w) (e_code entry) (Some stock_name)
              <? e_quantity entry) eqn:E.
    + eexists. split; reflexivity.
    + apply Exists_cons in H. destruct H as [H | H].
      * unfold short in H. apply Z.ltb_lt in H. congruence.
      * apply IH, H.
Qed.

(** C2. When some line item of the order is short of stock at the order's
    location, [process_single_order] returns [False] and the database is what
    it was: nothing is decremented and no order or line-item row is
    created. *)
Theorem short_line_item_fails_whole_order :
  forall (kaspi : nat -> Kaspi) (writes_back : bool) (order : Order) (w : World)
         (entry : Entry),
    In entry (order_entries (kaspi (clock w)) (o_id order)) ->
    short (db w) (stock_name_of order) entry ->
    fst (process_single_order kaspi writes_back order w) = Ok false
    /\ db (snd (process_single_order kaspi writes_back order w)) = db w.
Proof.
  intros kaspi writes_back order w entry Hin Hshort.
  assert (exists w', process_single_order kaspi writes_back order w = (Ok false, w')
                     /\ db w' = db w) as [w' [E Hdb]].
  { unfold process_single_order, try_except.
    unfold bind at 1. rewrite is_order_processed_run.
    destruct (order_exists (db w) (o_id order)); [eexists; split; reflexivity|].
    unfold bind at 1. rewrite get_order_entries_run.
    unfold stock_name_of in Hshort.
    destruct (o_pickupPointId order) as [p|]; simpl in Hshort.
    - unfold bind at 1. unfold ret at 1.
      set (w1 := mkWorld (db w) (S (clock w))
                         (trace w ++ [Api (GetOrderEntries (o_id order))])).
      destruct (check_availability_short (o_code order) (last3 p)
                  (order_entries (kaspi (clock w)) (o_id order)) w1)
        as [w' [E Hdb]].
      { apply Exists_exists. exists entry. split; assumption. }
      unfold bind at 1. rewrite E. simpl. eexists. split; [reflexivity | exact Hdb].
    - eexists. split; reflexivity. }
  rewrite E. split; [reflexivity | exact Hdb].
Qed.

Lemma short_line_item_witness :
  fst (process_single_order hungry_feed true order_o1 scarce_world) = Ok false
  /\ db (snd (process_single_order hungry_feed true order_o1 scarce_world))
     = db scarce_world.
Proof.
  apply (short_line_item_fails_whole_order hungry_feed true order_o1 scarce_world
                                           (mkEntry "P1" "thing" 5 100)).
  - left. reflexivity.
  - unfold short. vm_compute. reflexivity.
Defined.

Lemma try_except_any_ok A (m : M A) (h : exn -> M A) w :
  (forall e w0, exists a w1, h e w0 = (Ok a, w1)) ->
  exists a w', try_except m any_exception h w = (Ok a, w').
Proof.
  intros Hh. unfold try_except.
  destruct (m w) as [[a|e] w1]; simpl.
  - eauto.
  - apply Hh.
Qed.

Lemma process_single_order_ok kaspi writes_back order w :
  exists b w', process_single_order kaspi writes_back order w = (Ok b, w').
Proof.
  unfold process_single_order. apply try_except_any_ok.
  intros e w0. eexists. eexists. reflexivity.
Qed.

Lemma process_single_order_already_processed kaspi writes_back order w :
  order_exists (db w) (o_id order) = true ->
  process_single_order kaspi writes_back order w = (Ok false, w).
Proof.
  intros H. unfold process_single_order, try_except.
  unfold bind at 1. rewrite is_order_processed_run, H. reflexivity.
Qed.

Lemma process_orders_task_run kaspi writes_back order acc w :
  exists b w',
    process_single_order kaspi writes_back order w = (Ok b, w')
    /\ process_orders_task kaspi writes_back order acc w
       = (Ok (if b then (fst acc ++ [o_id order], snd acc)
              else (fst acc, snd acc ++ [o_id order])), w').
Proof.
  destruct (process_single_order_ok kaspi writes_back order w) as [b [w' E]].
  exists b, w'. split; [exact E|].
  unfold process_orders_task, try_except, bind. rewrite E.
  destruct b; reflexivity.
Qed.

(** The batch loop always returns; what it appends to the two lists is a
    rearrangement of the ids of the batch, and an order that was already
    recorded when the batch started ends among the failed ones. *)
Lemma process_orders_tasks_run kaspi writes_back orders acc w :
  exists succeeded failed w',
    process_orders_tasks kaspi writes_back orders acc w
    = (Ok (fst acc ++ succeeded, snd acc ++ failed), w')
    /\ Permutation (succeeded ++ failed) (map o_id orders)
    /\ (forall order, In order orders ->
                      order_exists (db w) (o_id order) = true ->
                      In (o_id order) failed).
Proof.
  revert acc w. induction orders as [|order rest IH]; intros acc w.
  - exists [], [], w. simpl. rewrite !app_nil_r. destruct acc.
    split; [reflexivity | split; [constructor | intros ? []]].
  - cbn [process_orders_tasks]. unfold bind at 1.
    destruct (process_orders_task_run kaspi writes_back order acc w)
      as [b [w1 [Eb Et]]].
    rewrite Et.
    assert (keeps_orders w w1) as Hkeep.
    { pose proof (preserves_process_single_order
                    (R := keeps_orders) (P := any_event) (fun _ _ => I)
                    kaspi writes_back order w) as H.
      rewrite Eb in H. exact H. }
    destruct b.
    + destruct (IH (fst acc ++ [o_id order], snd acc) w1)
        as [succeeded [failed [w' [E [Hperm Hrec]]]]].
      exists (o_id order :: succeeded), failed, w'. simpl in E.
      rewrite <- app_assoc in E. split; [exact E | split].
      * simpl. constructor. exact Hperm.
      * intros o [Ho | Ho] Hex.
        -- subst o.
           rewrite (process_single_order_already_processed _ _ _ _ Hex) in Eb.
           discriminate.
        -- apply Hrec; [exact Ho | apply Hkeep, Hex].
    + destruct (IH (fst acc, snd acc ++ [o_id order]) w1)
        as [succeeded [failed [w' [E [Hperm Hrec]]]]].
      exists succeeded, (o_id order :: failed), w'. simpl in E.
      rewrite <- app_assoc in E. split; [exact E | split].
      * simpl. apply Permutation_sym, Permutation_cons_app, Permutation_sym, Hperm.
      * intros o [Ho | Ho] Hex.
        -- subst o. left. reflexivity.
        -- right. apply Hrec; [exact Ho | apply Hkeep, Hex].
Qed.

Lemma get_kaspi_delivery_run kaspi w :
  get_kaspi_delivery kaspi w
  = (Ok (kaspi_delivery (kaspi (clock w))),
     mkWorld (db w) (S (clock w)) (trace w ++ [Api GetKaspiDelivery])).
Proof. reflexivity. Qed.

Lemma process_orders_run kaspi writes_back w :
  exists succeeded failed w',
    process_orders kaspi writes_back w
    = (Ok (mkOrdersResult (List.length succeeded) succeeded failed), w')
    /\ Permutation (succeeded ++ failed)
                   (map o_id (kaspi_delivery (kaspi (clock w))))
    /\ (forall order, In order (kaspi_delivery (kaspi (clock w))) ->
                      order_exists (db w) (o_id order) = true ->
                      In (o_id order) failed).
Proof.
  unfold process_orders. unfold bind at 1. rewrite get_kaspi_delivery_run.
  destruct (kaspi_delivery (kaspi (clock w))) as [|order rest] eqn:E.
  - exists [], [], (mkWorld (db w) (S (clock w)) (trace w ++ [Api GetKaspiDelivery])).
    simpl. split; [reflexivity | split; [constructor | intros ? []]].
  - cbn [nonempty negb]. unfold bind.
    destruct (process_orders_tasks_run kaspi writes_back (order :: rest) ([], [])
                (mkWorld (db w) (S (clock w)) (trace w ++ [Api GetKaspiDelivery])))
      as [succeeded [failed [w' [Et [Hperm Hrec]]]]].
    rewrite Et. exists succeeded, failed, w'. simpl.
    split; [reflexivity | split; [exact Hperm | exact Hrec]].
Qed.

(** C3, as stated, fails: [o1] is already recorded, [process_single_order]
    answers [False] for it and [process_orders] lists it among the failed
    ids. *)
Lemma already_processed_order_lands_in_failed :
  order_exists (db recorded_world) (o_id order_o1) = true
  /\ kaspi_delivery (quiet_feed (clock recorded_world)) = [order_o1]
  /\ fst (process_single_order quiet_feed true order_o1 recorded_world) = Ok false
  /\ fst (process_orders quiet_feed true recorded_world)
     = Ok (mkOrdersResult 0 [] [Some "o1"]).
Proof. vm_compute. repeat split. Qed.

(** C3, amended. When the order id is already recorded,
    [process_single_order] changes nothing at all (no stock mutation, no
    persistence, not even a call to the marketplace) and returns [False], the
    value it also returns on failure; [sem_task] therefore appends the id to
    [failed], and [process_orders] reports every such order of the batch among
    the failed ids. *)
Theorem already_processed_order_is_noop_reported_failed :
  forall (kaspi : nat -> Kaspi) (writes_back : bool) (order : Order) (w : World),
    order_exists (db w) (o_id order) = true ->
    process_single_order kaspi writes_back order w = (Ok false, w)
    /\ (forall acc,
           process_orders_task kaspi writes_back order acc w
           = (Ok (fst acc, snd acc ++ [o_id order]), w))
    /\ (In order (kaspi_delivery (kaspi (clock w))) ->
        exists r w',
          process_orders kaspi writes_back w = (Ok r, w')
          /\ In (o_id order) (or_failed r)).
Proof.
  intros kaspi writes_back order w Hex.
  pose proof (process_single_order_already_processed kaspi writes_back order w Hex)
    as E.
  split; [exact E | split].
  - intros acc. unfold process_orders_task, try_except, bind. rewrite E. reflexivity.
  - intros Hin.
    destruct (process_orders_run kaspi writes_back w)
      as [succeeded [failed [w' [Er [_ Hrec]]]]].
    eexists. exists w'. split; [exact Er|]. simpl. apply Hrec; assumption.
Qed.

Lemma already_processed_order_witness :
  process_single_order quiet_feed true order_o1 recorded_world
  = (Ok false, recorded_world)
  /\ (forall acc,
         process_orders_task quiet_feed true order_o1 acc recorded_world
         = (Ok (fst acc, snd acc ++ [o_id order_o1]), recorded_world))
  /\ (In order_o1 (kaspi_delivery (quiet_feed (clock recorded_world))) ->
      exists r w',
        process_orders quiet_feed true recorded_world = (Ok r, w')
        /\ In (o_id order_o1) (or_failed r)).
Proof.
  apply (already_processed_order_is_noop_reported_failed
           quiet_feed true order_o1 recorded_world).
  vm_compute. reflexivity.
Defined.

(** * The batch result (C9) *)

(** C9, as stated, fails: for the batch that lists [o1] twice, [o1] is in
    both lists. *)
Lemma repeated_order_id_is_in_both_lists :
  kaspi_delivery (twice_feed (clock shop_world)) = [order_o1; order_o1]
  /\ fst (process_orders twice_feed true shop_world)
     = Ok (mkOrdersResult 1 [Some "o1"] [Some "o1"]).
Proof. vm_compute. split; reflexivity. Qed.

(** C9, amended. [process_orders] always returns, and its two lists taken
    together are a rearrangement of the ids of the batch: every order of the
    batch contributes its id to exactly one of them and no other id appears.
    No id is in both lists provided that the ids of the batch are pairwise
    distinct. *)
Theorem process_orders_splits_the_batch :
  forall (kaspi : nat -> Kaspi) (writes_back : bool) (w : World),
    let batch := kaspi_delivery (kaspi (clock w)) in
    exists r w',
      process_orders kaspi writes_back w = (Ok r, w')
      /\ Permutation (or_success r ++ or_failed r) (map o_id batch)
      /\ (forall order, In order batch ->
                        In (o_id order) (or_success r) \/ In (o_id order) (or_failed r))
      /\ (forall order_id,
             In order_id (or_success r) \/ In order_id (or_failed r) ->
             In order_id (map o_id batch))
      /\ (NoDup (map o_id batch) ->
          forall order_id,
            In order_id (or_success r) -> In order_id (or_failed r) -> False).
Proof.
  intros kaspi writes_back w batch.
  destruct (process_orders_run kaspi writes_back w)
    as [succeeded [failed [w' [Er [Hperm _]]]]].
  eexists. exists w'. split; [exact Er|]. simpl. fold batch in Hperm.
  split; [exact Hperm | split; [|split]].
  - intros order Hin. apply in_app_or.
    apply (Permutation_in _ (Permutation_sym Hperm)). apply in_map, Hin.
  - intros order_id Hin. apply (Permutation_in _ Hperm). apply in_or_app, Hin.
  - intros Hnodup order_id Hs Hf.
    apply (Permutation_NoDup (Permutation_sym Hperm)) in Hnodup.
    clear Hperm Er. induction succeeded as [|x l IH]; [contradiction|].
    simpl in Hnodup. inversion Hnodup as [|? ? Hnotin Hrest]; subst.
    destruct Hs as [Hx | Hl].
    + subst x. apply Hnotin. apply in_or_app. right. exact Hf.
    + apply IH; assumption.
Qed.

Lemma process_orders_splits_the_batch_witness :
  exists r w',
    process_orders quiet_feed true shop_world = (Ok r, w')
    /\ Permutation (or_success r ++ or_failed r) [Some "o1"]
    /\ (forall order_id,
           In order_id (or_success r) -> In order_id (or_failed r) -> False).
Proof.
  destruct (process_orders_splits_the_batch quiet_feed true shop_world)
    as [r [w' [E [Hperm [_ [_ Hdisjoint]]]]]].
  exists r, w'. split; [exact E | split; [exact Hperm |]].
  apply Hdisjoint. simpl. constructor; [intros [] | constructor].
Defined.

(** * The cancellation pipeline (C10, C5, C6) *)

Lemma cancel_single_order_ok writes_back order w :
  exists w', cancel_single_order writes_back order w = (Ok tt, w').
Proof.
  unfold cancel_single_order.
  match goal with
  | |- exists w', try_except ?m _ ?h w = _ =>
      destruct (try_except_any_ok unit m h w) as [[] [w' E]]
  end.
  - intros e w0. eexists. eexists. reflexivity.
  - exists w'. exact E.
Qed.

Lemma cancel_single_order_skipped writes_back order w :
  skipped_on_cancel (db w) order ->
  db (snd (cancel_single_order writes_back order w)) = db w.
Proof.
  unfold skipped_on_cancel, cancel_single_order, try_except.
  destruct (o_id order) as [order_id|]; [|reflexivity].
  intros [H | [H | H]].
  - rewrite H. reflexivity.
  - destruct (truthy (Some order_id)); [|reflexivity]. cbn [negb].
    unfold bind at 1. rewrite is_order_processed_run, H. reflexivity.
  - destruct (truthy (Some order_id)); [|reflexivity]. cbn [negb].
    unfold bind at 1. rewrite is_order_processed_run.
    destruct (order_exists (db w) (Some order_id)); [|reflexivity]. cbn [negb].
    unfold bind at 1. rewrite is_order_canceled_run, H. reflexivity.
Qed.

Lemma cancel_task_run writes_back order canceled_ids w :
  exists w', cancel_task writes_back order canceled_ids w
             = (Ok (canceled_ids ++ carried_id order), w').
Proof.
  destruct (cancel_single_order_ok writes_back order w) as [w' E].
  exists w'. unfold cancel_task, bind. rewrite E. unfold carried_id.
  destruct (o_id order) as [order_id|].
  - destruct (truthy (Some order_id)); unfold ret; rewrite ?app_nil_r; reflexivity.
  - unfold ret. rewrite app_nil_r. reflexivity.
Qed.

Lemma cancel_tasks_run writes_back orders canceled_ids w :
  exists w', cancel_tasks writes_back orders canceled_ids w
             = (Ok (canceled_ids ++ carried_ids orders), w').
Proof.
  revert canceled_ids w. induction orders as [|order rest IH]; intros canceled_ids w.
  - exists w. simpl. rewrite app_nil_r. reflexivity.
  - cbn [cancel_tasks]. unfold bind at 1.
    destruct (cancel_task_run writes_back order canceled_ids w) as [w1 E1].
    rewrite E1. destruct (IH (canceled_ids ++ carried_id order) w1) as [w' E].
    exists w'. rewrite E. unfold carried_ids. simpl. rewrite app_assoc. reflexivity.
Qed.

Lemma cancel_orders_from_archive_run kaspi writes_back w :
  exists w', cancel_orders_from_archive kaspi writes_back w
             = (Ok (carried_ids (new_archive (kaspi (clock w)))), w').
Proof.
  unfold cancel_orders_from_archive, try_except. unfold bind at 1.
  change (get_new_archive kaspi w)
    with (Ok (new_archive (kaspi (clock w))),
          mkWorld (db w) (S (clock w)) (trace w ++ [Api GetNewArchive])).
  destruct (new_archive (kaspi (clock w))) as [|order rest].
  - eexists. reflexivity.
  - cbn [nonempty negb].
    destruct (cancel_tasks_run writes_back (order :: rest) []
                (mkWorld (db w) (S (clock w)) (trace w ++ [Api GetNewArchive])))
      as [w' E].
    rewrite E. exists w'. reflexivity.
Qed.

Lemma in_carried_ids order order_id orders :
  In order orders -> o_id order = Some order_id -> order_id <> "" ->
  In order_id (carried_ids orders).
Proof.
  intros Hin Hid Hne. unfold carried_ids. apply in_flat_map. exists order.
  split; [exact Hin|]. unfold carried_id. rewrite Hid.
  destruct order_id; [contradiction | left; reflexivity].
Qed.

(** C10. [cancel_orders_from_archive] returns, in batch order, the id of
    every fetched archived order that carries one, whatever the database
    holds; in particular the id of an order that [cancel_single_order] merely
    skipped, leaving the database untouched, is among the returned ids. *)
Theorem archive_pass_returns_every_fetched_id :
  forall (kaspi : nat -> Kaspi) (writes_back : bool) (w : World),
    fst (cancel_orders_from_archive kaspi writes_back w)
    = Ok (carried_ids (new_archive (kaspi (clock w))))
    /\ (forall order order_id,
           In order (new_archive (kaspi (clock w))) ->
           o_id order = Some order_id -> order_id <> "" ->
           In order_id (carried_ids (new_archive (kaspi (clock w)))))
    /\ (forall order w0,
           skipped_on_cancel (db w0) order ->
           db (snd (cancel_single_order writes_back order w0)) = db w0).
Proof.
  intros kaspi writes_back w. split; [|split].
  - destruct (cancel_orders_from_archive_run kaspi writes_back w) as [w' E].
    rewrite E. reflexivity.
  - intros order order_id. apply in_carried_ids.
  - intros order w0. apply cancel_single_order_skipped.
Qed.

Lemma archive_pass_witness :
  fst (cancel_orders_from_archive archive_feed true recorded_world)
  = Ok ["o9"; "o1"]
  /\ In "o9" (carried_ids (new_archive (archive_feed (clock recorded_world))))
  /\ db (snd (cancel_single_order true order_o9 recorded_world)) = db recorded_world.
Proof.
  destruct (archive_pass_returns_every_fetched_id archive_feed true recorded_world)
    as [H1 [H2 H3]].
  split; [exact H1 | split].
  - apply (H2 order_o9 "o9"); [left; reflexivity | reflexivity | discriminate].
  - apply H3. right. left. vm_compute. reflexivity.
Defined.

#[export] Instance same_orders_preorder : PreOrder same_orders.
Proof.
  split.
  - intros w. split; reflexivity.
  - intros w1 w2 w3 [H1 H2] [H3 H4]. split; congruence.
Qed.

#[export] Instance same_orders_ambient : Ambient any_event same_orders.
Proof. split; [exact _ | intros w c t _; split; reflexivity]. Qed.

#[export] Instance same_orders_reversal : Reversal any_event same_orders.
Proof.
  split; [exact _ |]. intros f Hf w. destruct Hf; split; reflexivity.
Qed.

Lemma order_canceled_same_orders w w' order_id :
  same_orders w w' -> order_canceled (db w') order_id = order_canceled (db w) order_id.
Proof.
  intros [H _]. unfold order_canceled, order_rows. rewrite H. reflexivity.
Qed.

Lemma order_canceled_after_mark d order_id :
  order_exists d (Some order_id) = true ->
  order_canceled (update_orders order_id set_canceled d) order_id = true.
Proof.
  unfold order_exists, order_canceled, order_rows, update_orders. simpl.
  induction (kaspi_orders d) as [|ko l IH]; simpl; [discriminate|].
  destruct (ko_order_id ko =? order_id)%string eqn:E; simpl.
  - intros _. rewrite E. reflexivity.
  - intros H. rewrite E. apply IH, H.
Qed.

Lemma cancel_single_order_db writes_back order w :
  db (snd (cancel_single_order writes_back order w))
  = db_after_cancel writes_back order w.
Proof.
  unfold db_after_cancel, cancel_single_order, try_except.
  destruct (o_id order) as [order_id|]; [|reflexivity].
  destruct (truthy (Some order_id)); [|reflexivity]. cbn [negb andb].
  unfold bind at 1. rewrite is_order_processed_run.
  destruct (order_exists (db w) (Some order_id)); [|reflexivity]. cbn [negb andb].
  unfold bind at 1. rewrite is_order_canceled_run.
  destruct (order_canceled (db w) order_id); [reflexivity|]. cbn [negb andb].
  unfold bind at 1. rewrite get_order_products_run.
  destruct (nonempty (order_products (db w) order_id)); [|reflexivity]. cbn [negb].
  unfold bind at 1.
  destruct (cancel_products writes_back (order_products (db w) order_id) order_id w)
    as [[[]|e] w']; reflexivity.
Qed.

Lemma cancel_single_order_twice writes_back order w :
  reversal_completes writes_back order w ->
  db (snd (cancel_single_order writes_back order
                               (snd (cancel_single_order writes_back order w))))
  = db (snd (cancel_single_order writes_back order w)).
Proof.
  intros Hc.
  set (w1 := snd (cancel_single_order writes_back order w)).
  assert (db w1 = db_after_cancel writes_back order w) as E1
      by apply cancel_single_order_db.
  rewrite cancel_single_order_db.
  unfold db_after_cancel in *.
  destruct (o_id order) as [order_id|] eqn:Eid; [|reflexivity].
  destruct (truthy (Some order_id)) eqn:Et; [|reflexivity].
  destruct (order_exists (db w) (Some order_id)) eqn:Ex;
    [|cbn [andb] in E1; rewrite E1, Ex; reflexivity].
  destruct (order_canceled (db w) order_id) eqn:Ec;
    [cbn [andb negb] in E1; rewrite E1, Ex, Ec; reflexivity|].
  destruct (nonempty (order_products (db w) order_id)) eqn:Ep;
    [|cbn [andb negb] in E1; rewrite E1, Ex, Ec, Ep; reflexivity].
  cbn [andb negb] in E1.
  destruct (Hc order_id Eid) as [w' Ew']. rewrite Ew' in E1.
  assert (order_exists (db w') (Some order_id) = true) as Ex'.
  { pose proof (preserves_cancel_products
                  (R := keeps_orders) (P := any_event) (fun _ _ => I)
                  writes_back (order_products (db w) order_id) order_id w) as H.
    rewrite Ew' in H. apply H, Ex. }
  assert (order_canceled (db w1) order_id = true) as Ec1.
  { rewrite E1. apply order_canceled_after_mark, Ex'. }
  rewrite Ec1. cbn [negb andb]. rewrite andb_false_r. reflexivity.
Qed.

Lemma cancel_single_order_marks_after_reversal writes_back order order_id w :
  o_id order = Some order_id ->
  order_canceled (db w) order_id = false ->
  order_canceled (db (snd (cancel_single_order writes_back order w))) order_id = true ->
  exists w',
    cancel_products writes_back (order_products (db w) order_id) order_id w
    = (Ok tt, w')
    /\ db (snd (cancel_single_order writes_back order w))
       = update_orders order_id set_canceled (db w').
Proof.
  intros Eid Ec. rewrite cancel_single_order_db. unfold db_after_cancel. rewrite Eid.
  destruct (truthy (Some order_id) && order_exists (db w) (Some order_id)
            && negb (order_canceled (db w) order_id)
            && nonempty (order_products (db w) order_id)).
  - pose proof (preserves_cancel_products
                  (R := same_orders) (P := any_event) (fun _ _ => I)
                  writes_back (order_products (db w) order_id) order_id w) as H.
    destruct (cancel_products writes_back (order_products (db w) order_id) order_id w)
      as [[[]|e] w']; simpl in H.
    + intros _. exists w'. split; reflexivity.
    + rewrite (order_canceled_same_orders _ _ _ H), Ec. discriminate.
  - rewrite Ec. discriminate.
Qed.

Lemma bind_ok A B (m : M A) (f : A -> M B) w a w' :
  m w = (Ok a, w') -> bind m f w = f a w'.
Proof. intros E. unfold bind. rewrite E. reflexivity. Qed.

Lemma read_db_run A (q : DB -> A) w : read_db q w = (Ok (q (db w)), w).
Proof. reflexivity. Qed.

Lemma save_canceled_order_run order_id product_code w :
  save_canceled_order order_id product_code w
  = (Ok (mkKaspiCanceledOrder order_id (order_code_of (db w) order_id) product_code),
     w).
Proof. reflexivity. Qed.

Lemma get_product_id_run product_code w :
  let found := hd_error (map p_id (active_products_by_sku (db w) product_code)) in
  exists w',
    get_product_id product_code w
    = (Ok (if is_falsy_id found then None else found), w')
    /\ db w' = db w.
Proof.
  intros found. unfold get_product_id. simpl. run_monad. fold found.
  destruct (is_falsy_id found); eexists; split; reflexivity.
Qed.

(** Which quantity the reversal of a line item writes, and where: at the
    stock name that the product code alone resolves to.  The order being
    canceled only decides whether the step runs at all. *)
Lemma process_product_cancellation_stock writes_back product_code quantity order_id w :
  let stock_name := stock_name_for_product (db w) product_code in
  let found := hd_error (map p_id (active_products_by_sku (db w) product_code)) in
  stock_inventory
    (db (snd (process_product_cancellation writes_back product_code quantity
                                           order_id w)))
  = if is_falsy_id found || order_canceled (db w) order_id
    then stock_inventory (db w)
    else stock_inventory
           (stock_after_update writes_back (db w) product_code
                               (stock_quantity_of (db w) product_code stock_name
                                + quantity)
                               stock_name).
Proof.
  intros stock_name found.
  unfold process_product_cancellation, try_except.
  rewrite (bind_ok _ _ _ _ _ _ _ (save_canceled_order_run order_id product_code w)).
  rewrite (bind_ok _ _ _ _ _ _ _
             (read_db_run _ (fun d => stock_name_for_product d product_code) w)).
  fold stock_name.
  destruct (get_product_id_run product_code w) as [w1 [E1 Hdb1]].
  fold found in E1. rewrite (bind_ok _ _ _ _ _ _ _ E1).
  assert (is_falsy_id (if is_falsy_id found then None else found)
          = is_falsy_id found) as ->
      by (destruct (is_falsy_id found) eqn:E; [reflexivity | exact E]).
  destruct (is_falsy_id found); cbn [orb].
  { simpl. rewrite Hdb1. reflexivity. }
  rewrite (bind_ok _ _ _ _ _ _ _ (is_order_canceled_run order_id w1)).
  rewrite Hdb1.
  destruct (order_canceled (db w) order_id).
  { simpl. rewrite Hdb1. reflexivity. }
  rewrite (bind_ok _ _ _ _ _ _ _
             (get_stock_quantity_run product_code stock_name true w1)).
  rewrite Hdb1. unfold bind at 1.
  pose proof (update_stock_quantity_and_log_db writes_back product_code
                (stock_quantity_of (db w) product_code stock_name + quantity)
                quantity "return" stock_name w1) as Hup.
  rewrite Hdb1 in Hup.
  destruct (update_stock_quantity_and_log writes_back product_code
              (stock_quantity_of (db w) product_code stock_name + quantity)
              quantity "return" stock_name w1) as [[[]|e] w2]; simpl in Hup.
  - simpl. rewrite Hup. reflexivity.
  - destruct (is_SQLAlchemyError e); simpl; rewrite Hup; reflexivity.
Qed.

(** The same line item, reversed for two different orders that are both
    not yet canceled, moves the same stock. *)
Lemma process_product_cancellation_ignores_the_order writes_back product_code
      quantity order_a order_b w :
  order_canceled (db w) order_a = order_canceled (db w) order_b ->
  stock_inventory
    (db (snd (process_product_cancellation writes_back product_code quantity
                                           order_a w)))
  = stock_inventory
      (db (snd (process_product_cancellation writes_back product_code quantity
                                             order_b w))).
Proof.
  intros H. rewrite !process_product_cancellation_stock, H. reflexivity.
Qed.

Lemma process_product_cancellation_ok_db writes_back product_code quantity
      product_name order_id w w' :
  process_product_cancellation writes_back product_code quantity order_id w
  = (Ok tt, w') ->
  db w' = reversal_of writes_back order_id (db w) (product_code, quantity, product_name).
Proof.
  unfold process_product_cancellation, try_except, reversal_of.
  rewrite (bind_ok _ _ _ _ _ _ _ (save_canceled_order_run order_id product_code w)).
  rewrite (bind_ok _ _ _ _ _ _ _
             (read_db_run _ (fun d => stock_name_for_product d product_code) w)).
  set (stock_name := stock_name_for_product (db w) product_code).
  set (found := hd_error (map p_id (active_products_by_sku (db w) product_code))).
  destruct (get_product_id_run product_code w) as [w1 [E1 Hdb1]].
  fold found in E1. rewrite (bind_ok _ _ _ _ _ _ _ E1).
  assert (is_falsy_id (if is_falsy_id found then None else found)
          = is_falsy_id found) as ->
      by (destruct (is_falsy_id found) eqn:E; [reflexivity | exact E]).
  destruct (is_falsy_id found); cbn [orb].
  { unfold logger, emit. intros [= <-]. exact Hdb1. }
  rewrite (bind_ok _ _ _ _ _ _ _ (is_order_canceled_run order_id w1)).
  rewrite Hdb1.
  destruct (order_canceled (db w) order_id).
  { unfold ret. intros [= <-]. exact Hdb1. }
  rewrite (bind_ok _ _ _ _ _ _ _
             (get_stock_quantity_run product_code stock_name true w1)).
  rewrite Hdb1. unfold bind at 1.
  pose proof (update_stock_quantity_and_log_db writes_back product_code
                (stock_quantity_of (db w) product_code stock_name + quantity)
                quantity "return" stock_name w1) as Hup.
  rewrite Hdb1 in Hup.
  destruct (update_stock_quantity_and_log writes_back product_code
              (stock_quantity_of (db w) product_code stock_name + quantity)
              quantity "return" stock_name w1) as [[[]|e] w2]; cbn [snd] in Hup.
  - unfold write_db. intros [= <-]. cbn [db]. rewrite Hup. reflexivity.
  - destruct (is_SQLAlchemyError e); [|discriminate].
    unfold bind, logger, emit, raise. discriminate.
Qed.

Lemma cancel_products_ok_db writes_back products order_id w w' :
  cancel_products writes_back products order_id w = (Ok tt, w') ->
  db w' = fold_left (reversal_of writes_back order_id) products (db w).
Proof.
  revert w. induction products as [|[[product_code quantity] product_name] rest IH];
    intros w; cbn [cancel_products fold_left].
  - unfold ret. intros [= <-]. reflexivity.
  - unfold bind at 1.
    destruct (process_product_cancellation writes_back product_code quantity
                                           order_id w) as [[[]|e] w1] eqn:E1;
      [|discriminate].
    intros E. rewrite (IH w1 E).
    rewrite (process_product_cancellation_ok_db _ _ _ product_name _ _ _ E1).
    reflexivity.
Qed.


(** Why the amended claim asks that the reversal is not interrupted: here the
    reversal of the second line item raises, the order stays unmarked, and
    the next call reverses the first line item again.  The cancellation
    record of [P1] is written twice, and [P1] is restored twice where the
    storage writes assignments back. *)
Lemma interrupted_cancellation_is_repeated :
  Forall
    (fun writes_back =>
       let w1 := snd (cancel_single_order writes_back order_o1 duplicated_world) in
       let w2 := snd (cancel_single_order writes_back order_o1 w1) in
       order_canceled (db w1) "o1" = false
       /\ kaspi_canceled_orders (db w1) = [mkKaspiCanceledOrder "o1" "c1" "P1"]
       /\ kaspi_canceled_orders (db w2)
          = [mkKaspiCanceledOrder "o1" "c1" "P1"; mkKaspiCanceledOrder "o1" "c1" "P1"]
       /\ stock_quantity_of (db w2) "P1" (Some "PP5")
          = (if writes_back then 13 else 7))
    [true; false].
Proof. repeat constructor. Qed.



(** C6 fails on this input: order [oB] was sold from [PP2], but the stock
    name that [process_product_cancellation] resolves for its line item is
    [PP1], the location of order [oA], which sold the same product.  The
    update of the reversal is issued for [PP1]; the location of [oB] itself
    is not addressed, whether or not the storage writes assignments back. *)
Theorem cancellation_resolves_another_orders_location :
  let w1 := snd (cancel_single_order false order_oB two_location_world) in
  header_stock_name two_location_db "oB" = Some "PP2"
  /\ order_products two_location_db "oB" = [("P1", 2, "thing")]
  /\ stock_name_rows two_location_db "P1" = ["PP1"; "PP2"]
  /\ stock_name_for_product two_location_db "P1" = Some "PP1"
  /\ db w1
     = update_orders "oB" set_canceled
                     (reversal_of false "oB" two_location_db ("P1", 2, "thing"))
  /\ order_canceled (db w1) "oB" = true
  /\ kaspi_canceled_orders (db w1) = [mkKaspiCanceledOrder "oB" "cB" "P1"]
  /\ Forall
       (fun writes_back =>
          stock_quantity_of
            (db (snd (cancel_single_order writes_back order_oB two_location_world)))
            "P1" (Some "PP2")
          = stock_quantity_of two_location_db "P1" (Some "PP2"))
       [true; false].
Proof. repeat split; repeat constructor. Qed.

(** * Invoices and waybills (C4) *)

Lemma invoice_generated_after_update d order_id :
  order_exists d (Some order_id) = true ->
  invoice_generated (update_orders order_id set_invoice_generated d) order_id = true.
Proof.
  unfold order_exists, invoice_generated, order_rows, update_orders. simpl.
  induction (kaspi_orders d) as [|ko l IH]; simpl; [discriminate|].
  destruct (ko_order_id ko =? order_id)%string eqn:E; simpl.
  - intros _. rewrite E. reflexivity.
  - intros H. rewrite E. apply IH, H.
Qed.

(** For a recorded order, the statements that [save_waybill_links] commits
    set [invoice_generated] themselves, whatever it was before and whatever
    the invoicing call answered. *)
Lemma write_waybill_sets_invoice_generated order_id waybill w :
  order_exists (db w) (Some order_id) = true ->
  invoice_generated (db (snd (write_waybill (Some order_id) waybill w))) order_id
  = true.
Proof.
  intros H. unfold write_waybill. run_monad.
  apply invoice_generated_after_update. exact H.
Qed.

(** C4 fails on these inputs.  After [o1] is fulfilled the flag is unset,
    whether the invoicing call succeeded ([recorded_world]) or failed
    ([uninvoiced_world]).  In either world [save_waybill_links] then meets a
    waybill for [o1]: it persists the waybill while the flag is unset, and
    sets the flag itself, also when no invoicing call has succeeded. *)
Theorem waybill_pass_sets_invoice_generated_itself :
  let w1 := snd (save_waybill_links waybill_feed uninvoiced_world) in
  let w2 := snd (save_waybill_links waybill_feed recorded_world) in
  fst (process_single_order quiet_feed true order_o1 shop_world) = Ok true
  /\ invoice_generated (db recorded_world) "o1" = false
  /\ waybills_of (db w2) "o1" = [Some "WB-1"]
  /\ invoice_generated (db w2) "o1" = true
  /\ fst (process_single_order refusing_feed true order_o1 shop_world) = Ok false
  /\ invoice_generated (db uninvoiced_world) "o1" = false
  /\ waybills_of (db uninvoiced_world) "o1" = [None]
  /\ fst (save_waybill_links waybill_feed uninvoiced_world) = Ok [Some "o1"]
  /\ waybills_of (db w1) "o1" = [Some "WB-1"]
  /\ invoice_generated (db w1) "o1" = true
  /\ trace w1 = [Api (GetOrderEntries (Some "o1")); Api (CreateInvoice (Some "o1"));
                 Log ERROR (TextFor "create_invoice returned False" (Some "o1"));
                 Api GetKaspiDelivery].
Proof. repeat split. Qed.

(** * The orchestration loop (C7, C8) *)

Lemma ok_and_extends A (m : M A) w :
  (exists a w', m w = (Ok a, w')) ->
  preserves (extends_with inner) m ->
  exists a w' t, m w = (Ok a, w') /\ trace w' = trace w ++ t /\ Forall inner t.
Proof.
  intros [a [w' E]] Hm. specialize (Hm w). rewrite E in Hm.
  destruct Hm as [t [Ht Hf]]. exists a, w', t. auto.
Qed.

Lemma inner_is_inner : forall ev, inner ev -> inner ev.
Proof. auto. Qed.

Lemma process_orders_trace kaspi writes_back w :
  exists r w' t,
    process_orders kaspi writes_back w = (Ok r, w')
    /\ trace w' = trace w ++ Api GetKaspiDelivery :: t
    /\ Forall inner t.
Proof.
  destruct (process_orders_run kaspi writes_back w)
    as [succeeded [failed [w' [E _]]]].
  eexists. exists w'.
  assert (extends_with inner
            (mkWorld (db w) (S (clock w)) (trace w ++ [Api GetKaspiDelivery])) w')
    as [t [Ht Hf]].
  { unfold process_orders in E. unfold bind at 1 in E.
    rewrite get_kaspi_delivery_run in E.
    match type of E with
    | ?k ?w0 = _ =>
        assert (preserves (extends_with inner) k) as Hk
            by (pose proof inner_is_inner; preserve);
        specialize (Hk w0); rewrite E in Hk; exact Hk
    end. }
  exists t. split; [exact E | split; [|exact Hf]].
  rewrite Ht. simpl. rewrite <- app_assoc. reflexivity.
Qed.

Lemma cancel_orders_from_archive_trace kaspi writes_back w :
  exists canceled_ids w' t,
    cancel_orders_from_archive kaspi writes_back w = (Ok canceled_ids, w')
    /\ trace w' = trace w ++ Api GetNewArchive :: t
    /\ Forall inner t.
Proof.
  destruct (cancel_orders_from_archive_run kaspi writes_back w) as [w' E].
  eexists. exists w'.
  assert (extends_with inner
            (mkWorld (db w) (S (clock w)) (trace w ++ [Api GetNewArchive])) w')
    as [t [Ht Hf]].
  { unfold cancel_orders_from_archive, try_except in E. unfold bind at 1 in E.
    change (get_new_archive kaspi w)
      with (Ok (new_archive (kaspi (clock w))),
            mkWorld (db w) (S (clock w)) (trace w ++ [Api GetNewArchive])) in E.
    cbv beta iota in E.
    match type of E with
    | match ?k ?w0 with _ => _ end = _ =>
        assert (preserves (extends_with inner) k) as Hk
            by (pose proof inner_is_inner; preserve);
        specialize (Hk w0); destruct (k w0) as [[a|e] w1]; simpl in Hk
    end.
    - injection E as _ <-. exact Hk.
    - simpl in E. injection E as _ <-.
      destruct Hk as [t [Ht Hf]].
      exists (t ++ [Log ERROR (Text "Error in cancel_orders_from_archive");
                    Log ERROR (Text "Error details")]).
      split.
      * simpl. rewrite Ht. simpl. rewrite <- !app_assoc. reflexivity.
      * apply Forall_app. split; [exact Hf | repeat constructor]. }
  exists t. split; [exact E | split; [|exact Hf]].
  rewrite Ht. simpl. rewrite <- app_assoc. reflexivity.
Qed.

Lemma logger_run lvl msg w :
  logger lvl msg w = (Ok tt, mkWorld (db w) (clock w) (trace w ++ [Log lvl msg])).
Proof. reflexivity. Qed.

Lemma sleep_run seconds w :
  sleep seconds w
  = (Ok tt, mkWorld (db w) (S (clock w)) (trace w ++ [Sleep seconds])).
Proof. reflexivity. Qed.

Lemma fulfillment_attempts_run kaspi writes_back new_order_ids remaining attempt w :
  exists t exit w',
    fulfillment_attempts kaspi writes_back new_order_ids remaining attempt w
    = (Ok exit, w')
    /\ trace w' = trace w ++ t
    /\ fulfillment_trace new_order_ids t exit
    /\ (remaining <> O -> hd_error t = Some (Api GetKaspiDelivery)).
Proof.
  revert attempt w. induction remaining as [|k IH]; intros attempt w;
    cbn [fulfillment_attempts].
  - exists [exhausted_line], Exhausted. eexists.
    split; [reflexivity | split; [reflexivity | split; [constructor|]]].
    intros H. contradiction.
  - unfold bind at 1.
    destruct (process_orders_trace kaspi writes_back w)
      as [r [w1 [t1 [E1 [Ht1 Hf1]]]]].
    rewrite E1. unfold bind at 1. rewrite logger_run.
    destruct (nonempty (or_success r)) eqn:Es.
    + exists ((Api GetKaspiDelivery :: t1)
                ++ [Log INFO (ProcessOrdersAttempt attempt r)]), Break.
      eexists. split; [reflexivity | split].
      * cbn [trace]. rewrite Ht1. rewrite <- app_assoc. reflexivity.
      * split; [apply ft_break; assumption | reflexivity].
    + unfold bind at 1.
      match goal with
      | |- context [cancel_orders_from_archive kaspi writes_back ?w0] =>
          destruct (cancel_orders_from_archive_trace kaspi writes_back w0)
            as [canceled_ids [w2 [t2 [E2 [Ht2 Hf2]]]]]
      end.
      rewrite E2. unfold bind at 1. rewrite logger_run.
      cbn [trace] in Ht2. rewrite Ht1 in Ht2.
      destruct (any_in canceled_ids new_order_ids) eqn:Ea.
      * exists ((Api GetKaspiDelivery :: t1)
                  ++ Log INFO (ProcessOrdersAttempt attempt r)
                  :: (Api GetNewArchive :: t2)
                  ++ [Log INFO (CancelArchiveAttempt attempt canceled_ids);
                      canceled_line]), Return.
        eexists. split; [reflexivity | split].
        -- cbn [trace]. rewrite Ht2.
           repeat (rewrite <- app_assoc; cbn [app]). reflexivity.
        -- split; [apply ft_return; assumption | reflexivity].
      * unfold bind at 1. rewrite sleep_run.
        match goal with
        | |- context [fulfillment_attempts kaspi writes_back new_order_ids k
                                           (S attempt) ?w0] =>
            destruct (IH (S attempt) w0) as [rest [exit [w' [E [Ht [Hft _]]]]]]
        end.
        rewrite E.
        exists ((Api GetKaspiDelivery :: t1)
                  ++ Log INFO (ProcessOrdersAttempt attempt r)
                  :: (Api GetNewArchive :: t2)
                  ++ Log INFO (CancelArchiveAttempt attempt canceled_ids)
                  :: Sleep SLEEP_SECONDS :: rest), exit, w'.
        split; [reflexivity | split].
        -- rewrite Ht. cbn [trace]. rewrite Ht2.
           repeat (rewrite <- app_assoc; cbn [app]). reflexivity.
        -- split; [apply ft_again; assumption | reflexivity].
Qed.

Lemma save_waybill_links_ok kaspi w :
  exists ids w', save_waybill_links kaspi w = (Ok ids, w').
Proof.
  unfold save_waybill_links. apply try_except_any_ok.
  intros e w0. eexists. eexists. reflexivity.
Qed.

Lemma waybill_attempts_ok kaspi writes_back new_order_ids remaining attempt w :
  exists exit w',
    waybill_attempts kaspi writes_back new_order_ids remaining attempt w
    = (Ok exit, w').
Proof.
  revert attempt w. induction remaining as [|k IH]; intros attempt w;
    cbn [waybill_attempts].
  - eexists. eexists. reflexivity.
  - unfold bind at 1.
    destruct (save_waybill_links_ok kaspi w) as [ids [w1 E1]]. rewrite E1.
    unfold bind at 1. rewrite logger_run.
    destruct (nonempty ids && any_in_opt ids new_order_ids).
    + eexists. eexists. reflexivity.
    + unfold bind at 1.
      match goal with
      | |- context [cancel_orders_from_archive kaspi writes_back ?w0] =>
          destruct (cancel_orders_from_archive_run kaspi writes_back w0) as [w2 E2]
      end.
      rewrite E2. unfold bind at 1. rewrite logger_run.
      destruct (any_in _ new_order_ids).
      * eexists. eexists. reflexivity.
      * unfold bind at 1. rewrite sleep_run. apply IH.
Qed.

Lemma waybill_attempts_trace kaspi writes_back new_order_ids remaining attempt w :
  exists exit w' t,
    waybill_attempts kaspi writes_back new_order_ids remaining attempt w
    = (Ok exit, w')
    /\ trace w' = trace w ++ t
    /\ Forall waybill_event t.
Proof.
  destruct (waybill_attempts_ok kaspi writes_back new_order_ids remaining attempt w)
    as [exit [w' E]].
  pose proof (preserves_waybill_attempts
                (R := extends_with waybill_event) (P := waybill_event)
                (fun _ H => H) kaspi writes_back new_order_ids remaining attempt w)
    as H.
  rewrite E in H. destruct H as [t [Ht Hf]]. exists exit, w', t. auto.
Qed.

Lemma after_acceptance_run kaspi writes_back r w :
  exists t w',
    after_acceptance kaspi writes_back r w = (Ok tt, w')
    /\ trace w' = trace w ++ t
    /\ after_acceptance_trace r t.
Proof.
  unfold after_acceptance.
  destruct (nonempty (nr_failed r)) eqn:Ef.
  - eexists. eexists. split; [reflexivity | split; [reflexivity|]].
    apply at_failed, Ef.
  - destruct (nonempty (nr_success r)) eqn:Es.
    + unfold bind at 1.
      destruct (fulfillment_attempts_run kaspi writes_back (nr_success r)
                  MAX_ATTEMPTS 1 w) as [tf [exit [w1 [E1 [Ht1 [Hft Hhd]]]]]].
      rewrite E1. specialize (Hhd ltac:(discriminate)).
      destruct exit.
      * destruct (waybill_attempts_trace kaspi writes_back (nr_success r)
                    MAX_ATTEMPTS 1 w1) as [exit2 [w2 [tw [E2 [Ht2 Hfw]]]]].
        unfold bind. rewrite E2. exists (tf ++ tw), w2.
        split; [reflexivity | split].
        -- rewrite Ht2, Ht1, app_assoc. reflexivity.
        -- apply (at_waybill r tf Break tw); try assumption. discriminate.
      * exists tf, w1. split; [reflexivity | split; [exact Ht1|]].
        apply at_aborted; assumption.
      * destruct (waybill_attempts_trace kaspi writes_back (nr_success r)
                    MAX_ATTEMPTS 1 w1) as [exit2 [w2 [tw [E2 [Ht2 Hfw]]]]].
        unfold bind. rewrite E2. exists (tf ++ tw), w2.
        split; [reflexivity | split].
        -- rewrite Ht2, Ht1, app_assoc. reflexivity.
        -- apply (at_waybill r tf Exhausted tw); try assumption. discriminate.
    + eexists. eexists. split; [reflexivity | split; [reflexivity|]].
      apply at_idle; assumption.
Qed.

Lemma cancel_orders_from_returned_archive_ok kaspi writes_back w :
  exists ids w', cancel_orders_from_returned_archive kaspi writes_back w
                 = (Ok ids, w').
Proof.
  unfold cancel_orders_from_returned_archive. apply try_except_any_ok.
  intros e w0. eexists. eexists. reflexivity.
Qed.

Lemma process_new_orders_ok kaspi w :
  exists r w', process_new_orders kaspi w = (Ok r, w').
Proof.
  unfold process_new_orders. apply try_except_any_ok.
  intros e w0. eexists. eexists. reflexivity.
Qed.

Lemma main_run kaspi writes_back w :
  exists t w',
    main kaspi writes_back w = (Ok tt, w')
    /\ trace w' = trace w ++ t
    /\ main_trace t.
Proof.
  unfold main. unfold bind at 1. rewrite logger_run.
  set (w0 := mkWorld (db w) (clock w) (trace w ++ [Log INFO (Text "Script started")])).
  unfold try_finally, try_except at 1.
  unfold bind at 1.
  destruct (ok_and_extends unit
              (try_except
                 (cancel_orders_from_returned_archive kaspi writes_back ;;
                  cancel_orders_from_archive kaspi writes_back ;;
                  ret tt)
                 any_exception
                 (fun _ => logger ERROR (Text "Error in cancel_orders_from_archive")))
              w0) as [[] [w1 [ta [E1 [Ht1 Hf1]]]]].
  { apply try_except_any_ok. intros e w2. eexists. eexists. reflexivity. }
  { pose proof inner_is_inner. preserve. }
  rewrite E1. unfold bind at 1.
  destruct (ok_and_extends NewOrdersResult (process_new_orders kaspi) w1
              (process_new_orders_ok kaspi w1))
    as [r [w2 [tb [E2 [Ht2 Hf2]]]]].
  { pose proof inner_is_inner. preserve. }
  rewrite E2. unfold bind at 1. rewrite logger_run.
  match goal with
  | |- context [after_acceptance kaspi writes_back r ?w3] =>
      destruct (after_acceptance_run kaspi writes_back r w3)
        as [t2 [w4 [E4 [Ht4 Hat]]]]
  end.
  rewrite E4. rewrite logger_run.
  exists ((started_line :: ta ++ tb)
            ++ Log INFO (NewOrdersLine r) :: t2 ++ [finished_line]).
  eexists. split; [reflexivity | split].
  - cbn [trace]. rewrite Ht4. cbn [trace]. rewrite Ht2, Ht1. unfold w0. cbn [trace].
    unfold started_line, finished_line.
    repeat (rewrite <- app_assoc; cbn [app]). reflexivity.
  - apply mt_run; [apply Forall_app; split; assumption | exact Hat].
Qed.

(** ** Where an event can sit in a concatenation *)

Lemma elt_split (l1 l2 pre post : list Event) y :
  l1 ++ l2 = pre ++ y :: post ->
  (exists k, l1 = pre ++ y :: k /\ post = k ++ l2)
  \/ (exists k, pre = l1 ++ k /\ l2 = k ++ y :: post).
Proof.
  revert pre. induction l1 as [|x l1 IH]; intros pre E.
  - right. exists pre. split; [reflexivity | exact E].
  - destruct pre as [|p pre]; simpl in E; injection E as -> E.
    + left. exists l1. split; [reflexivity | symmetry; exact E].
    + destruct (IH pre E) as [[k [-> ->]] | [k [-> ->]]].
      * left. exists k. split; reflexivity.
      * right. exists k. split; reflexivity.
Qed.

Lemma cons_split (x : Event) l pre post y :
  x :: l = pre ++ y :: post ->
  (pre = [] /\ x = y /\ l = post)
  \/ (exists k, pre = x :: k /\ l = k ++ y :: post).
Proof.
  destruct pre as [|p pre]; simpl; intros E; injection E as -> E.
  - left. auto.
  - right. exists pre. auto.
Qed.

Lemma Forall_elt_holds (Q : Event -> Prop) l pre post y :
  Forall Q l -> l = pre ++ y :: post -> Q y.
Proof.
  intros H ->. apply Forall_app in H. destruct H as [_ H].
  inversion H. assumption.
Qed.

Lemma Forall_inner_elt l pre post y :
  Forall inner l -> l = pre ++ y :: post -> inner y.
Proof. apply Forall_elt_holds. Qed.

Lemma inner_api_cons call t : Forall inner t -> Forall inner (Api call :: t).
Proof. intros H. constructor; [exact I | exact H]. Qed.

Lemma inner_not_abort_trigger ids ev : inner ev -> abort_trigger ids ev -> False.
Proof. destruct ev as [lvl [] | |]; simpl; try tauto; destruct lvl; tauto. Qed.

Lemma inner_not_unsuccessful_attempt ev : inner ev -> unsuccessful_attempt ev -> False.
Proof. destruct ev as [lvl [] | |]; simpl; try tauto; destruct lvl; tauto. Qed.

(** In the trace of the fulfillment loop, a line that reports the
    cancellation of an accepted order is followed by the warning alone, and the
    loop is left by [return]. *)
Lemma fulfillment_trace_abort ids t exit :
  fulfillment_trace ids t exit ->
  forall pre y post,
    t = pre ++ y :: post -> abort_trigger ids y ->
    post = [canceled_line] /\ exit = Return.
Proof.
  induction 1 as [| t1 attempt r Hf1 Hs
                  | t1 attempt r t2 c Hf1 Hs Hf2 Ha
                  | t1 attempt r t2 c rest exit Hf1 Hs Hf2 Ha Hrest IH];
    intros pre y post E Hy.
  - apply cons_split in E. destruct E as [[_ [<- _]] | [k [_ E]]].
    + destruct Hy.
    + destruct k; discriminate.
  - apply elt_split in E. destruct E as [[k [E _]] | [k [_ E]]].
    + exfalso. apply (inner_not_abort_trigger ids y); [|exact Hy].
      apply (Forall_inner_elt _ pre k y (inner_api_cons _ _ Hf1) E).
    + apply cons_split in E. destruct E as [[_ [<- _]] | [k' [_ E]]].
      * destruct Hy.
      * destruct k'; discriminate.
  - apply elt_split in E. destruct E as [[k [E _]] | [k [_ E]]].
    { exfalso. apply (inner_not_abort_trigger ids y); [|exact Hy].
      apply (Forall_inner_elt _ pre k y (inner_api_cons _ _ Hf1) E). }
    apply cons_split in E. destruct E as [[_ [<- _]] | [k' [_ E]]];
      [destruct Hy|].
    apply elt_split in E. destruct E as [[k2 [E _]] | [k2 [_ E]]].
    { exfalso. apply (inner_not_abort_trigger ids y); [|exact Hy].
      apply (Forall_inner_elt _ k' k2 y (inner_api_cons _ _ Hf2) E). }
    apply cons_split in E. destruct E as [[_ [_ <-]] | [k3 [_ E]]];
      [split; reflexivity|].
    apply cons_split in E. destruct E as [[_ [<- _]] | [k4 [_ E]]];
      [destruct Hy | destruct k4; discriminate].
  - apply elt_split in E. destruct E as [[k [E _]] | [k [_ E]]].
    { exfalso. apply (inner_not_abort_trigger ids y); [|exact Hy].
      apply (Forall_inner_elt _ pre k y (inner_api_cons _ _ Hf1) E). }
    apply cons_split in E. destruct E as [[_ [<- _]] | [k' [_ E]]];
      [destruct Hy|].
    apply elt_split in E. destruct E as [[k2 [E _]] | [k2 [_ E]]].
    { exfalso. apply (inner_not_abort_trigger ids y); [|exact Hy].
      apply (Forall_inner_elt _ k' k2 y (inner_api_cons _ _ Hf2) E). }
    apply cons_split in E. destruct E as [[_ [<- _]] | [k3 [_ E]]].
    { simpl in Hy. congruence. }
    apply cons_split in E. destruct E as [[_ [<- _]] | [k4 [_ E]]];
      [destruct Hy|].
    apply (IH k4 y post E Hy).
Qed.

(** In the trace of the fulfillment loop, a line that reports an attempt
    without success is followed at once by the call that opens the archive
    pass. *)
Lemma fulfillment_trace_rerun ids t exit :
  fulfillment_trace ids t exit ->
  forall pre y post,
    t = pre ++ y :: post -> unsuccessful_attempt y ->
    exists post', post = Api GetNewArchive :: post'.
Proof.
  induction 1 as [| t1 attempt r Hf1 Hs
                  | t1 attempt r t2 c Hf1 Hs Hf2 Ha
                  | t1 attempt r t2 c rest exit Hf1 Hs Hf2 Ha Hrest IH];
    intros pre y post E Hy.
  - apply cons_split in E. destruct E as [[_ [<- _]] | [k [_ E]]].
    + destruct Hy.
    + destruct k; discriminate.
  - apply elt_split in E. destruct E as [[k [E _]] | [k [_ E]]].
    + exfalso. apply (inner_not_unsuccessful_attempt y); [|exact Hy].
      apply (Forall_inner_elt _ pre k y (inner_api_cons _ _ Hf1) E).
    + apply cons_split in E. destruct E as [[_ [<- _]] | [k' [_ E]]].
      * simpl in Hy. congruence.
      * destruct k'; discriminate.
  - apply elt_split in E. destruct E as [[k [E _]] | [k [_ E]]].
    { exfalso. apply (inner_not_unsuccessful_attempt y); [|exact Hy].
      apply (Forall_inner_elt _ pre k y (inner_api_cons _ _ Hf1) E). }
    apply cons_split in E. destruct E as [[_ [_ <-]] | [k' [_ E]]];
      [eexists; reflexivity|].
    apply elt_split in E. destruct E as [[k2 [E _]] | [k2 [_ E]]].
    { exfalso. apply (inner_not_unsuccessful_attempt y); [|exact Hy].
      apply (Forall_inner_elt _ k' k2 y (inner_api_cons _ _ Hf2) E). }
    apply cons_split in E. destruct E as [[_ [<- _]] | [k3 [_ E]]];
      [destruct Hy|].
    apply cons_split in E. destruct E as [[_ [<- _]] | [k4 [_ E]]];
      [destruct Hy | destruct k4; discriminate].
  - apply elt_split in E. destruct E as [[k [E _]] | [k [_ E]]].
    { exfalso. apply (inner_not_unsuccessful_attempt y); [|exact Hy].
      apply (Forall_inner_elt _ pre k y (inner_api_cons _ _ Hf1) E). }
    apply cons_split in E. destruct E as [[_ [_ <-]] | [k' [_ E]]];
      [eexists; reflexivity|].
    apply elt_split in E. destruct E as [[k2 [E _]] | [k2 [_ E]]].
    { exfalso. apply (inner_not_unsuccessful_attempt y); [|exact Hy].
      apply (Forall_inner_elt _ k' k2 y (inner_api_cons _ _ Hf2) E). }
    apply cons_split in E. destruct E as [[_ [<- _]] | [k3 [_ E]]];
      [destruct Hy|].
    apply cons_split in E. destruct E as [[_ [<- _]] | [k4 [_ E]]];
      [destruct Hy|].
    apply (IH k4 y post E Hy).
Qed.

Lemma fulfillment_trace_events ids t exit :
  fulfillment_trace ids t exit -> Forall fulfillment_event t.
Proof.
  assert (forall l, Forall inner l -> Forall fulfillment_event l) as Hin.
  { intros l H. eapply Forall_impl; [|exact H]. intros ev Hev. left. exact Hev. }
  induction 1; repeat first [ apply Forall_app; split
                            | apply Forall_cons
                            | apply Forall_nil
                            | apply Hin; assumption
                            | assumption
                            | left; exact I
                            | right; exact I ].
Qed.

Lemma fulfillment_event_not_line ev :
  fulfillment_event ev -> is_new_orders_line ev -> False.
Proof.
  unfold fulfillment_event, waybill_event, inner.
  destruct ev as [lvl [] | |]; simpl; try tauto; destruct lvl; tauto.
Qed.

Lemma waybill_event_not_line ev :
  waybill_event ev -> is_new_orders_line ev -> False.
Proof.
  unfold fulfillment_event, waybill_event, inner.
  destruct ev as [lvl [] | |]; simpl; try tauto; destruct lvl; tauto.
Qed.

Lemma waybill_event_not_abort_trigger ids ev :
  waybill_event ev -> abort_trigger ids ev -> False.
Proof.
  unfold fulfillment_event, waybill_event, inner.
  destruct ev as [lvl [] | |]; simpl; try tauto; destruct lvl; tauto.
Qed.

Lemma waybill_event_not_unsuccessful_attempt ev :
  waybill_event ev -> unsuccessful_attempt ev -> False.
Proof.
  unfold fulfillment_event, waybill_event, inner.
  destruct ev as [lvl [] | |]; simpl; try tauto; destruct lvl; tauto.
Qed.

Lemma after_acceptance_trace_no_line r t :
  after_acceptance_trace r t -> Forall (fun ev => ~ is_new_orders_line ev) t.
Proof.
  destruct 1 as [Hf | tf Hf Hs Hhd Hft | tf exit tw Hf Hs Hhd Hft Hexit Hfw | Hf Hs].
  - repeat constructor. simpl. tauto.
  - apply (Forall_impl _ fulfillment_event_not_line).
    exact (fulfillment_trace_events _ _ _ Hft).
  - apply Forall_app. split.
    + apply (Forall_impl _ fulfillment_event_not_line).
      exact (fulfillment_trace_events _ _ _ Hft).
    + apply (Forall_impl _ waybill_event_not_line). exact Hfw.
  - repeat constructor. simpl. tauto.
Qed.

(** An event of [main]'s trace that is not an inner one is the line with the
    result of [process_new_orders], or comes after it and before the closing
    line. *)
Lemma main_trace_elt t pre y post :
  main_trace t -> t = pre ++ y :: post -> ~ inner y ->
  exists t1 r t2,
    Forall inner t1 /\ after_acceptance_trace r t2
    /\ ((y = Log INFO (NewOrdersLine r)
         /\ pre = started_line :: t1 /\ post = t2 ++ [finished_line])
        \/ (exists k post2,
               t2 = k ++ y :: post2
               /\ pre = (started_line :: t1) ++ Log INFO (NewOrdersLine r) :: k
               /\ post = post2 ++ [finished_line])).
Proof.
  intros [t1 r t2 Hf1 Hat] E Hy. exists t1, r, t2.
  split; [exact Hf1 | split; [exact Hat|]].
  apply elt_split in E. destruct E as [[k [E _]] | [k [-> E]]].
  { exfalso. apply Hy.
    apply (Forall_inner_elt (started_line :: t1) pre k y); [|exact E].
    constructor; [exact I | exact Hf1]. }
  apply cons_split in E. destruct E as [[-> [<- <-]] | [k' [-> E]]].
  { left. rewrite app_nil_r. auto. }
  right. apply elt_split in E. destruct E as [[k2 [E ->]] | [k2 [_ E]]].
  - exists k', k2. auto.
  - exfalso. apply cons_split in E. destruct E as [[_ [<- _]] | [k3 [_ E]]].
    + apply Hy. exact I.
    + destruct k3; discriminate.
Qed.

(** C7, as stated, fails: [n1] is accepted and [n2] is not; the run logs
    the result as an error and ends, without one call for the delivery page,
    so neither the fulfillment nor the waybill phase runs for [n1]. *)
Lemma failed_acceptance_skips_fulfillment :
  trace (snd (main rejecting_feed true shop_world))
  = [started_line;
     Api GetReturnedArchive; Api GetNewArchive; Api GetNewOrders;
     Api (AcceptOrder "n1" "k1");
     Api (AcceptOrder "n2" "k2"); Api (AcceptOrder "n2" "k2");
     Api (AcceptOrder "n2" "k2");
     Log ERROR (TextFor "could not accept order" (Some "n2"));
     Log WARNING (Text "could not accept some orders");
     Log INFO (NewOrdersLine (mkNewOrdersResult 2 ["n1"] ["n2"] []));
     Log ERROR (NewOrdersLine (mkNewOrdersResult 2 ["n1"] ["n2"] []));
     finished_line]
  /\ ~ In (Api GetKaspiDelivery) (trace (snd (main rejecting_feed true shop_world))).
Proof.
  split; [reflexivity|].
  vm_compute. intros H.
  repeat (destruct H as [H | H]; [discriminate|]). exact H.
Qed.

(** C7, amended.  Every run logs the result of the acceptance phase.  When
    that result lists a failed order, the run logs it once more as an error
    and ends: nothing else happens, so neither the fulfillment nor the waybill
    phase executes, not even for the orders that were accepted.  When no order
    failed and at least one was accepted, the fulfillment phase starts at
    once. *)
Theorem failed_acceptance_ends_the_run :
  forall (kaspi : nat -> Kaspi) (writes_back : bool) (w : World),
    (exists pre r post,
        trace (snd (main kaspi writes_back w))
        = trace w ++ pre ++ Log INFO (NewOrdersLine r) :: post)
    /\ (forall pre r post,
           trace (snd (main kaspi writes_back w))
           = trace w ++ pre ++ Log INFO (NewOrdersLine r) :: post ->
           (nonempty (nr_failed r) = true ->
            post = [Log ERROR (NewOrdersLine r); finished_line])
           /\ (nonempty (nr_failed r) = false ->
               nonempty (nr_success r) = true ->
               exists post', post = Api GetKaspiDelivery :: post')).
Proof.
  intros kaspi writes_back w.
  destruct (main_run kaspi writes_back w) as [t [w' [E [Ht Hmt]]]].
  rewrite E. cbn [snd]. rewrite Ht. split.
  - destruct Hmt as [t1 r t2 _ _]. exists (started_line :: t1), r.
    eexists. reflexivity.
  - intros pre r post Hsplit. apply app_inv_head in Hsplit.
    destruct (main_trace_elt t pre _ post Hmt Hsplit (fun H => H))
      as [t1 [r0 [t2 [Hf1 [Hat [[Hy [_ ->]] | [k [post2 [Hk _]]]]]]]]].
    + injection Hy as <-. split.
      * intros Hfailed. inversion Hat; subst; try congruence. reflexivity.
      * intros Hfailed Hsuccess.
        inversion Hat as [Hf | tf Hf Hs Hhd Hft | tf exit tw Hf Hs Hhd Hft Hexit Hfw
                          | Hf Hs]; subst; try congruence.
        -- destruct t2 as [|x t2]; [discriminate|]. injection Hhd as ->.
           eexists. reflexivity.
        -- destruct tf as [|x tf]; [discriminate|]. injection Hhd as ->.
           eexists. reflexivity.
    + exfalso.
      apply (Forall_elt_holds _ t2 k post2 _ (after_acceptance_trace_no_line _ _ Hat) Hk).
      exact I.
Qed.

Lemma failed_acceptance_witness :
  skipn 11 (trace (snd (main rejecting_feed true shop_world)))
  = [Log ERROR (NewOrdersLine (mkNewOrdersResult 2 ["n1"] ["n2"] []));
     finished_line]
  /\ exists post',
       skipn 6 (trace (snd (main canceling_feed true shop_world)))
       = Api GetKaspiDelivery :: post'.
Proof.
  split.
  - destruct (failed_acceptance_ends_the_run rejecting_feed true shop_world)
      as [_ H].
    apply (H (firstn 10 (trace (snd (main rejecting_feed true shop_world))))
             (mkNewOrdersResult 2 ["n1"] ["n2"] [])); reflexivity.
  - destruct (failed_acceptance_ends_the_run canceling_feed true shop_world)
      as [_ H].
    apply (H (firstn 5 (trace (snd (main canceling_feed true shop_world))))
             (mkNewOrdersResult 1 ["n1"] [] [])); reflexivity.
Defined.

(** C8.  In a run of [main], the line that reports a fulfillment attempt
    without any successful order is followed at once by the call that opens
    the archive pass; and when the line that reports the ids returned by that
    pass shows one of the accepted orders, all that follows is the warning and
    the closing line of the run: no further attempt, for any order. *)
Theorem canceled_accepted_order_aborts_the_run :
  forall (kaspi : nat -> Kaspi) (writes_back : bool) (w : World),
    (forall pre attempt r post,
        trace (snd (main kaspi writes_back w))
        = trace w ++ pre ++ Log INFO (ProcessOrdersAttempt attempt r) :: post ->
        nonempty (or_success r) = false ->
        exists post', post = Api GetNewArchive :: post')
    /\ (forall pre accepted attempt canceled_ids post,
           trace (snd (main kaspi writes_back w))
           = trace w ++ pre
               ++ Log INFO (CancelArchiveAttempt attempt canceled_ids) :: post ->
           In (Log INFO (NewOrdersLine accepted)) pre ->
           any_in canceled_ids (nr_success accepted) = true ->
           post = [canceled_line; finished_line]).
Proof.
  intros kaspi writes_back w.
  destruct (main_run kaspi writes_back w) as [t [w' [E [Ht Hmt]]]].
  rewrite E. cbn [snd]. rewrite Ht. split.
  - intros pre attempt r post Hsplit Hs. apply app_inv_head in Hsplit.
    destruct (main_trace_elt t pre _ post Hmt Hsplit (fun H => H))
      as [t1 [r0 [t2 [Hf1 [Hat [[Hy _] | [k [post2 [Hk [_ ->]]]]]]]]]];
      [discriminate|].
    destruct Hat as [Hf | tf Hf Hs' Hhd Hft | tf exit tw Hf Hs' Hhd Hft Hexit Hfw
                     | Hf Hs'].
    + destruct k as [|? [|? ?]]; discriminate.
    + destruct (fulfillment_trace_rerun _ _ _ Hft k _ post2 Hk Hs)
        as [post' ->].
      eexists. reflexivity.
    + apply elt_split in Hk. destruct Hk as [[k2 [Hk ->]] | [k2 [_ Hk]]].
      * destruct (fulfillment_trace_rerun _ _ _ Hft k _ k2 Hk Hs) as [post' ->].
        eexists. reflexivity.
      * exfalso.
        apply (waybill_event_not_unsuccessful_attempt
                 (Log INFO (ProcessOrdersAttempt attempt r)));
          [|exact Hs].
        apply (Forall_elt_holds _ tw k2 post2 _ Hfw Hk).
    + destruct k as [|? [|? ?]]; discriminate.
  - intros pre accepted attempt canceled_ids post Hsplit Hin Hany.
    apply app_inv_head in Hsplit.
    destruct (main_trace_elt t pre _ post Hmt Hsplit (fun H => H))
      as [t1 [r0 [t2 [Hf1 [Hat [[Hy _] | [k [post2 [Hk [-> ->]]]]]]]]]];
      [discriminate|].
    assert (accepted = r0) as ->.
    { apply in_app_or in Hin. destruct Hin as [Hin | [Hin | Hin]].
      - exfalso.
        assert (Forall inner (started_line :: t1)) as Hall
            by (constructor; [exact I | exact Hf1]).
        rewrite Forall_forall in Hall. exact (Hall _ Hin).
      - injection Hin as <-. reflexivity.
      - exfalso.
        pose proof (after_acceptance_trace_no_line _ _ Hat) as Hno.
        rewrite Hk in Hno. apply Forall_app in Hno. destruct Hno as [Hno _].
        rewrite Forall_forall in Hno. exact (Hno _ Hin I). }
    destruct Hat as [Hf | tf Hf Hs' Hhd Hft | tf exit tw Hf Hs' Hhd Hft Hexit Hfw
                     | Hf Hs'].
    + destruct k as [|? [|? ?]]; discriminate.
    + destruct (fulfillment_trace_abort _ _ _ Hft k _ post2 Hk Hany)
        as [-> _].
      reflexivity.
    + exfalso. apply elt_split in Hk. destruct Hk as [[k2 [Hk _]] | [k2 [_ Hk]]].
      * destruct (fulfillment_trace_abort _ _ _ Hft k _ k2 Hk Hany) as [_ ->].
        apply Hexit. reflexivity.
      * apply (waybill_event_not_abort_trigger
                 (nr_success r0)
                 (Log INFO (CancelArchiveAttempt attempt canceled_ids)));
          [|exact Hany].
        apply (Forall_elt_holds _ tw k2 post2 _ Hfw Hk).
    + destruct k as [|? [|? ?]]; discriminate.
Qed.

Lemma canceled_accepted_order_witness :
  (exists post',
      skipn 8 (trace (snd (main canceling_feed true shop_world)))
      = Api GetNewArchive :: post')
  /\ skipn 10 (trace (snd (main canceling_feed true shop_world)))
     = [canceled_line; finished_line].
Proof.
  destruct (canceled_accepted_order_aborts_the_run canceling_feed true shop_world)
    as [H1 H2].
  split.
  - apply (H1 (firstn 7 (trace (snd (main canceling_feed true shop_world))))
              1%nat (mkOrdersResult 0 [] [])); reflexivity.
  - apply (H2 (firstn 9 (trace (snd (main canceling_feed true shop_world))))
              (mkNewOrdersResult 1 ["n1"] [] []) 1%nat ["n1"]).
    + reflexivity.
    + vm_compute. tauto.
    + reflexivity.
Defined.

(** * Further properties of the code

    ** The retry decorator *)

Lemma async_retry_exhausts A (allowed : exn -> bool) (func : M A) (e : exn)
      (noise : list Event) (d : DB) :
  allowed e = true ->
  (forall w, db w = d ->
             func w = (Raise e, mkWorld (db w) (clock w) (trace w ++ noise))) ->
  forall retries backoff_in_seconds w,
    db w = d ->
    async_retry retries backoff_in_seconds allowed func w
    = (Raise e,
       mkWorld (db w) (clock w + retries)
               (trace w ++ retry_trace noise retries backoff_in_seconds)).
Proof.
  intros Hallowed Hfunc.
  induction retries as [|k IH]; intros delay w Hd; cbn [async_retry retry_trace];
    unfold try_except; rewrite (Hfunc w Hd), Hallowed.
  - unfold raise. rewrite Nat.add_0_r, app_nil_r. reflexivity.
  - unfold bind at 1. rewrite sleep_run. rewrite IH by exact Hd. cbn [db clock trace].
    rewrite Nat.add_succ_r. cbn [Nat.add].
    rewrite <- !app_assoc. reflexivity.
Qed.

(** X1.  When every try of the decorated operation fails with the same
    allowed exception, leaving the database alone, [async_retry] tries
    [retries + 1] times, sleeps before each further try with a delay that
    starts at [backoff_in_seconds] and doubles, and re-raises the exception;
    the database is what it was. *)
Theorem async_retry_exhausts_with_doubling_backoff :
  forall (A : Type) (allowed : exn -> bool) (func : M A) (e : exn)
         (noise : list Event),
    allowed e = true ->
    (forall w, func w = (Raise e, mkWorld (db w) (clock w) (trace w ++ noise))) ->
    forall retries backoff_in_seconds w,
      async_retry retries backoff_in_seconds allowed func w
      = (Raise e,
         mkWorld (db w) (clock w + retries)
                 (trace w ++ retry_trace noise retries backoff_in_seconds)).
Proof.
  intros A allowed func e noise Hallowed Hfunc retries delay w.
  apply (async_retry_exhausts A allowed func e noise (db w) Hallowed);
    [intros w0 _; apply Hfunc | reflexivity].
Qed.

Lemma async_retry_exhausts_witness :
  async_retry 3 2 is_SQLAlchemyError (@raise unit IntegrityError) shop_world
  = (Raise IntegrityError,
     mkWorld shop_db 3 [Sleep 2; Sleep 4; Sleep 8]).
Proof.
  apply (async_retry_exhausts_with_doubling_backoff
           unit is_SQLAlchemyError (raise IntegrityError) IntegrityError []).
  - reflexivity.
  - intros w. unfold raise. rewrite app_nil_r. destruct w. reflexivity.
Defined.

Lemma world_eta w : mkWorld (db w) (clock w) (trace w) = w.
Proof. destruct w. reflexivity. Qed.

(** X2.  An operation that fails with an allowed exception until the clock
    reaches [ready_at] succeeds under [async_retry] exactly when it recovers
    within [retries] sleeps; the decorator then sleeps only as often as
    needed.  Otherwise all [retries] sleeps are spent and the exception is
    re-raised. *)
Theorem async_retry_succeeds_iff_recovery_within_retries :
  forall (A : Type) (allowed : exn -> bool) (ready_at : nat) (a : A) (e : exn),
    allowed e = true ->
    forall retries backoff_in_seconds w,
      async_retry retries backoff_in_seconds allowed (recovering ready_at a e) w
      = if (ready_at <=? clock w + retries)%nat
        then (Ok a,
              mkWorld (db w) (Nat.max (clock w) ready_at)
                      (trace w ++ retry_trace [] (ready_at - clock w)
                                              backoff_in_seconds))
        else (Raise e,
              mkWorld (db w) (clock w + retries)
                      (trace w ++ retry_trace [] retries backoff_in_seconds)).
Proof.
  intros A allowed ready_at a e Hallowed.
  induction retries as [|k IH]; intros delay w; cbn [async_retry];
    unfold try_except, recovering at 1.
  - rewrite Nat.add_0_r.
    destruct (ready_at <=? clock w)%nat eqn:E.
    + apply Nat.leb_le in E.
      replace (ready_at - clock w)%nat with O by lia.
      rewrite Nat.max_l by lia. simpl. rewrite app_nil_r, world_eta. reflexivity.
    + rewrite Hallowed. unfold raise. simpl. rewrite app_nil_r, world_eta.
      reflexivity.
  - destruct (ready_at <=? clock w)%nat eqn:E.
    + apply Nat.leb_le in E.
      replace (ready_at <=? clock w + S k)%nat with true
        by (symmetry; apply Nat.leb_le; lia).
      replace (ready_at - clock w)%nat with O by lia.
      rewrite Nat.max_l by lia. simpl. rewrite app_nil_r, world_eta. reflexivity.
    + apply Nat.leb_gt in E. rewrite Hallowed.
      unfold bind at 1. rewrite sleep_run. rewrite IH. cbn [db clock trace].
      replace (S (clock w) + k)%nat with (clock w + S k)%nat by lia.
      destruct (ready_at <=? clock w + S k)%nat eqn:E2.
      * apply Nat.leb_le in E2.
        replace (ready_at - clock w)%nat with (S (ready_at - S (clock w))) by lia.
        replace (Nat.max (S (clock w)) ready_at) with (Nat.max (clock w) ready_at)
          by lia.
        cbn [retry_trace app]. rewrite <- app_assoc. reflexivity.
      * cbn [retry_trace app]. rewrite <- app_assoc. reflexivity.
Qed.

Lemma async_retry_recovery_witness :
  async_retry 3 2 is_SQLAlchemyError (recovering 2 tt IntegrityError) shop_world
  = (Ok tt, mkWorld shop_db 2 [Sleep 2; Sleep 4])
  /\ async_retry 3 2 is_SQLAlchemyError (recovering 4 tt IntegrityError) shop_world
     = (Raise IntegrityError, mkWorld shop_db 3 [Sleep 2; Sleep 4; Sleep 8]).
Proof.
  split.
  - apply (async_retry_succeeds_iff_recovery_within_retries
             unit is_SQLAlchemyError 2 tt IntegrityError eq_refl 3%nat 2 shop_world).
  - apply (async_retry_succeeds_iff_recovery_within_retries
             unit is_SQLAlchemyError 4 tt IntegrityError eq_refl 3%nat 2 shop_world).
Defined.

(** ** The update of the stock, read back *)

Lemma existsb_filter A (f g : A -> bool) l :
  existsb (fun x => f x && g x) l = existsb f (filter g l).
Proof.
  induction l as [|x l IH]; simpl; [reflexivity|].
  destruct (g x); simpl; rewrite IH.
  - rewrite andb_true_r. reflexivity.
  - rewrite andb_false_r. reflexivity.
Qed.

Lemma existsb_pointwise A (f g : A -> bool) l :
  (forall x, f x = g x) -> existsb f l = existsb g l.
Proof.
  intros H. induction l as [|x l IH]; simpl; [reflexivity|]. rewrite H, IH.
  reflexivity.
Qed.

Lemma located_active_products d product_code stock_name product stock inventory :
  located d product_code stock_name product stock inventory ->
  active_products_by_sku d product_code = [product].
Proof.
  intros [Hp [Ha _]]. unfold active_products_by_sku.
  induction (products d) as [|p l IH]; simpl in *; [discriminate|].
  destruct (p_sku p =? product_code)%string eqn:E; simpl.
  - injection Hp as -> Hl. rewrite Ha.
    f_equal. clear IH E.
    induction l as [|p' l IH]; simpl in *; [reflexivity|].
    destruct (p_sku p' =? product_code)%string; [discriminate|]. simpl. apply IH, Hl.
  - apply IH, Hp.
Qed.

Lemma located_stock_quantity_rows d product_code stock_name product stock inventory :
  located d product_code stock_name product stock inventory ->
  stock_quantity_rows d product_code stock_name = [inventory].
Proof.
  intros [Hp [Ha [Hs Hi]]]. rewrite <- Hi. unfold stock_quantity_rows.
  apply filter_ext. intros si. unfold is_inventory_of.
  rewrite existsb_filter, Hp.
  replace (existsb (fun s => (s_id s =? si_stock_id si)
                             && name_is stock_name s && s_is_active s) (stocks d))
    with (existsb (fun s => s_id s =? si_stock_id si)
                  (filter (fun s => name_is stock_name s && s_is_active s) (stocks d))).
  2: { rewrite <- existsb_filter. apply existsb_pointwise. intros s.
       rewrite andb_assoc. reflexivity. }
  fold (active_stocks_by_name d stock_name). rewrite Hs. simpl.
  rewrite !orb_false_r.
  rewrite (Z.eqb_sym (p_id product)), (Z.eqb_sym (s_id stock)).
  destruct (si_is_active si), (si_product_id si =? p_id product),
    (si_stock_id si =? s_id stock); reflexivity.
Qed.

Lemma is_inventory_of_set_quantity product stock q si :
  is_inventory_of product stock (set_quantity q si) = is_inventory_of product stock si.
Proof. reflexivity. Qed.

Lemma filter_assigned product stock q l :
  filter (is_inventory_of product stock)
         (map (fun si => if is_inventory_of product stock si
                         then set_quantity q si else si) l)
  = map (set_quantity q) (filter (is_inventory_of product stock) l).
Proof.
  induction l as [|si l IH]; simpl; [reflexivity|].
  destruct (is_inventory_of product stock si) eqn:E; simpl.
  - rewrite is_inventory_of_set_quantity, E, IH. reflexivity.
  - rewrite E, IH. reflexivity.
Qed.

Lemma located_assign_quantity d product_code stock_name product stock inventory q :
  located d product_code stock_name product stock inventory ->
  located (assign_quantity product stock q d) product_code stock_name
          product stock (set_quantity q inventory).
Proof.
  intros [Hp [Ha [Hs Hi]]]. unfold located. simpl.
  split; [exact Hp | split; [exact Ha | split; [exact Hs|]]].
  rewrite filter_assigned, Hi. reflexivity.
Qed.

Lemma located_stock_quantity d product_code stock_name product stock inventory :
  located d product_code stock_name product stock inventory ->
  stock_quantity_of d product_code stock_name = si_quantity inventory.
Proof.
  intros H. unfold stock_quantity_of.
  rewrite (located_stock_quantity_rows _ _ _ _ _ _ H). reflexivity.
Qed.

Lemma update_stock_quantity_and_log_located writes_back product_code new_quantity
      order_quantity operation stock_name product stock inventory w :
  located (db w) product_code stock_name product stock inventory ->
  0 <= new_quantity ->
  update_stock_quantity_and_log writes_back product_code new_quantity
                                order_quantity operation stock_name w
  = (Ok tt,
     if writes_back
     then mkWorld (assign_quantity product stock new_quantity (db w))
                  (clock w) (trace w)
     else w).
Proof.
  intros H Hq. pose proof (located_active_products _ _ _ _ _ _ H) as Hp.
  destruct H as [_ [_ [Hs Hi]]].
  unfold update_stock_quantity_and_log. simpl. run_monad.
  rewrite Hs. simpl. rewrite Hp. simpl. rewrite Hi. simpl.
  apply Z.ltb_ge in Hq. rewrite Hq.
  destruct writes_back; reflexivity.
Qed.

(** X3.  The update is lost.  On a well-formed stock,
    [update_stock_quantity_and_log] accepts a quantity that is not negative
    and returns, and what [get_stock_quantity] then reads is the old quantity:
    the source leaves the session without commit.  Only a storage that wrote
    the assignment back would give the new quantity.  Every inventory row of
    another pair is left as it was either way. *)
Theorem stock_update_then_read :
  forall (writes_back : bool) (product_code : string) (new_quantity order_quantity : Z)
         (operation : string) (stock_name : option string) (for_update : bool)
         (product : Product) (stock : Stock) (inventory : StockInventory) (w : World),
    located (db w) product_code stock_name product stock inventory ->
    0 <= new_quantity ->
    exists w',
      update_stock_quantity_and_log writes_back product_code new_quantity
                                    order_quantity operation stock_name w
      = (Ok tt, w')
      /\ get_stock_quantity product_code stock_name for_update w'
         = (Ok (if writes_back then new_quantity else si_quantity inventory), w')
      /\ (forall si, In si (stock_inventory (db w)) ->
                     is_inventory_of product stock si = false ->
                     In si (stock_inventory (db w'))).
Proof.
  intros writes_back product_code new_quantity order_quantity operation stock_name
         for_update product stock inventory w H Hq.
  eexists. split.
  { apply (update_stock_quantity_and_log_located
             _ _ _ _ _ _ product stock inventory w H Hq). }
  rewrite get_stock_quantity_run. destruct writes_back.
  - split.
    + cbn [db].
      rewrite (located_stock_quantity _ _ _ _ _ _
                 (located_assign_quantity _ _ _ _ _ _ new_quantity H)).
      reflexivity.
    + intros si Hin Hno. cbn [db stock_inventory assign_quantity with_stock_inventory].
      apply in_map_iff. exists si. rewrite Hno. auto.
  - split.
    + rewrite (located_stock_quantity _ _ _ _ _ _ H). reflexivity.
    + auto.
Qed.

Lemma stock_update_then_read_witness :
  exists w',
    update_stock_quantity_and_log false "P1" 4 6 "sales" (Some "PP5") shop_world
    = (Ok tt, w')
    /\ get_stock_quantity "P1" (Some "PP5") false w' = (Ok 10, w').
Proof.
  destruct (stock_update_then_read
              false "P1" 4 6 "sales" (Some "PP5") false
              (mkProduct 1 "P1" true) (mkStock 1 "PP5" true)
              (mkStockInventory 1 1 1 10 true) shop_world)
    as [w' [E [Hget _]]].
  - repeat split.
  - lia.
  - exists w'. split; [exact E | exact Hget].
Defined.

(** ** Order records *)

Lemma save_order_fresh order_id order_code status stock_name products customer_info w :
  order_exists (db w) (Some order_id) = false ->
  save_order (Some order_id) (Some order_code) (Some status) stock_name products
             customer_info w
  = (Ok tt,
     mkWorld (insert_order order_id order_code status stock_name products
                           customer_info (db w))
             (clock w) (trace w)).
Proof.
  intros H. unfold save_order. cbn [async_retry].
  unfold try_except, bind, read_db. rewrite H. reflexivity.
Qed.

Lemma order_rows_fresh d order_id :
  order_exists d (Some order_id) = false -> order_rows d order_id = [].
Proof.
  unfold order_exists, order_rows.
  induction (kaspi_orders d) as [|ko l IH]; simpl; [reflexivity|].
  destruct (ko_order_id ko =? order_id)%string; simpl; [discriminate | exact IH].
Qed.

Lemma order_rows_insert_order order_id order_code status stock_name products
      customer_info d :
  order_exists d (Some order_id) = false ->
  order_rows (insert_order order_id order_code status stock_name products
                           customer_info d) order_id
  = [mkKaspiOrder order_id order_code stock_name status false false false].
Proof.
  intros H. unfold order_rows, insert_order. simpl.
  rewrite filter_app. fold (order_rows d order_id).
  rewrite (order_rows_fresh _ _ H). simpl. rewrite String.eqb_refl. reflexivity.
Qed.

(** X4.  What [save_order] inserts under a fresh order id is what the
    lookups then find: the order is processed, has the saved order code, is
    neither canceled nor invoiced, and its products are the saved line items,
    in order, after any rows that already carried that order id. *)
Theorem save_order_then_lookups :
  forall (order_id order_code status stock_name : string) (products : list Entry)
         (customer_info : option string * option string) (w : World),
    order_exists (db w) (Some order_id) = false ->
    exists w',
      save_order (Some order_id) (Some order_code) (Some status) stock_name products
                 customer_info w = (Ok tt, w')
      /\ is_order_processed (Some order_id) w' = (Ok true, w')
      /\ get_order_code order_id w' = (Ok order_code, w')
      /\ is_order_canceled order_id w' = (Ok false, w')
      /\ is_invoice_generated order_id w' = (Ok false, w')
      /\ get_order_products order_id w'
         = (Ok (order_products (db w) order_id ++ map entry_row products), w').
Proof.
  intros order_id order_code status stock_name products customer_info w H.
  eexists. split; [apply save_order_fresh, H|].
  pose proof (order_rows_insert_order order_id order_code status stock_name products
                                      customer_info (db w) H) as Hrows.
  split; [|split; [|split; [|split]]].
  - rewrite is_order_processed_run. cbn [db]. do 2 f_equal.
    unfold order_exists, insert_order. simpl.
    rewrite existsb_app. simpl. rewrite String.eqb_refl, orb_true_r. reflexivity.
  - unfold get_order_code, try_except, read_db. cbn [db].
    unfold order_code_of. rewrite Hrows. reflexivity.
  - rewrite is_order_canceled_run. cbn [db]. unfold order_canceled.
    rewrite Hrows. reflexivity.
  - unfold is_invoice_generated, try_except, read_db. cbn [db].
    unfold invoice_generated. rewrite Hrows. reflexivity.
  - rewrite get_order_products_run. cbn [db]. do 2 f_equal.
    unfold order_products, insert_order. simpl.
    rewrite filter_app, map_app. f_equal. clear Hrows.
    induction products as [|entry rest IH]; simpl; [reflexivity|].
    rewrite String.eqb_refl. simpl. rewrite IH. reflexivity.
Qed.

Lemma save_order_then_lookups_witness :
  exists w',
    save_order (Some "o7") (Some "c7") (Some "NEW") "PP5"
               [mkEntry "P1" "thing" 3 100] (None, None) shop_world = (Ok tt, w')
    /\ get_order_code "o7" w' = (Ok "c7", w')
    /\ get_order_products "o7" w' = (Ok [("P1", 3, "thing")], w').
Proof.
  destruct (save_order_then_lookups "o7" "c7" "NEW" "PP5"
              [mkEntry "P1" "thing" 3 100] (None, None) shop_world eq_refl)
    as [w' [E [_ [Hcode [_ [_ Hproducts]]]]]].
  exists w'. split; [exact E | split; [exact Hcode | exact Hproducts]].
Defined.

Lemma save_order_rejects_incomplete_or_repeated_order_lemma
      order_id order_code status stock_name products customer_info w :
  unsavable (db w) order_id order_code status ->
  save_order order_id order_code status stock_name products customer_info w
  = (Raise IntegrityError,
     mkWorld (db w) (clock w + 3)
             (trace w
                ++ retry_trace
                     [Log ERROR (TextFor "error while saving order" order_id)]
                     3 2)).
Proof.
  intros H.
  unfold save_order.
  apply (async_retry_exhausts unit is_SQLAlchemyError _ IntegrityError
           [Log ERROR (TextFor "error while saving order" order_id)] (db w));
    [reflexivity | | reflexivity].
  intros w0 Hd. rewrite <- Hd in H. run_monad.
  destruct order_id as [oid|]; [|reflexivity].
  destruct order_code as [code|]; [|reflexivity].
  destruct status as [st|]; [|reflexivity].
  destruct H as [H | [H | [H | H]]]; try discriminate.
  simpl in H. simpl. rewrite H. reflexivity.
Qed.

(** X5.  [save_order] inserts nothing when the order id, the order code or
    the status is missing, or when the order id is already recorded: each of
    its four tries fails with [IntegrityError] and logs the error, the
    decorator sleeps 2, 4 and 8 seconds in between, and the exception reaches
    the caller. *)
Theorem save_order_rejects_incomplete_or_repeated_order :
  forall (order_id order_code status : option string) (stock_name : string)
         (products : list Entry) (customer_info : option string * option string)
         (w : World),
    unsavable (db w) order_id order_code status ->
    save_order order_id order_code status stock_name products customer_info w
    = (Raise IntegrityError,
       mkWorld (db w) (clock w + 3)
               (trace w
                  ++ retry_trace
                       [Log ERROR (TextFor "error while saving order" order_id)]
                       3 2)).
Proof.
  intros. apply save_order_rejects_incomplete_or_repeated_order_lemma. assumption.
Qed.

Lemma save_order_rejects_witness :
  db (snd (save_order (Some "o1") (Some "c1") (Some "NEW") "PP5" [] (None, None)
                      recorded_world))
  = db recorded_world
  /\ fst (save_order (Some "o7") None (Some "NEW") "PP5" [] (None, None) shop_world)
     = Raise IntegrityError.
Proof.
  split.
  - rewrite (save_order_rejects_incomplete_or_repeated_order
               (Some "o1") (Some "c1") (Some "NEW") "PP5" [] (None, None)
               recorded_world).
    + reflexivity.
    + right. right. right. reflexivity.
  - rewrite (save_order_rejects_incomplete_or_repeated_order
               (Some "o7") None (Some "NEW") "PP5" [] (None, None) shop_world).
    + reflexivity.
    + right. left. reflexivity.
Defined.

(** ** The fulfillment pipeline, past the availability pass *)

Lemma check_availability_all order_code stock_name products w :
  Forall (fun entry => ~ short (db w) (Some stock_name) entry) products ->
  check_availability order_code stock_name products w = (Ok true, w).
Proof.
  induction 1 as [|entry rest Hentry _ IH]; cbn [check_availability];
    [reflexivity|].
  rewrite (bind_ok _ _ _ _ _ _ _
             (get_stock_quantity_run (e_code entry) (Some stock_name) false w)).
  unfold short in Hentry. apply Z.nlt_ge, Z.ltb_ge in Hentry.
  rewrite Hentry. exact IH.
Qed.

Lemma create_invoice_run kaspi order_id w :
  create_invoice kaspi order_id w
  = (Ok (invoice_ok (kaspi (clock w)) order_id),
     mkWorld (db w) (S (clock w)) (trace w ++ [Api (CreateInvoice order_id)])).
Proof. reflexivity. Qed.

Lemma order_exists_same_orders w w' order_id :
  same_orders w w' -> order_exists (db w') order_id = order_exists (db w) order_id.
Proof. intros [H _]. unfold order_exists. rewrite H. reflexivity. Qed.

Lemma decrement_stock_same_orders writes_back stock_name products w r w' :
  decrement_stock writes_back stock_name products w = (r, w') -> same_orders w w'.
Proof.
  intros E.
  pose proof (preserves_decrement_stock
                (R := same_orders) (P := any_event) (fun _ _ => I)
                writes_back stock_name products w) as H.
  rewrite E in H. exact H.
Qed.

(** The pipeline up to the end of the commit pass, for an order that is not
    recorded, has a pickup point and passes the availability pass. *)
Lemma process_single_order_after_commit kaspi writes_back order p w wd :
  order_exists (db w) (o_id order) = false ->
  o_pickupPointId order = Some p ->
  Forall (fun entry => ~ short (db w) (Some (last3 p)) entry)
         (order_entries (kaspi (clock w)) (o_id order)) ->
  decrement_stock writes_back (last3 p)
                  (order_entries (kaspi (clock w)) (o_id order))
                  (mkWorld (db w) (S (clock w))
                           (trace w ++ [Api (GetOrderEntries (o_id order))]))
  = (Ok tt, wd) ->
  process_single_order kaspi writes_back order w
  = try_except
      (save_order (o_id order) (o_code order) (o_status order) (last3 p)
                  (order_entries (kaspi (clock w)) (o_id order))
                  (o_customer_name order, o_customer_phone order) ;;
       invoice_result <- create_invoice kaspi (o_id order) ;;
       if (invoice_result : bool) then ret true
       else logger ERROR (TextFor "create_invoice returned False" (o_id order)) ;;
            ret false)
      any_exception
      (fun _ => logger ERROR (TextFor "error while processing order" (o_id order)) ;;
                ret false)
      wd.
Proof.
  intros Hfresh Hp Hall Hdec.
  unfold process_single_order, try_except.
  rewrite (bind_ok _ _ _ _ _ _ _ (is_order_processed_run (o_id order) w)).
  rewrite Hfresh.
  rewrite (bind_ok _ _ _ _ _ _ _ (get_order_entries_run kaspi (o_id order) w)).
  rewrite Hp. unfold bind at 1. unfold ret at 1.
  rewrite (bind_ok _ _ _ _ _ _ _
             (check_availability_all
                (o_code order) (last3 p) _
                (mkWorld (db w) (S (clock w))
                         (trace w ++ [Api (GetOrderEntries (o_id order))]))
                Hall)).
  cbn [negb]. unfold bind at 1. rewrite Hdec. reflexivity.
Qed.

Lemma process_single_order_records :
  forall (kaspi : nat -> Kaspi) (writes_back : bool) (order : Order)
         (order_id order_code status p : string) (w wd : World),
    o_id order = Some order_id ->
    o_code order = Some order_code ->
    o_status order = Some status ->
    passes_availability kaspi order p w ->
    commits_in kaspi writes_back order p w wd ->
    exists w',
      process_single_order kaspi writes_back order w
      = (Ok (invoice_ok (kaspi (clock wd)) (Some order_id)), w')
      /\ db w'
         = insert_order order_id order_code status (last3 p)
                        (order_entries (kaspi (clock w)) (Some order_id))
                        (o_customer_name order, o_customer_phone order) (db wd).
Proof.
  intros kaspi writes_back order order_id order_code status p w wd
         Hid Hcode Hstatus [Hfresh [Hp Hall]] Hdec.
  rewrite (process_single_order_after_commit kaspi writes_back order p w wd
             Hfresh Hp Hall Hdec).
  rewrite Hid, Hcode, Hstatus in *. unfold try_except.
  assert (order_exists (db wd) (Some order_id) = false) as Hfresh'.
  { rewrite (order_exists_same_orders _ _ _
               (decrement_stock_same_orders _ _ _ _ _ _ Hdec)).
    exact Hfresh. }
  rewrite (bind_ok _ _ _ _ _ _ _
             (save_order_fresh order_id order_code status (last3 p) _ _ wd Hfresh')).
  rewrite (bind_ok _ _ _ _ _ _ _ (create_invoice_run kaspi (Some order_id) _)).
  cbn [clock].
  destruct (invoice_ok (kaspi (clock wd)) (Some order_id));
    eexists; split; reflexivity.
Qed.

(** X6.  Once the commit pass of an order is through, the order is recorded
    with all its line items whether or not the invoice can be created: the
    result of [process_single_order] is the answer of the invoicing call, and
    an order whose invoice failed stays recorded, with its stock
    decremented. *)
Theorem fulfilled_order_is_recorded_whatever_the_invoice :
  forall (kaspi : nat -> Kaspi) (writes_back : bool) (order : Order)
         (order_id order_code status p : string) (w wd : World),
    o_id order = Some order_id ->
    o_code order = Some order_code ->
    o_status order = Some status ->
    passes_availability kaspi order p w ->
    commits_in kaspi writes_back order p w wd ->
    exists w',
      process_single_order kaspi writes_back order w
      = (Ok (invoice_ok (kaspi (clock wd)) (Some order_id)), w')
      /\ db w'
         = insert_order order_id order_code status (last3 p)
                        (order_entries (kaspi (clock w)) (Some order_id))
                        (o_customer_name order, o_customer_phone order) (db wd).
Proof.
  intros kaspi writes_back order order_id order_code status p w wd.
  apply process_single_order_records.
Qed.

Lemma fulfilled_order_witness :
  exists w',
    process_single_order refusing_feed true order_o1 shop_world = (Ok false, w')
    /\ order_exists (db w') (Some "o1") = true.
Proof.
  destruct (fulfilled_order_is_recorded_whatever_the_invoice
              refusing_feed true order_o1 "o1" "c1" "ACCEPTED_BY_MERCHANT"
              "store_PP5" shop_world
              (mkWorld (assign_quantity (mkProduct 1 "P1" true) (mkStock 1 "PP5" true)
                                        7 shop_db)
                       1 [Api (GetOrderEntries (Some "o1"))]))
    as [w' [E Hdb]]; try reflexivity.
  - split; [reflexivity | split; [reflexivity|]].
    repeat constructor. unfold short. vm_compute. discriminate.
  - exists w'. split; [exact E|]. rewrite Hdb. reflexivity.
Defined.

Lemma stock_after_update_uncommitted d product_code new_quantity stock_name :
  stock_after_update false d product_code new_quantity stock_name = d.
Proof.
  unfold stock_after_update.
  destruct (active_stocks_by_name d stock_name) as [|stock [|? ?]]; try reflexivity.
  destruct (active_products_by_sku d product_code) as [|product [|? ?]];
    try reflexivity.
  destruct (filter (is_inventory_of product stock) (stock_inventory d))
    as [|inventory [|? ?]]; try reflexivity.
  destruct (new_quantity <? 0); reflexivity.
Qed.

Lemma decrement_stock_uncommitted stock_name products w :
  db (snd (decrement_stock false stock_name products w)) = db w.
Proof.
  revert w. induction products as [|entry rest IH]; intros w;
    cbn [decrement_stock]; [reflexivity|].
  rewrite (bind_ok _ _ _ _ _ _ _
             (get_stock_quantity_run (e_code entry) (Some stock_name) false w)).
  unfold bind at 1.
  pose proof (update_stock_quantity_and_log_db
                false (e_code entry)
                (stock_quantity_of (db w) (e_code entry) (Some stock_name)
                 - e_quantity entry)
                (e_quantity entry) "sales" (Some stock_name) w) as Hup.
  rewrite stock_after_update_uncommitted in Hup.
  destruct (update_stock_quantity_and_log _ _ _ _ _ _ w) as [[[]|e] w1];
    cbn [snd] in Hup.
  - rewrite IH. exact Hup.
  - exact Hup.
Qed.

(** X7.  When the order lacks its id, its code or its status,
    [process_single_order] finds that out only in [save_order], after the
    commit pass: each of the four tries of [save_order] fails, and the order
    is reported failed without being recorded and without a call for the
    invoice.  Nothing undoes the commit pass; as the source never commits what
    that pass assigns, the database is what it was before the call. *)
Theorem incomplete_order_fails_in_save_order :
  forall (kaspi : nat -> Kaspi) (writes_back : bool) (order : Order) (p : string)
         (w wd : World),
    o_id order = None \/ o_code order = None \/ o_status order = None ->
    passes_availability kaspi order p w ->
    commits_in kaspi writes_back order p w wd ->
    process_single_order kaspi writes_back order w
    = (Ok false,
       mkWorld (db wd) (clock wd + 3)
               (trace wd
                  ++ retry_trace
                       [Log ERROR (TextFor "error while saving order" (o_id order))]
                       3 2
                  ++ [Log ERROR (TextFor "error while processing order"
                                         (o_id order))]))
    /\ (writes_back = false -> db wd = db w).
Proof.
  intros kaspi writes_back order p w wd Hmissing [Hfresh [Hp Hall]] Hdec. split.
  - rewrite (process_single_order_after_commit kaspi writes_back order p w wd
               Hfresh Hp Hall Hdec).
    unfold try_except, bind at 1.
    rewrite (save_order_rejects_incomplete_or_repeated_order_lemma
               (o_id order) (o_code order) (o_status order) (last3 p) _ _ wd).
    + cbn [any_exception]. rewrite (bind_ok _ _ _ _ _ _ _ (logger_run _ _ _)).
      unfold ret. cbn [db clock trace]. rewrite <- app_assoc. reflexivity.
    + unfold unsavable. tauto.
  - intros ->. unfold commits_in in Hdec.
    pose proof (decrement_stock_uncommitted
                  (last3 p) (order_entries (kaspi (clock w)) (o_id order))
                  (mkWorld (db w) (S (clock w))
                           (trace w ++ [Api (GetOrderEntries (o_id order))]))) as H.
    rewrite Hdec in H. exact H.
Qed.

Lemma incomplete_order_witness :
  fst (process_single_order quiet_feed false order_without_code shop_world) = Ok false
  /\ db (snd (process_single_order quiet_feed false order_without_code shop_world))
     = shop_db.
Proof.
  destruct (incomplete_order_fails_in_save_order
              quiet_feed false order_without_code "store_PP5" shop_world
              (mkWorld shop_db 1 [Api (GetOrderEntries (Some "o5"))]))
    as [E Hdb].
  - right. left. reflexivity.
  - split; [reflexivity | split; [reflexivity|]].
    repeat constructor. unfold short. vm_compute. discriminate.
  - reflexivity.
  - rewrite E. split; [reflexivity|]. cbn [snd db]. apply Hdb. reflexivity.
Defined.

Lemma decrement_stock_unavailable writes_back stock_name products w :
  (forall entry, In entry products ->
                 unavailable (db w) (e_code entry) (Some stock_name)) ->
  db (snd (decrement_stock writes_back stock_name products w)) = db w.
Proof.
  revert w. induction products as [|entry rest IH]; intros w H;
    cbn [decrement_stock]; [reflexivity|].
  rewrite (bind_ok _ _ _ _ _ _ _
             (get_stock_quantity_run (e_code entry) (Some stock_name) false w)).
  unfold bind at 1.
  pose proof (update_stock_quantity_and_log_db
                writes_back (e_code entry)
                (stock_quantity_of (db w) (e_code entry) (Some stock_name)
                 - e_quantity entry)
                (e_quantity entry) "sales" (Some stock_name) w) as Hup.
  rewrite stock_after_update_rejected in Hup
    by (right; apply H; left; reflexivity).
  destruct (update_stock_quantity_and_log _ _ _ _ _ _ w) as [[[]|e] w1];
    cbn [snd] in Hup.
  - rewrite IH; [exact Hup|]. intros e Hin. rewrite Hup. apply H. right. exact Hin.
  - exact Hup.
Qed.

(** X8.  The availability pass reads the stock of a product without looking
    at the product's activity flag, the commit pass refuses to write for a
    product that is missing or inactive.  So an order whose products are all
    inactive goes through: it is recorded and invoiced, and no stock has
    moved. *)
Theorem order_of_inactive_products_is_recorded_without_stock_movement :
  forall (kaspi : nat -> Kaspi) (writes_back : bool) (order : Order)
         (order_id order_code status p : string) (w wd : World),
    o_id order = Some order_id ->
    o_code order = Some order_code ->
    o_status order = Some status ->
    passes_availability kaspi order p w ->
    commits_in kaspi writes_back order p w wd ->
    (forall entry, In entry (order_entries (kaspi (clock w)) (Some order_id)) ->
                   active_products_by_sku (db w) (e_code entry) = []) ->
    exists w',
      process_single_order kaspi writes_back order w
      = (Ok (invoice_ok (kaspi (clock wd)) (Some order_id)), w')
      /\ db w'
         = insert_order order_id order_code status (last3 p)
                        (order_entries (kaspi (clock w)) (Some order_id))
                        (o_customer_name order, o_customer_phone order) (db w)
      /\ stock_inventory (db w') = stock_inventory (db w).
Proof.
  intros kaspi writes_back order order_id order_code status p w wd
         Hid Hcode Hstatus [Hfresh [Hp Hall]] Hdec Hinactive.
  assert (db wd = db w) as Hwd.
  { pose proof (decrement_stock_unavailable
                  writes_back (last3 p)
                  (order_entries (kaspi (clock w)) (o_id order))
                  (mkWorld (db w) (S (clock w))
                           (trace w ++ [Api (GetOrderEntries (o_id order))]))) as H.
    unfold commits_in in Hdec. rewrite Hdec in H. apply H.
    intros entry Hin. right. left. cbn [db]. apply Hinactive.
    rewrite <- Hid. exact Hin. }
  rewrite (process_single_order_after_commit kaspi writes_back order p w wd
             Hfresh Hp Hall Hdec).
  rewrite Hid, Hcode, Hstatus in *. unfold try_except.
  assert (order_exists (db wd) (Some order_id) = false) as Hfresh'
      by (rewrite Hwd; exact Hfresh).
  rewrite (bind_ok _ _ _ _ _ _ _
             (save_order_fresh order_id order_code status (last3 p) _ _ wd Hfresh')).
  rewrite (bind_ok _ _ _ _ _ _ _ (create_invoice_run kaspi (Some order_id) _)).
  cbn [clock]. rewrite Hwd.
  destruct (invoice_ok (kaspi (clock wd)) (Some order_id));
    eexists; (split; [reflexivity | split; reflexivity]).
Qed.

Lemma order_of_inactive_products_witness :
  exists w',
    process_single_order quiet_feed true order_o1 inactive_world = (Ok true, w')
    /\ order_exists (db w') (Some "o1") = true
    /\ stock_inventory (db w') = [mkStockInventory 1 1 1 10 true].
Proof.
  destruct (order_of_inactive_products_is_recorded_without_stock_movement
              quiet_feed true order_o1 "o1" "c1" "ACCEPTED_BY_MERCHANT"
              "store_PP5" inactive_world
              (snd (decrement_stock true "PP5" [mkEntry "P1" "thing" 3 100]
                      (mkWorld inactive_db 1 [Api (GetOrderEntries (Some "o1"))]))))
    as [w' [E [Hdb Hstock]]]; try reflexivity.
  - split; [reflexivity | split; [reflexivity|]].
    repeat constructor. unfold short. vm_compute. discriminate.
  - intros entry [<- | []]. reflexivity.
  - exists w'. split; [exact E | split; [|exact Hstock]].
    rewrite Hdb. reflexivity.
Defined.

Lemma stock_quantity_of_insert_order order_id order_code status stock_name products
      customer_info d product_code name :
  stock_quantity_of (insert_order order_id order_code status stock_name products
                                  customer_info d) product_code name
  = stock_quantity_of d product_code name.
Proof. reflexivity. Qed.

(** X9.  An order with a single line item, on a well-formed stock that
    holds enough of the product, is recorded with its line item, and the
    result is the answer of the invoicing call.  The stock of its location is
    left as it was: the source never commits the quantity that the commit
    pass assigns.  Only a storage that wrote the assignment back would hold
    the old quantity less the ordered one. *)
Theorem single_line_order_is_recorded_with_its_line_item :
  forall (kaspi : nat -> Kaspi) (writes_back : bool) (order : Order)
         (order_id order_code status p : string) (entry : Entry)
         (product : Product) (stock : Stock) (inventory : StockInventory) (w : World),
    o_id order = Some order_id ->
    o_code order = Some order_code ->
    o_status order = Some status ->
    o_pickupPointId order = Some p ->
    order_exists (db w) (Some order_id) = false ->
    order_entries (kaspi (clock w)) (Some order_id) = [entry] ->
    located (db w) (e_code entry) (Some (last3 p)) product stock inventory ->
    e_quantity entry <= si_quantity inventory ->
    exists w',
      process_single_order kaspi writes_back order w
      = (Ok (invoice_ok (kaspi (S (clock w))) (Some order_id)), w')
      /\ stock_quantity_of (db w') (e_code entry) (Some (last3 p))
         = (if writes_back then si_quantity inventory - e_quantity entry
            else si_quantity inventory)
      /\ order_products (db w') order_id
         = order_products (db w) order_id ++ [entry_row entry]
      /\ order_exists (db w') (Some order_id) = true.
Proof.
  intros kaspi writes_back order order_id order_code status p entry
         product stock inventory w Hid Hcode Hstatus Hp Hfresh Hentries Hloc Hq.
  pose proof (located_stock_quantity _ _ _ _ _ _ Hloc) as Hread.
  set (w1 := mkWorld (db w) (S (clock w))
                     (trace w ++ [Api (GetOrderEntries (Some order_id))])).
  set (wd := if writes_back
             then mkWorld (assign_quantity product stock
                                           (si_quantity inventory - e_quantity entry)
                                           (db w))
                          (clock w1) (trace w1)
             else w1).
  assert (passes_availability kaspi order p w) as Hpass.
  { split; [rewrite Hid; exact Hfresh | split; [exact Hp|]].
    rewrite Hid, Hentries. repeat constructor. unfold short. rewrite Hread. lia. }
  assert (commits_in kaspi writes_back order p w wd) as Hcommit.
  { unfold commits_in. rewrite Hid, Hentries. fold w1. cbn [decrement_stock].
    rewrite (bind_ok _ _ _ _ _ _ _
               (get_stock_quantity_run (e_code entry) (Some (last3 p)) false w1)).
    cbn [db w1]. rewrite Hread.
    rewrite (bind_ok _ _ _ _ _ _ _
               (update_stock_quantity_and_log_located
                  writes_back (e_code entry)
                  (si_quantity inventory - e_quantity entry) (e_quantity entry)
                  "sales" (Some (last3 p)) product stock inventory w1 Hloc
                  ltac:(lia))).
    reflexivity. }
  destruct (process_single_order_records
              kaspi writes_back order order_id order_code status p w wd
              Hid Hcode Hstatus Hpass Hcommit) as [w' [E Hdb]].
  exists w'. replace (clock wd) with (S (clock w)) in E
    by (unfold wd; destruct writes_back; reflexivity).
  split; [exact E|]. rewrite Hdb, Hentries.
  split; [|split].
  - rewrite stock_quantity_of_insert_order. unfold wd. destruct writes_back.
    + cbn [db].
      rewrite (located_stock_quantity _ _ _ _ _ _
                 (located_assign_quantity _ _ _ _ _ _ _ Hloc)).
      reflexivity.
    + exact Hread.
  - unfold order_products, insert_order. simpl.
    rewrite filter_app, map_app. simpl. rewrite String.eqb_refl.
    unfold wd. destruct writes_back; reflexivity.
  - unfold order_exists, insert_order. simpl. rewrite existsb_app. simpl.
    rewrite String.eqb_refl, orb_true_r. reflexivity.
Qed.

Lemma single_line_order_witness :
  exists w',
    process_single_order quiet_feed false order_o1 shop_world = (Ok true, w')
    /\ stock_quantity_of (db w') "P1" (Some "PP5") = 10
    /\ order_products (db w') "o1" = [("P1", 3, "thing")].
Proof.
  destruct (single_line_order_is_recorded_with_its_line_item
              quiet_feed false order_o1 "o1" "c1" "ACCEPTED_BY_MERCHANT" "store_PP5"
              (mkEntry "P1" "thing" 3 100)
              (mkProduct 1 "P1" true) (mkStock 1 "PP5" true)
              (mkStockInventory 1 1 1 10 true) shop_world)
    as [w' [E [Hq [Hp _]]]]; try reflexivity.
  - repeat split.
  - simpl. lia.
  - exists w'. split; [exact E | split; [exact Hq | exact Hp]].
Defined.

(** ** Reversal of a line item *)

Lemma get_product_id_found product_code product w :
  active_products_by_sku (db w) product_code = [product] ->
  p_id product <> 0 ->
  get_product_id product_code w = (Ok (Some (p_id product)), w).
Proof.
  intros Hp Hid. unfold get_product_id. cbn [async_retry]. unfold try_except.
  rewrite (bind_ok _ _ _ _ _ _ _
             (read_db_run _ (fun d => hd_error (map p_id (active_products_by_sku
                                                            d product_code))) w)).
  rewrite Hp. cbn [map hd_error is_falsy_id].
  apply Z.eqb_neq in Hid. rewrite Hid. reflexivity.
Qed.

Lemma process_product_cancellation_located writes_back product_code quantity
      order_id product stock inventory w :
  located (db w) product_code (stock_name_for_product (db w) product_code)
          product stock inventory ->
  p_id product <> 0 ->
  order_canceled (db w) order_id = false ->
  0 <= si_quantity inventory + quantity ->
  process_product_cancellation writes_back product_code quantity order_id w
  = (Ok tt,
     mkWorld
       (insert_canceled_order
          (mkKaspiCanceledOrder order_id (order_code_of (db w) order_id) product_code)
          (if writes_back
           then assign_quantity product stock (si_quantity inventory + quantity) (db w)
           else db w))
       (clock w) (trace w)).
Proof.
  intros Hloc Hid Hc Hq.
  unfold process_product_cancellation, try_except.
  rewrite (bind_ok _ _ _ _ _ _ _ (save_canceled_order_run order_id product_code w)).
  rewrite (bind_ok _ _ _ _ _ _ _
             (read_db_run _ (fun d => stock_name_for_product d product_code) w)).
  rewrite (bind_ok _ _ _ _ _ _ _
             (get_product_id_found product_code product w
                (located_active_products _ _ _ _ _ _ Hloc) Hid)).
  cbn [is_falsy_id]. apply Z.eqb_neq in Hid. rewrite Hid.
  rewrite (bind_ok _ _ _ _ _ _ _ (is_order_canceled_run order_id w)). rewrite Hc.
  rewrite (bind_ok _ _ _ _ _ _ _
             (get_stock_quantity_run product_code _ true w)).
  rewrite (located_stock_quantity _ _ _ _ _ _ Hloc).
  rewrite (bind_ok _ _ _ _ _ _ _
             (update_stock_quantity_and_log_located
                writes_back product_code (si_quantity inventory + quantity) quantity
                "return" _ product stock inventory w Hloc Hq)).
  destruct writes_back; reflexivity.
Qed.

Lemma resolves_to_first d product_code stock_name :
  resolves_to d product_code stock_name ->
  stock_name_for_product d product_code = Some stock_name.
Proof.
  unfold resolves_to, stock_name_for_product. intros [Hne Hall].
  destruct (stock_name_rows d product_code) as [|n l]; [contradiction|].
  inversion Hall; subst. reflexivity.
Qed.

(** X10.  The reversal of a line item is recorded, and its update is lost.
    The order is not canceled, the stock name query resolves to one location
    whichever row it returns, and the stock of that location is well-formed.
    Then [process_product_cancellation] appends one cancellation record with
    the order id, the order's code and the product code, and leaves the stock
    of the location as it was: the source never commits the update that it
    issues.  Only a storage that wrote the assignment back would hold the old
    quantity plus that of the line item. *)
Theorem line_item_reversal_is_recorded :
  forall (writes_back : bool) (product_code stock_name : string) (quantity : Z)
         (order_id : string) (product : Product) (stock : Stock)
         (inventory : StockInventory) (w : World),
    resolves_to (db w) product_code stock_name ->
    located (db w) product_code (Some stock_name) product stock inventory ->
    p_id product <> 0 ->
    order_canceled (db w) order_id = false ->
    0 <= si_quantity inventory + quantity ->
    exists w',
      process_product_cancellation writes_back product_code quantity order_id w
      = (Ok tt, w')
      /\ stock_quantity_of (db w') product_code (Some stock_name)
         = (if writes_back then si_quantity inventory + quantity
            else si_quantity inventory)
      /\ kaspi_canceled_orders (db w')
         = kaspi_canceled_orders (db w)
             ++ [mkKaspiCanceledOrder order_id (order_code_of (db w) order_id)
                                      product_code].
Proof.
  intros writes_back product_code stock_name quantity order_id product stock
         inventory w Hres Hloc Hid Hc Hq.
  pose proof (resolves_to_first _ _ _ Hres) as Hname.
  assert (located (db w) product_code (stock_name_for_product (db w) product_code)
                  product stock inventory) as Hloc'
      by (rewrite Hname; exact Hloc).
  eexists. split.
  { apply (process_product_cancellation_located
             writes_back product_code quantity order_id product stock inventory w
             Hloc' Hid Hc Hq). }
  cbn [db]. destruct writes_back.
  - split; [|reflexivity].
    apply (located_stock_quantity
             _ _ _ product stock
             (set_quantity (si_quantity inventory + quantity) inventory)).
    apply (located_assign_quantity _ _ _ _ _ _ _ Hloc).
  - split; [|reflexivity].
    apply (located_stock_quantity _ _ _ product stock inventory). exact Hloc.
Qed.

Lemma line_item_reversal_witness :
  exists w',
    process_product_cancellation false "P1" 3 "o1" fulfilled_world = (Ok tt, w')
    /\ stock_quantity_of (db w') "P1" (Some "PP5") = 10
    /\ kaspi_canceled_orders (db w') = [mkKaspiCanceledOrder "o1" "c1" "P1"].
Proof.
  destruct (line_item_reversal_is_recorded
              false "P1" "PP5" 3 "o1" (mkProduct 1 "P1" true) (mkStock 1 "PP5" true)
              (mkStockInventory 1 1 1 10 true) fulfilled_world)
    as [w' [E [Hq Hrec]]].
  - split; [discriminate | repeat constructor].
  - repeat split.
  - discriminate.
  - reflexivity.
  - simpl. lia.
  - exists w'. split; [exact E | split; [exact Hq | exact Hrec]].
Defined.

(** ** Fulfillment, then cancellation *)

Lemma filter_nil_inv A (f : A -> bool) l :
  filter f l = [] -> forall x, In x l -> f x = false.
Proof.
  induction l as [|a l IH]; simpl; [tauto|].
  destruct (f a) eqn:E; [discriminate|].
  intros H x [<- | Hin]; [exact E | apply IH; assumption].
Qed.

Lemma filter_nil_intro A (f : A -> bool) l :
  (forall x, In x l -> f x = false) -> filter f l = [].
Proof.
  induction l as [|a l IH]; simpl; [reflexivity|].
  intros H. rewrite (H a) by (left; reflexivity).
  apply IH. intros x Hin. apply H. right. exact Hin.
Qed.

Lemma order_exists_false_inv d order_id ko :
  order_exists d (Some order_id) = false ->
  In ko (kaspi_orders d) -> (ko_order_id ko =? order_id)%string = false.
Proof.
  unfold order_exists. intros H Hin.
  destruct (ko_order_id ko =? order_id)%string eqn:E; [|reflexivity].
  rewrite <- H. symmetry. apply existsb_exists. exists ko. split; assumption.
Qed.

Lemma order_products_nil_inv d order_id ksp :
  order_products d order_id = [] ->
  In ksp (kaspi_sold_products d) -> (ksp_order_id ksp =? order_id)%string = false.
Proof.
  unfold order_products. intros H Hin.
  apply (filter_nil_inv _ (fun ksp => (ksp_order_id ksp =? order_id)%string)
                        (kaspi_sold_products d)); [|exact Hin].
  destruct (filter _ (kaspi_sold_products d)); [reflexivity | discriminate].
Qed.

Lemma flat_map_pointwise A B (f g : A -> list B) l :
  (forall x, In x l -> f x = g x) -> flat_map f l = flat_map g l.
Proof.
  induction l as [|a l IH]; intros H; cbn [flat_map]; [reflexivity|].
  rewrite (H a) by (left; reflexivity).
  rewrite IH; [reflexivity|]. intros x Hin. apply H. right. exact Hin.
Qed.

(** The rows of the stock name query after a sale: those of before, then
    the one of the new line item. *)
Lemma stock_name_rows_insert_order order_id order_code status stock_name entry
      customer_info d :
  order_exists d (Some order_id) = false ->
  order_products d order_id = [] ->
  stock_name_rows
    (insert_order order_id order_code status stock_name [entry] customer_info d)
    (e_code entry)
  = stock_name_rows d (e_code entry) ++ [stock_name].
Proof.
  intros Hfresh Hnolines. unfold stock_name_rows.
  cbn [insert_order kaspi_orders kaspi_sold_products with_kaspi_sold_products
       with_kaspi_orders map].
  rewrite filter_app, flat_map_app. f_equal.
  - apply flat_map_pointwise. intros ksp Hin. apply filter_In in Hin.
    destruct Hin as [Hin _]. rewrite filter_app. cbn [filter ko_order_id].
    rewrite String.eqb_sym, (order_products_nil_inv _ _ _ Hnolines Hin).
    rewrite app_nil_r. reflexivity.
  - cbn [filter sold_product_of ksp_product_code]. rewrite String.eqb_refl.
    cbn [flat_map]. rewrite filter_app.
    change (ksp_order_id (sold_product_of order_id order_code customer_info entry))
      with order_id.
    rewrite (filter_nil_intro _ (fun ko => (ko_order_id ko =? order_id)%string)
                              (kaspi_orders d))
      by (intros ko Hin; apply (order_exists_false_inv _ _ _ Hfresh Hin)).
    cbn [filter ko_order_id app]. rewrite String.eqb_refl. reflexivity.
Qed.

(** X11.  An order with a single line item is fulfilled on a well-formed
    stock and then canceled; every earlier sale of the product was from the
    same location.  After the two steps the order is recorded and marked
    canceled, one cancellation record is added, and the stock of the location
    is what it was.  In the source it never moves: neither the quantity that
    the fulfillment assigns nor the one that the cancellation assigns is
    committed.  A storage that wrote them back would take the ordered quantity
    and give it back. *)
Theorem fulfilled_then_canceled_order_leaves_the_stock :
  forall (kaspi : nat -> Kaspi) (writes_back : bool) (order : Order)
         (order_id order_code status p : string) (entry : Entry)
         (product : Product) (stock : Stock) (inventory : StockInventory) (w : World),
    o_id order = Some order_id ->
    order_id <> "" ->
    o_code order = Some order_code ->
    o_status order = Some status ->
    o_pickupPointId order = Some p ->
    order_exists (db w) (Some order_id) = false ->
    order_products (db w) order_id = [] ->
    Forall (eq (last3 p)) (stock_name_rows (db w) (e_code entry)) ->
    order_entries (kaspi (clock w)) (Some order_id) = [entry] ->
    located (db w) (e_code entry) (Some (last3 p)) product stock inventory ->
    p_id product <> 0 ->
    0 <= e_quantity entry <= si_quantity inventory ->
    exists b w1 w2,
      process_single_order kaspi writes_back order w = (Ok b, w1)
      /\ cancel_single_order writes_back order w1 = (Ok tt, w2)
      /\ stock_quantity_of (db w1) (e_code entry) (Some (last3 p))
         = (if writes_back then si_quantity inventory - e_quantity entry
            else si_quantity inventory)
      /\ stock_quantity_of (db w2) (e_code entry) (Some (last3 p))
         = si_quantity inventory
      /\ order_canceled (db w2) order_id = true
      /\ kaspi_canceled_orders (db w2)
         = kaspi_canceled_orders (db w)
             ++ [mkKaspiCanceledOrder order_id order_code (e_code entry)].
Proof.
  intros kaspi writes_back order order_id order_code status p entry
         product stock inventory w
         Hid Htruthy Hcode Hstatus Hp Hfresh Hnolines Hsame Hentries Hloc Hpid Hq.
  pose proof (located_stock_quantity _ _ _ _ _ _ Hloc) as Hread.
  set (w0 := mkWorld (db w) (S (clock w))
                     (trace w ++ [Api (GetOrderEntries (Some order_id))])).
  set (taken := if writes_back then si_quantity inventory - e_quantity entry
                else si_quantity inventory).
  set (dd := if writes_back
             then assign_quantity product stock
                                  (si_quantity inventory - e_quantity entry) (db w)
             else db w).
  set (wd := mkWorld dd (clock w0) (trace w0)).
  assert (located dd (e_code entry) (Some (last3 p)) product stock
                  (set_quantity taken inventory)) as Hlocd.
  { unfold dd, taken. destruct writes_back.
    - apply located_assign_quantity, Hloc.
    - destruct inventory. exact Hloc. }
  assert (passes_availability kaspi order p w) as Hpass.
  { split; [rewrite Hid; exact Hfresh | split; [exact Hp|]].
    rewrite Hid, Hentries. repeat constructor. unfold short. rewrite Hread. lia. }
  assert (commits_in kaspi writes_back order p w wd) as Hcommit.
  { unfold commits_in. rewrite Hid, Hentries. fold w0. cbn [decrement_stock].
    rewrite (bind_ok _ _ _ _ _ _ _
               (get_stock_quantity_run (e_code entry) (Some (last3 p)) false w0)).
    cbn [db w0]. rewrite Hread.
    rewrite (bind_ok _ _ _ _ _ _ _
               (update_stock_quantity_and_log_located
                  writes_back (e_code entry)
                  (si_quantity inventory - e_quantity entry) (e_quantity entry)
                  "sales" (Some (last3 p)) product stock inventory w0 Hloc
                  ltac:(lia))).
    unfold wd, dd. destruct writes_back; reflexivity. }
  destruct (process_single_order_records
              kaspi writes_back order order_id order_code status p w wd
              Hid Hcode Hstatus Hpass Hcommit) as [w1 [E1 Hdb1]].
  rewrite Hentries in Hdb1. cbn [db wd] in Hdb1.
  destruct (cancel_single_order_ok writes_back order w1) as [w2 E2].
  pose proof (cancel_single_order_db writes_back order w1) as Hdb2.
  rewrite E2 in Hdb2. cbn [snd] in Hdb2.
  assert (order_exists dd (Some order_id) = false) as Hfreshd
      by (unfold dd; destruct writes_back; exact Hfresh).
  assert (order_products dd order_id = []) as Hnolinesd
      by (unfold dd; destruct writes_back; exact Hnolines).
  assert (Forall (eq (last3 p)) (stock_name_rows dd (e_code entry))) as Hsamed
      by (unfold dd; destruct writes_back; exact Hsame).
  assert (kaspi_canceled_orders dd = kaspi_canceled_orders (db w)) as Hcand
      by (unfold dd; destruct writes_back; reflexivity).
  assert (order_exists (db w1) (Some order_id) = true) as Hex1.
  { rewrite Hdb1. unfold order_exists, insert_order. simpl. rewrite existsb_app.
    simpl. rewrite String.eqb_refl, orb_true_r. reflexivity. }
  assert (order_rows (db w1) order_id
          = [mkKaspiOrder order_id order_code (last3 p) status false false false])
    as Hrows1 by (rewrite Hdb1; apply order_rows_insert_order, Hfreshd).
  assert (order_products (db w1) order_id = [entry_row entry]) as Hlines1.
  { rewrite Hdb1. unfold order_products, insert_order. simpl.
    rewrite filter_app, map_app. fold (order_products dd order_id).
    rewrite Hnolinesd. simpl. rewrite String.eqb_refl. reflexivity. }
  assert (resolves_to (db w1) (e_code entry) (last3 p)) as Hres1.
  { unfold resolves_to. rewrite Hdb1.
    rewrite stock_name_rows_insert_order by assumption. split.
    - intros H. apply app_eq_nil in H. destruct H as [_ H]. discriminate.
    - apply Forall_app. split; [exact Hsamed | repeat constructor]. }
  pose proof (resolves_to_first _ _ _ Hres1) as Hname1.
  assert (located (db w1) (e_code entry)
                  (stock_name_for_product (db w1) (e_code entry))
                  product stock (set_quantity taken inventory)) as Hloc1.
  { rewrite Hname1, Hdb1. exact Hlocd. }
  assert (truthy (Some order_id) = true) as Ht.
  { destruct order_id; [contradiction Htruthy; reflexivity | reflexivity]. }
  unfold db_after_cancel in Hdb2.
  rewrite Hid, Ht, Hex1, Hlines1 in Hdb2.
  unfold order_canceled in Hdb2 at 1. rewrite Hrows1 in Hdb2.
  cbn [ko_is_canceled negb andb nonempty entry_row cancel_products] in Hdb2.
  unfold bind at 1 in Hdb2.
  rewrite (process_product_cancellation_located
             writes_back (e_code entry) (e_quantity entry) order_id
             product stock (set_quantity taken inventory) w1 Hloc1 Hpid) in Hdb2.
  2: { unfold order_canceled. rewrite Hrows1. reflexivity. }
  2: { unfold taken. cbn [set_quantity si_quantity]. destruct writes_back; lia. }
  cbn [ret db] in Hdb2. unfold order_code_of in Hdb2. rewrite Hrows1 in Hdb2.
  cbn [ko_order_code set_quantity si_quantity] in Hdb2.
  eexists. exists w1, w2. split; [exact E1 | split; [exact E2|]].
  split; [|split; [|split]].
  - rewrite Hdb1, stock_quantity_of_insert_order.
    rewrite (located_stock_quantity _ _ _ _ _ _ Hlocd). reflexivity.
  - rewrite Hdb2. rewrite Hname1 in Hloc1.
    change (stock_quantity_of
              (if writes_back
               then assign_quantity product stock (taken + e_quantity entry) (db w1)
               else db w1)
              (e_code entry) (Some (last3 p)) = si_quantity inventory).
    destruct writes_back.
    + rewrite (located_stock_quantity _ _ _ _ _ _
                 (located_assign_quantity _ _ _ _ _ _ _ Hloc1)).
      unfold taken. cbn [set_quantity si_quantity]. lia.
    + rewrite (located_stock_quantity _ _ _ _ _ _ Hloc1). reflexivity.
  - rewrite Hdb2. apply order_canceled_after_mark.
    destruct writes_back; exact Hex1.
  - rewrite Hdb2. cbn [update_orders insert_canceled_order kaspi_canceled_orders
                       with_kaspi_orders with_kaspi_canceled_orders].
    rewrite <- Hcand.
    destruct writes_back; rewrite Hdb1; reflexivity.
Qed.

Lemma fulfilled_then_canceled_order_witness :
  exists b w1 w2,
    process_single_order quiet_feed false order_o1 shop_world = (Ok b, w1)
    /\ cancel_single_order false order_o1 w1 = (Ok tt, w2)
    /\ stock_quantity_of (db w1) "P1" (Some "PP5") = 10
    /\ stock_quantity_of (db w2) "P1" (Some "PP5") = 10
    /\ order_canceled (db w2) "o1" = true
    /\ kaspi_canceled_orders (db w2) = [mkKaspiCanceledOrder "o1" "c1" "P1"].
Proof.
  destruct (fulfilled_then_canceled_order_leaves_the_stock
              quiet_feed false order_o1 "o1" "c1" "ACCEPTED_BY_MERCHANT" "store_PP5"
              (mkEntry "P1" "thing" 3 100)
              (mkProduct 1 "P1" true) (mkStock 1 "PP5" true)
              (mkStockInventory 1 1 1 10 true) shop_world)
    as [b [w1 [w2 [E1 [E2 [H1 [H2 [H3 H4]]]]]]]]; try reflexivity.
  - discriminate.
  - constructor.
  - repeat split.
  - discriminate.
  - simpl. lia.
  - exists b, w1, w2. repeat split; assumption.
Defined.

(** ** Acceptance of new orders *)

Lemma accept_loop_run kaspi order_id order_code success failed w :
  let n := refusals kaspi order_id order_code (clock w) 3 in
  let calls := Nat.min (S n) 3 in
  accept_loop kaspi 3 order_id order_code (O, success, failed) w
  = (Ok (n,
         if (n <? 3)%nat then success ++ [order_id] else success,
         if (n <? 3)%nat then failed else failed ++ [order_id]),
     mkWorld (db w) (clock w + calls)
             (trace w
                ++ repeat (Api (AcceptOrder order_id order_code)) calls
                ++ (if (n <? 3)%nat then []
                    else [Log ERROR (TextFor "could not accept order"
                                             (Some order_id))]))).
Proof.
  cbn [refusals].
  destruct (accept_ok (kaspi (clock w)) order_id order_code) eqn:E0;
    [|destruct (accept_ok (kaspi (S (clock w))) order_id order_code) eqn:E1;
      [|destruct (accept_ok (kaspi (S (S (clock w)))) order_id order_code) eqn:E2]];
    repeat (progress (unfold try_except, bind, api, ret, accept_once, logger, emit;
                      cbn; rewrite ?E0, ?E1, ?E2));
    rewrite <- ?app_assoc; repeat f_equal; lia.
Qed.

(** X12.  The accept loop of [process_new_orders] tries an order at most
    three times and stops at the first acceptance.  With [n] the number of
    refusals in a row from the current clock on, it makes [min (n + 1) 3]
    accept calls; the order id goes to [success] when [n < 3], and to
    [failed], with an error line, when the marketplace refused three times.
    The database is not touched. *)
Theorem accept_loop_stops_at_first_acceptance :
  forall (kaspi : nat -> Kaspi) (order_id order_code : string)
         (success failed : list string) (w : World),
    let n := refusals kaspi order_id order_code (clock w) 3 in
    let calls := Nat.min (S n) 3 in
    accept_loop kaspi (S max_retries) order_id order_code (O, success, failed) w
    = (Ok (n,
           if (n <? 3)%nat then success ++ [order_id] else success,
           if (n <? 3)%nat then failed else failed ++ [order_id]),
       mkWorld (db w) (clock w + calls)
               (trace w
                  ++ repeat (Api (AcceptOrder order_id order_code)) calls
                  ++ (if (n <? 3)%nat then []
                      else [Log ERROR (TextFor "could not accept order"
                                               (Some order_id))]))).
Proof.
  intros kaspi order_id order_code success failed w.
  apply accept_loop_run.
Qed.

Lemma accept_calls_app t1 t2 :
  accept_calls (t1 ++ t2) = accept_calls t1 ++ accept_calls t2.
Proof. unfold accept_calls. apply flat_map_app. Qed.

Lemma accept_calls_repeat order_id order_code k :
  accept_calls (repeat (Api (AcceptOrder order_id order_code)) k)
  = repeat (order_id, order_code) k.
Proof.
  induction k as [|k IH]; [reflexivity|].
  cbn [repeat]. change (accept_calls (?a :: ?l)) with (accept_calls [a] ++ accept_calls l).
  rewrite IH. reflexivity.
Qed.

Lemma accept_loop_summary kaspi order_id order_code success failed w :
  exists n s f t w',
    accept_loop kaspi 3 order_id order_code (O, success, failed) w
    = (Ok (n, success ++ s, failed ++ f), w')
    /\ db w' = db w
    /\ trace w' = trace w ++ t
    /\ Permutation (s ++ f) [order_id]
    /\ (forall call, In call (accept_calls t) -> call = (order_id, order_code))
    /\ (1 <= List.length (accept_calls t) <= 3)%nat.
Proof.
  pose proof (accept_loop_run kaspi order_id order_code success failed w) as E.
  cbv zeta in E.
  set (n := refusals kaspi order_id order_code (clock w) 3) in *.
  assert (forall k tail,
             (forall call, In call (accept_calls tail) -> False) ->
             forall call,
               In call (accept_calls
                          (repeat (Api (AcceptOrder order_id order_code)) k ++ tail)) ->
               call = (order_id, order_code)) as Hcalls.
  { intros k tail Htail call. rewrite accept_calls_app, accept_calls_repeat.
    intros Hin. apply in_app_or in Hin. destruct Hin as [Hin | Hin].
    - apply repeat_spec in Hin. exact Hin.
    - destruct (Htail call Hin). }
  assert (forall k tail,
             accept_calls tail = [] ->
             List.length (accept_calls
                       (repeat (Api (AcceptOrder order_id order_code)) k ++ tail)) = k)
    as Hlen.
  { intros k tail Htail.
    rewrite accept_calls_app, accept_calls_repeat, Htail, app_nil_r.
    apply repeat_length. }
  destruct (n <? 3)%nat eqn:En.
  - exists n, [order_id], []. do 2 eexists. rewrite app_nil_r.
    split; [exact E | split; [reflexivity | split; [reflexivity|]]].
    split; [apply Permutation_refl|].
    split; [apply Hcalls; intros call []|].
    rewrite Hlen by reflexivity. lia.
  - exists n, [], [order_id]. do 2 eexists. rewrite app_nil_r.
    split; [exact E | split; [reflexivity | split; [reflexivity|]]].
    split; [apply Permutation_refl|].
    split; [apply Hcalls; intros call []|].
    rewrite Hlen by reflexivity. lia.
Qed.

Lemma accept_new_orders_run kaspi orders acc w :
  exists succeeded failed t w',
    accept_new_orders kaspi orders acc w
    = (Ok (mkNewOrdersResult
             (nr_processed acc + List.length (filter acceptable orders))
             (nr_success acc ++ succeeded)
             (nr_failed acc ++ failed)
             (nr_skipped acc
                ++ map skipped_entry
                       (filter (fun order => negb (acceptable order)) orders))),
       w')
    /\ db w' = db w
    /\ trace w' = trace w ++ t
    /\ Permutation (map Some (succeeded ++ failed))
                   (map o_id (filter acceptable orders))
    /\ (forall call,
           In call (accept_calls t) ->
           exists order, In order orders /\ acceptable order = true
                         /\ o_id order = Some (fst call)
                         /\ o_code order = Some (snd call))
    /\ (List.length (filter acceptable orders) <= List.length (accept_calls t)
        <= 3 * List.length (filter acceptable orders))%nat.
Proof.
  revert acc w. induction orders as [|order rest IH]; intros acc w.
  - exists [], [], [], w. cbn [accept_new_orders filter map List.length].
    rewrite !app_nil_r, Nat.add_0_r. destruct acc.
    split; [reflexivity | split; [reflexivity | split; [reflexivity|]]].
    split; [constructor | split; [intros call [] | simpl; lia]].
  - assert (forall entry w0 log,
               acceptable order = false ->
               skipped_entry order = entry ->
               db w0 = db w ->
               trace w0 = trace w ++ log ->
               accept_calls log = [] ->
               exists succeeded failed t w',
                 accept_new_orders kaspi rest
                   (mkNewOrdersResult (nr_processed acc) (nr_success acc)
                                      (nr_failed acc) (nr_skipped acc ++ [entry]))
                   w0
                 = (Ok (mkNewOrdersResult
                          (nr_processed acc
                           + List.length (filter acceptable (order :: rest)))
                          (nr_success acc ++ succeeded)
                          (nr_failed acc ++ failed)
                          (nr_skipped acc
                             ++ map skipped_entry
                                    (filter (fun o => negb (acceptable o))
                                            (order :: rest)))),
                    w')
                 /\ db w' = db w
                 /\ trace w' = trace w ++ t
                 /\ Permutation (map Some (succeeded ++ failed))
                                (map o_id (filter acceptable (order :: rest)))
                 /\ (forall call,
                        In call (accept_calls t) ->
                        exists o, In o (order :: rest) /\ acceptable o = true
                                  /\ o_id o = Some (fst call)
                                  /\ o_code o = Some (snd call))
                 /\ (List.length (filter acceptable (order :: rest))
                     <= List.length (accept_calls t)
                     <= 3 * List.length (filter acceptable (order :: rest)))%nat)
      as Hskip.
    { intros entry w0 log Hacc Hentry Hdb0 Ht0 Hlog.
      destruct (IH (mkNewOrdersResult (nr_processed acc) (nr_success acc)
                                      (nr_failed acc) (nr_skipped acc ++ [entry]))
                   w0)
        as [succeeded [failed [t [w' [E [Hdb [Ht [Hperm [Hcalls Hlen]]]]]]]]].
      exists succeeded, failed, (log ++ t), w'.
      cbn [filter]. rewrite Hacc. cbn [negb map]. rewrite Hentry.
      cbn [nr_processed nr_success nr_failed nr_skipped] in *.
      rewrite <- app_assoc in E. rewrite accept_calls_app, Hlog. cbn [app].
      split; [exact E | split; [rewrite Hdb; exact Hdb0|]].
      split; [rewrite Ht, Ht0, app_assoc; reflexivity|].
      split; [exact Hperm | split; [|exact Hlen]].
      intros call Hin. destruct (Hcalls call Hin) as [o [Ho H]].
      exists o. split; [right; exact Ho | exact H]. }
    cbn [accept_new_orders].
    destruct (o_id order) as [order_id|] eqn:Eid.
    2: { unfold bind at 1. rewrite logger_run.
         apply Hskip with
           (log := [Log WARNING (TextFor "skipped order without id or code"
                                         (@None string))]);
           try reflexivity.
         - unfold acceptable. rewrite Eid. reflexivity.
         - unfold skipped_entry. rewrite Eid. reflexivity. }
    destruct (o_code order) as [order_code|] eqn:Ecode.
    2: { unfold bind at 1. rewrite logger_run.
         apply Hskip with
           (log := [Log WARNING (TextFor "skipped order without id or code"
                                         (Some order_id))]);
           try reflexivity.
         - unfold acceptable. rewrite Eid, Ecode.
           cbn [truthy]. rewrite andb_false_r. reflexivity.
         - unfold skipped_entry. rewrite Eid, Ecode.
           cbn [truthy]. rewrite andb_false_r. reflexivity. }
    destruct (truthy (Some order_id) && truthy (Some order_code)) eqn:Ekeys.
    2: { replace (negb (truthy (Some order_id)) || negb (truthy (Some order_code)))
           with true
           by (destruct (truthy (Some order_id)), (truthy (Some order_code));
               try reflexivity; discriminate).
         unfold bind at 1. rewrite logger_run.
         apply Hskip with
           (log := [Log WARNING (TextFor "skipped order without id or code"
                                         (Some order_id))]);
           try reflexivity.
         - unfold acceptable. rewrite Eid, Ecode, Ekeys. reflexivity.
         - unfold skipped_entry. rewrite Eid, Ecode, Ekeys. reflexivity. }
    replace (negb (truthy (Some order_id)) || negb (truthy (Some order_code)))
      with false
      by (destruct (truthy (Some order_id)), (truthy (Some order_code));
          try reflexivity; discriminate).
    destruct (truthy (o_status order)
              && negb (match o_status order with
                       | Some st => (st =? "APPROVED_BY_BANK")%string
                       | None => false
                       end)) eqn:Estatus.
    + apply Hskip with (log := @nil Event); try reflexivity.
      * unfold acceptable. rewrite Estatus, andb_false_r. reflexivity.
      * unfold skipped_entry. rewrite Eid, Ecode, Ekeys. reflexivity.
      * rewrite app_nil_r. reflexivity.
    + assert (acceptable order = true) as Hacc.
      { unfold acceptable. rewrite Estatus, Eid, Ecode, Ekeys. reflexivity. }
      destruct (accept_loop_summary kaspi order_id order_code
                                    (nr_success acc) (nr_failed acc) w)
        as [n [s [f [t1 [w1 [E1 [Hdb1 [Ht1 [Hperm1 [Hcalls1 Hlen1]]]]]]]]]].
      unfold bind at 1. change (S max_retries) with 3%nat. rewrite E1.
      destruct (IH (mkNewOrdersResult (S (nr_processed acc)) (nr_success acc ++ s)
                                      (nr_failed acc ++ f) (nr_skipped acc)) w1)
        as [succeeded [failed [t [w' [E [Hdb [Ht [Hperm [Hcalls Hlen]]]]]]]]].
      cbn [nr_processed nr_success nr_failed nr_skipped] in E.
      exists (s ++ succeeded), (f ++ failed), (t1 ++ t), w'.
      cbn [filter]. rewrite Hacc. cbn [negb List.length map].
      split; [rewrite E, <- !app_assoc, Nat.add_succ_r; reflexivity|].
      split; [rewrite Hdb; exact Hdb1|].
      split; [rewrite Ht, Ht1, app_assoc; reflexivity|].
      split; [|split].
      * rewrite Eid.
        assert (Permutation ((s ++ succeeded) ++ f ++ failed)
                            ((s ++ f) ++ succeeded ++ failed)) as Hp.
        { rewrite <- !app_assoc. apply Permutation_app_head.
          rewrite !app_assoc. apply Permutation_app_tail.
          apply Permutation_app_comm. }
        eapply Permutation_trans; [apply Permutation_map, Hp|].
        rewrite map_app.
        change (Some order_id :: map o_id (filter acceptable rest))
          with (map Some [order_id] ++ map o_id (filter acceptable rest)).
        apply Permutation_app; [apply Permutation_map, Hperm1 | exact Hperm].
      * intros call Hin. rewrite accept_calls_app in Hin.
        apply in_app_or in Hin. destruct Hin as [Hin | Hin].
        -- apply Hcalls1 in Hin. subst call. exists order.
           split; [left; reflexivity | split; [exact Hacc|]].
           split; assumption.
        -- destruct (Hcalls call Hin) as [o [Ho H]].
           exists o. split; [right; exact Ho | exact H].
      * rewrite accept_calls_app, length_app. lia.
Qed.

Lemma get_new_orders_run kaspi w :
  get_new_orders kaspi w
  = (Ok (new_orders (kaspi (clock w))),
     mkWorld (db w) (S (clock w)) (trace w ++ [Api GetNewOrders])).
Proof. reflexivity. Qed.

Lemma process_new_orders_run kaspi w :
  exists r t w',
    process_new_orders kaspi w = (Ok r, w')
    /\ db w' = db w
    /\ trace w' = trace w ++ t
    /\ nr_processed r = List.length (filter acceptable (new_orders (kaspi (clock w))))
    /\ Permutation (map Some (nr_success r ++ nr_failed r))
                   (map o_id (filter acceptable (new_orders (kaspi (clock w)))))
    /\ nr_skipped r
       = map skipped_entry
             (filter (fun order => negb (acceptable order))
                     (new_orders (kaspi (clock w))))
    /\ (forall call,
           In call (accept_calls t) ->
           exists order,
             In order (new_orders (kaspi (clock w))) /\ acceptable order = true
             /\ o_id order = Some (fst call) /\ o_code order = Some (snd call))
    /\ (nr_processed r <= List.length (accept_calls t) <= 3 * nr_processed r)%nat.
Proof.
  unfold process_new_orders, try_except.
  rewrite (bind_ok _ _ _ _ _ _ _ (get_new_orders_run kaspi w)).
  set (w0 := mkWorld (db w) (S (clock w)) (trace w ++ [Api GetNewOrders])).
  destruct (new_orders (kaspi (clock w))) as [|order rest] eqn:Eorders.
  - exists empty_new_orders_result, [Api GetNewOrders], w0. cbn.
    repeat split; try constructor; try lia; intros call [].
  - cbn [nonempty negb]. rewrite <- Eorders.
    destruct (accept_new_orders_run kaspi (new_orders (kaspi (clock w)))
                                    empty_new_orders_result w0)
      as [succeeded [failed [t [w1 [E [Hdb [Ht [Hperm [Hcalls Hlen]]]]]]]]].
    cbn [empty_new_orders_result nr_processed nr_success nr_failed nr_skipped
         app Nat.add] in E.
    rewrite (bind_ok _ _ _ _ _ _ _ E). cbn [nr_failed].
    assert (accept_calls ([Api GetNewOrders] ++ t) = accept_calls t) as Hfirst
        by reflexivity.
    destruct (nonempty failed).
    + rewrite (bind_ok _ _ _ _ _ _ _ (logger_run _ _ _)). unfold ret.
      eexists. exists ([Api GetNewOrders] ++ t ++ [Log WARNING
                                                    (Text "could not accept some orders")]).
      eexists.
      split; [reflexivity|]. cbn [db trace nr_processed nr_success nr_failed nr_skipped].
      split; [exact Hdb|].
      split; [rewrite Ht; unfold w0; cbn [trace]; rewrite <- !app_assoc; reflexivity|].
      split; [reflexivity | split; [exact Hperm | split; [reflexivity|]]].
      rewrite app_assoc, accept_calls_app, Hfirst. cbn [accept_calls flat_map].
      rewrite app_nil_r. split; assumption.
    + rewrite (bind_ok _ _ _ _ _ tt w1) by reflexivity. unfold ret.
      eexists. exists ([Api GetNewOrders] ++ t), w1.
      split; [reflexivity|]. cbn [db trace nr_processed nr_success nr_failed nr_skipped].
      split; [exact Hdb|].
      split; [rewrite Ht; unfold w0; cbn [trace]; rewrite <- !app_assoc; reflexivity|].
      split; [reflexivity | split; [exact Hperm | split; [reflexivity|]]].
      rewrite Hfirst. split; assumption.
Qed.

(** X13.  [process_new_orders] always returns, without touching the
    database.  The orders that it counts as processed are the orders of the
    page that have an id and a code and whose status is absent or
    [APPROVED_BY_BANK]; each of them ends in [success] or in [failed], once.
    Every other order of the page ends in [skipped], in the order of the
    page. *)
Theorem process_new_orders_partitions_the_page :
  forall (kaspi : nat -> Kaspi) (w : World),
  exists r w',
    process_new_orders kaspi w = (Ok r, w')
    /\ db w' = db w
    /\ nr_processed r = List.length (filter acceptable (new_orders (kaspi (clock w))))
    /\ Permutation (map Some (nr_success r ++ nr_failed r))
                   (map o_id (filter acceptable (new_orders (kaspi (clock w)))))
    /\ nr_skipped r
       = map skipped_entry
             (filter (fun order => negb (acceptable order))
                     (new_orders (kaspi (clock w)))).
Proof.
  intros kaspi w.
  destruct (process_new_orders_run kaspi w)
    as [r [t [w' [E [Hdb [_ [Hn [Hperm [Hskipped _]]]]]]]]].
  exists r, w'. repeat split; assumption.
Qed.

(** X14.  [process_new_orders] sends an accept call only for an order of
    the page that has an id and a code and whose status is absent or
    [APPROVED_BY_BANK], with that id and code; the number of its accept calls
    is at least the number of orders that it counts as processed and at most
    three times that number. *)
Theorem process_new_orders_accept_calls :
  forall (kaspi : nat -> Kaspi) (w : World),
  exists r t w',
    process_new_orders kaspi w = (Ok r, w')
    /\ trace w' = trace w ++ t
    /\ (forall order_id order_code,
           In (order_id, order_code) (accept_calls t) ->
           exists order,
             In order (new_orders (kaspi (clock w))) /\ acceptable order = true
             /\ o_id order = Some order_id /\ o_code order = Some order_code)
    /\ (nr_processed r <= List.length (accept_calls t) <= 3 * nr_processed r)%nat.
Proof.
  intros kaspi w.
  destruct (process_new_orders_run kaspi w)
    as [r [t [w' [E [_ [Ht [_ [_ [_ [Hcalls Hlen]]]]]]]]]].
  exists r, t, w'. split; [exact E | split; [exact Ht | split; [|exact Hlen]]].
  intros order_id order_code Hin. apply (Hcalls _ Hin).
Qed.

Lemma process_new_orders_accept_calls_witness :
  exists order,
    In order (new_orders (mixed_feed 0)) /\ acceptable order = true
    /\ o_id order = Some "n2" /\ o_code order = Some "k2".
Proof.
  destruct (process_new_orders_accept_calls mixed_feed shop_world)
    as [r [t [w' [E [Ht [Hcalls _]]]]]].
  vm_compute in E. injection E as _ Ew. subst w'. cbn in Ht. subst t.
  apply (Hcalls "n2" "k2"). cbn. right. left. reflexivity.
Defined.


(** ** Records are kept *)

Lemma Forall2_diag A (R : A -> A -> Prop) l :
  (forall x, R x x) -> Forall2 R l l.
Proof. intros H. induction l; constructor; auto. Qed.

Lemma Forall2_compose A (R : A -> A -> Prop) l1 l2 l3 :
  (forall x y z, R x y -> R y z -> R x z) ->
  Forall2 R l1 l2 -> Forall2 R l2 l3 -> Forall2 R l1 l3.
Proof.
  intros HR H12. revert l3. induction H12 as [|x y l1 l2 Hxy _ IH]; intros l3 H23.
  - inversion H23. constructor.
  - inversion H23 as [|y' z l2' l3' Hyz Hrest]; subst. constructor.
    + eapply HR; eassumption.
    + apply IH, Hrest.
Qed.

Lemma grown_refl A (kept : A -> A -> Prop) l :
  (forall x, kept x x) -> grown kept l l.
Proof.
  intros H. exists l, []. rewrite app_nil_r.
  split; [reflexivity | apply Forall2_diag, H].
Qed.

Lemma grown_trans A (kept : A -> A -> Prop) l1 l2 l3 :
  (forall x y z, kept x y -> kept y z -> kept x z) ->
  grown kept l1 l2 -> grown kept l2 l3 -> grown kept l1 l3.
Proof.
  intros HR [k2 [a2 [E2 F2]]] [k3 [a3 [E3 F3]]]. subst l2 l3.
  apply Forall2_app_inv_l in F3. destruct F3 as [k3a [k3b [Fa [Fb ->]]]].
  exists k3a, (k3b ++ a3). rewrite app_assoc.
  split; [reflexivity | eapply Forall2_compose; eassumption].
Qed.

Lemma grown_app A (kept : A -> A -> Prop) l added :
  (forall x, kept x x) -> grown kept l (l ++ added).
Proof.
  intros H. exists l, added. split; [reflexivity | apply Forall2_diag, H].
Qed.

Lemma grown_map A (kept : A -> A -> Prop) (f : A -> A) l :
  (forall x, kept x (f x)) -> grown kept l (map f l).
Proof.
  intros H. exists (map f l), []. rewrite app_nil_r. split; [reflexivity|].
  induction l; constructor; auto.
Qed.

Lemma header_kept_refl ko : header_kept ko ko.
Proof. unfold header_kept. tauto. Qed.

Lemma header_kept_trans ko1 ko2 ko3 :
  header_kept ko1 ko2 -> header_kept ko2 ko3 -> header_kept ko1 ko3.
Proof.
  unfold header_kept.
  intros [A1 [A2 [A3 [A4 [A5 [A6 A7]]]]]] [B1 [B2 [B3 [B4 [B5 [B6 B7]]]]]].
  repeat split; try congruence; auto.
Qed.

Lemma line_kept_refl ksp : line_kept ksp ksp.
Proof. left. reflexivity. Qed.

Lemma line_kept_trans k1 k2 k3 : line_kept k1 k2 -> line_kept k2 k3 -> line_kept k1 k3.
Proof.
  intros [-> | [wb1 ->]] [-> | [wb2 ->]].
  - left. reflexivity.
  - right. exists wb2. reflexivity.
  - right. exists wb1. reflexivity.
  - right. exists wb2. reflexivity.
Qed.

#[export] Instance keeps_records_preorder : PreOrder keeps_records.
Proof.
  split.
  - intros w. unfold keeps_records.
    split; [reflexivity | split; [reflexivity|]].
    split; [apply grown_refl, header_kept_refl|].
    split; [apply grown_refl, line_kept_refl | apply grown_refl; reflexivity].
  - intros w1 w2 w3 [A1 [A2 [A3 [A4 A5]]]] [B1 [B2 [B3 [B4 B5]]]].
    unfold keeps_records.
    split; [congruence | split; [congruence|]].
    split; [eapply grown_trans; [apply header_kept_trans | eassumption..]|].
    split; [eapply grown_trans; [apply line_kept_trans | eassumption..]|].
    eapply grown_trans; [|eassumption..]. intros; congruence.
Qed.

#[export] Instance keeps_records_ambient : Ambient any_event keeps_records.
Proof.
  split; [exact _ |]. intros w c t _.
  change (keeps_records w w). reflexivity.
Qed.

Lemma grown_update_orders order_id f d :
  (forall ko, header_kept ko (f ko)) ->
  grown header_kept (kaspi_orders d) (kaspi_orders (update_orders order_id f d)).
Proof.
  intros Hf. cbn [update_orders kaspi_orders with_kaspi_orders].
  apply grown_map. intros ko.
  destruct (ko_order_id ko =? order_id)%string; [apply Hf | apply header_kept_refl].
Qed.

Lemma grown_update_waybill order_id waybill d :
  grown line_kept (kaspi_sold_products d)
        (kaspi_sold_products (update_waybill order_id waybill d)).
Proof.
  cbn [update_waybill kaspi_sold_products with_kaspi_sold_products].
  apply grown_map. intros ksp.
  destruct (ksp_order_id ksp =? order_id)%string;
    [right; exists waybill; reflexivity | apply line_kept_refl].
Qed.

Lemma header_kept_set_canceled ko : header_kept ko (set_canceled ko).
Proof. unfold header_kept, set_canceled. cbn. tauto. Qed.

Lemma header_kept_set_invoice_generated ko :
  header_kept ko (set_invoice_generated ko).
Proof. unfold header_kept, set_invoice_generated. cbn. tauto. Qed.

#[export] Instance keeps_records_invariant : Invariant any_event keeps_records.
Proof.
  split; [exact _ |].
  intros f Hf w. unfold keeps_records.
  destruct Hf; cbn [snd write_db db];
    (split; [reflexivity | split; [reflexivity|]]).
  - split; [apply grown_refl, header_kept_refl|].
    split; [apply grown_refl, line_kept_refl | apply grown_refl; reflexivity].
  - split; [apply grown_app, header_kept_refl|].
    split; [apply grown_app, line_kept_refl | apply grown_refl; reflexivity].
  - split; [apply grown_update_orders, header_kept_set_canceled|].
    split; [apply grown_refl, line_kept_refl | apply grown_refl; reflexivity].
  - split; [apply grown_update_orders, header_kept_set_invoice_generated|].
    split; [apply grown_refl, line_kept_refl | apply grown_refl; reflexivity].
  - split; [apply (grown_update_orders order_id set_invoice_generated
                                       (update_waybill order_id waybill (db w))),
            header_kept_set_invoice_generated|].
    split; [apply grown_update_waybill | apply grown_refl; reflexivity].
  - split; [apply grown_refl, header_kept_refl|].
    split; [apply grown_refl, line_kept_refl|].
    apply grown_app. reflexivity.
Qed.

Lemma run_operations_keeps_records kaspi writes_back ops w :
  keeps_records w (run_operations kaspi writes_back ops w).
Proof.
  revert w. induction ops as [|op rest IH]; intros w; simpl.
  - reflexivity.
  - etransitivity; [|apply IH].
    apply (preserves_run_operation (R := keeps_records) (P := any_event)
                                   (fun _ => I) kaspi writes_back op w).
Qed.

Lemma grown_order_flag (flag : KaspiOrder -> bool) order_id l l' :
  (forall ko ko', header_kept ko ko' -> flag ko = true -> flag ko' = true) ->
  grown header_kept l l' ->
  match filter (fun ko => (ko_order_id ko =? order_id)%string) l with
  | ko :: _ => flag ko
  | [] => false
  end = true ->
  match filter (fun ko => (ko_order_id ko =? order_id)%string) l' with
  | ko :: _ => flag ko
  | [] => false
  end = true.
Proof.
  intros Hflag [l1 [added [-> F]]]. rewrite filter_app.
  induction F as [|ko ko' l l1 Hk _ IH]; cbn [filter app]; [discriminate|].
  pose proof Hk as [Hid _]. rewrite Hid.
  destruct (ko_order_id ko =? order_id)%string; cbn [app].
  - apply Hflag, Hk.
  - exact IH.
Qed.

(** X15.  Whatever operations of the engine run, in whatever order: the
    products and the stock locations are what they were; no order header,
    line item or cancellation record is deleted or reordered, a header keeps
    its id, code, location and status, and a line item everything but its
    waybill.  An order that was canceled stays canceled, and an order marked
    as invoiced stays marked. *)
Theorem engine_keeps_its_records :
  forall (kaspi : nat -> Kaspi) (writes_back : bool) (ops : list Operation)
         (w : World),
    keeps_records w (run_operations kaspi writes_back ops w)
    /\ (forall order_id,
           order_canceled (db w) order_id = true ->
           order_canceled (db (run_operations kaspi writes_back ops w)) order_id
           = true)
    /\ (forall order_id,
           invoice_generated (db w) order_id = true ->
           invoice_generated (db (run_operations kaspi writes_back ops w)) order_id
           = true).
Proof.
  intros kaspi writes_back ops w.
  pose proof (run_operations_keeps_records kaspi writes_back ops w)
    as [Hp [Hs [Ho [Hl Hc]]]].
  split; [repeat split; assumption | split].
  - intros order_id. unfold order_canceled, order_rows.
    apply grown_order_flag; [|exact Ho].
    intros ko ko' Hk. apply Hk.
  - intros order_id. unfold invoice_generated, order_rows.
    apply grown_order_flag; [|exact Ho].
    intros ko ko' Hk. apply Hk.
Qed.

Lemma engine_keeps_its_records_witness :
  order_canceled
    (db (run_operations archive_feed true [OpProcessOrders; OpCancelFromArchive]
                        (snd (cancel_single_order true order_o1 recorded_world))))
    "o1"
  = true.
Proof.
  apply (engine_keeps_its_records
           archive_feed true [OpProcessOrders; OpCancelFromArchive]
           (snd (cancel_single_order true order_o1 recorded_world))).
  reflexivity.
Defined.

(** ** The waybill pass *)

Lemma hd_flag_after_update d order_id waybill :
  hd_error (map ko_invoice_generated
                (order_rows (update_orders order_id set_invoice_generated
                                           (update_waybill order_id waybill d))
                            order_id))
  = if order_exists d (Some order_id) then Some true else None.
Proof.
  unfold order_rows, order_exists, update_orders, update_waybill. simpl.
  induction (kaspi_orders d) as [|ko l IH]; simpl; [reflexivity|].
  destruct (ko_order_id ko =? order_id)%string eqn:E; simpl.
  - rewrite E. reflexivity.
  - rewrite E. exact IH.
Qed.

Lemma write_waybill_run order_id waybill w :
  exists w',
    write_waybill order_id waybill w
    = (Ok (if order_exists (db w) order_id then Some true else None), w')
    /\ stock_inventory (db w') = stock_inventory (db w)
    /\ (forall x, order_exists (db w') x = order_exists (db w) x)
    /\ (forall oid, order_id = Some oid -> order_exists (db w) order_id = true ->
                    invoice_generated (db w') oid = true).
Proof.
  destruct order_id as [oid|].
  - eexists. unfold write_waybill. unfold bind, write_db, read_db.
    cbn [db]. rewrite hd_flag_after_update.
    split; [reflexivity | split; [reflexivity | split]].
    + intros x. cbn [db].
      rewrite order_exists_update_orders; reflexivity.
    + intros oid' [= <-] Hex. cbn [db].
      apply invoice_generated_after_update. exact Hex.
  - exists w. repeat split. intros oid [=].
Qed.

Lemma save_waybill_loop_run orders updated_ids w :
  exists w',
    save_waybill_loop orders updated_ids w
    = (Ok (updated_ids ++ map o_id (filter (waybill_applies (db w)) orders)), w')
    /\ stock_inventory (db w') = stock_inventory (db w)
    /\ (forall x, order_exists (db w') x = order_exists (db w) x)
    /\ (forall order oid,
           In order orders -> waybill_applies (db w) order = true ->
           o_id order = Some oid -> invoice_generated (db w') oid = true).
Proof.
  revert updated_ids w. induction orders as [|order rest IH]; intros updated_ids w.
  - exists w. cbn. rewrite app_nil_r. repeat split. intros order oid [].
  - assert (waybill_applies (db w) order = false ->
            exists w',
              save_waybill_loop rest updated_ids w
              = (Ok (updated_ids
                       ++ map o_id (filter (waybill_applies (db w)) (order :: rest))),
                 w')
              /\ stock_inventory (db w') = stock_inventory (db w)
              /\ (forall x, order_exists (db w') x = order_exists (db w) x)
              /\ (forall o oid,
                     In o (order :: rest) -> waybill_applies (db w) o = true ->
                     o_id o = Some oid -> invoice_generated (db w') oid = true))
      as Hskip.
    { intros Hno. destruct (IH updated_ids w) as [w' [E [Hs [Hx Hflag]]]].
      exists w'. cbn [filter]. rewrite Hno.
      split; [exact E | split; [exact Hs | split; [exact Hx|]]].
      intros o oid [<- | Hin] Ha; [congruence | apply Hflag; assumption]. }
    cbn [save_waybill_loop].
    destruct (o_waybill order) as [waybill|] eqn:Ew.
    2: { apply Hskip. unfold waybill_applies. rewrite Ew. reflexivity. }
    destruct (truthy (Some waybill)) eqn:Et; cbn [negb].
    2: { apply Hskip. unfold waybill_applies. rewrite Ew, Et. reflexivity. }
    destruct (write_waybill_run (o_id order) waybill w)
      as [w1 [E1 [Hs1 [Hx1 Hflag1]]]].
    unfold bind at 1. rewrite E1.
    assert (forall l, filter (waybill_applies (db w1)) l
                      = filter (waybill_applies (db w)) l) as Hfilter.
    { intros l. apply filter_ext. intros o. unfold waybill_applies.
      rewrite Hx1. reflexivity. }
    destruct (order_exists (db w) (o_id order)) eqn:Hex.
    + destruct (IH (updated_ids ++ [o_id order]) w1) as [w' [E [Hs [Hx Hflag]]]].
      exists w'. cbn [filter]. unfold waybill_applies at 1.
      rewrite Ew, Et, Hex. cbn [andb map].
      rewrite Hfilter, <- app_assoc in E.
      split; [exact E | split; [congruence | split]].
      * intros x. rewrite Hx. apply Hx1.
      * intros o oid [<- | Hin] Ha Hid.
        -- pose proof (preserves_save_waybill_loop
                         (R := keeps_records) (P := any_event)
                         rest (updated_ids ++ [o_id order]) w1) as Hkeep.
           rewrite E in Hkeep. cbn [snd] in Hkeep.
           destruct Hkeep as [_ [_ [Ho _]]].
           generalize (Hflag1 oid Hid eq_refl).
           unfold invoice_generated, order_rows.
           apply grown_order_flag; [|exact Ho].
           intros ko ko' Hk. apply Hk.
        -- apply (Hflag o oid Hin); [|exact Hid].
           unfold waybill_applies in *. rewrite Hx1. exact Ha.
    + destruct (IH updated_ids w1) as [w' [E [Hs [Hx Hflag]]]].
      exists w'. cbn [filter]. unfold waybill_applies at 1.
      rewrite Ew, Et, Hex. cbn [andb].
      rewrite Hfilter in E.
      split; [exact E | split; [congruence | split]].
      * intros x. rewrite Hx. apply Hx1.
      * intros o oid [<- | Hin] Ha Hid.
        -- unfold waybill_applies in Ha. rewrite Hex, andb_false_r in Ha.
           discriminate.
        -- apply (Hflag o oid Hin); [|exact Hid].
           unfold waybill_applies in *. rewrite Hx1. exact Ha.
Qed.

(** X16.  [save_waybill_links] returns the ids of the orders of the
    delivery page that carry a waybill and are recorded, in the order of the
    page: an order without waybill, or one that was never recorded, is left
    out.  Each order that it returns is marked as invoiced afterwards, and
    the stock is what it was. *)
Theorem save_waybill_links_returns_the_recorded_orders_with_waybill :
  forall (kaspi : nat -> Kaspi) (w : World),
  exists w',
    save_waybill_links kaspi w
    = (Ok (map o_id (filter (waybill_applies (db w))
                            (kaspi_delivery (kaspi (clock w))))), w')
    /\ stock_inventory (db w') = stock_inventory (db w)
    /\ (forall order order_id,
           In order (kaspi_delivery (kaspi (clock w))) ->
           waybill_applies (db w) order = true ->
           o_id order = Some order_id ->
           invoice_generated (db w') order_id = true).
Proof.
  intros kaspi w. unfold save_waybill_links, try_except.
  rewrite (bind_ok _ _ _ _ _ _ _ (get_kaspi_delivery_run kaspi w)).
  destruct (kaspi_delivery (kaspi (clock w))) as [|order rest].
  - eexists. split; [reflexivity | split; [reflexivity|]]. intros order oid [].
  - cbn [nonempty negb].
    destruct (save_waybill_loop_run
                (order :: rest) []
                (mkWorld (db w) (S (clock w)) (trace w ++ [Api GetKaspiDelivery])))
      as [w' [E [Hs [_ Hflag]]]].
    rewrite E. exists w'. split; [reflexivity | split; [exact Hs | exact Hflag]].
Qed.

Lemma save_waybill_links_witness :
  invoice_generated (db (snd (save_waybill_links waybill_feed uninvoiced_world))) "o1"
  = true.
Proof.
  destruct (save_waybill_links_returns_the_recorded_orders_with_waybill
              waybill_feed uninvoiced_world) as [w' [E [_ Hflag]]].
  rewrite E. cbn [snd].
  apply (Hflag order_o1_with_waybill "o1").
  - left. reflexivity.
  - reflexivity.
  - reflexivity.
Defined.

(** ** The attempts of a run *)

Lemma fulfillment_numbers_app t1 t2 :
  fulfillment_numbers (t1 ++ t2) = fulfillment_numbers t1 ++ fulfillment_numbers t2.
Proof. unfold fulfillment_numbers. apply flat_map_app. Qed.

Lemma waybill_numbers_app t1 t2 :
  waybill_numbers (t1 ++ t2) = waybill_numbers t1 ++ waybill_numbers t2.
Proof. unfold waybill_numbers. apply flat_map_app. Qed.

Lemma inner_numbers t :
  Forall inner t -> fulfillment_numbers t = [] /\ waybill_numbers t = [].
Proof.
  induction 1 as [|ev t Hev _ [IH1 IH2]]; [split; reflexivity|].
  unfold fulfillment_numbers, waybill_numbers in *. cbn [flat_map].
  rewrite IH1, IH2, !app_nil_r.
  destruct ev as [lvl msg| |]; [destruct msg|..];
    try destruct Hev; split; reflexivity.
Qed.

Lemma save_waybill_links_trace kaspi w :
  exists ids w' t,
    save_waybill_links kaspi w = (Ok ids, w')
    /\ trace w' = trace w ++ t
    /\ Forall inner t.
Proof.
  apply ok_and_extends; [apply save_waybill_links_ok|].
  pose proof inner_is_inner. preserve.
Qed.

Lemma fulfillment_attempts_numbers kaspi writes_back new_order_ids remaining attempt w :
  exists t exit w' k,
    fulfillment_attempts kaspi writes_back new_order_ids remaining attempt w
    = (Ok exit, w')
    /\ trace w' = trace w ++ t
    /\ fulfillment_numbers t = seq attempt k
    /\ waybill_numbers t = []
    /\ (k <= remaining)%nat
    /\ (exit = Exhausted -> k = remaining)
    /\ (remaining <> O -> (1 <= k)%nat).
Proof.
  revert attempt w. induction remaining as [|n IH]; intros attempt w;
    cbn [fulfillment_attempts].
  - eexists. exists Exhausted. eexists. exists O.
    split; [reflexivity | split; [reflexivity|]].
    repeat split; try lia; intros H; contradiction.
  - unfold bind at 1.
    destruct (process_orders_trace kaspi writes_back w)
      as [r [w1 [t1 [E1 [Ht1 Hf1]]]]].
    destruct (inner_numbers t1 Hf1) as [Hn1 Hm1].
    rewrite E1. unfold bind at 1. rewrite logger_run.
    destruct (nonempty (or_success r)) eqn:Es.
    + exists ((Api GetKaspiDelivery :: t1)
                ++ [Log INFO (ProcessOrdersAttempt attempt r)]), Break.
      eexists. exists 1%nat. split; [reflexivity | split].
      { cbn [trace]. rewrite Ht1. rewrite <- app_assoc. reflexivity. }
      rewrite fulfillment_numbers_app, waybill_numbers_app.
      change (fulfillment_numbers (Api GetKaspiDelivery :: t1))
        with (fulfillment_numbers t1).
      change (waybill_numbers (Api GetKaspiDelivery :: t1)) with (waybill_numbers t1).
      rewrite Hn1, Hm1.
      split; [reflexivity | split; [reflexivity | split; [lia|]]].
        split; [discriminate | intros _; lia].
    + unfold bind at 1.
      match goal with
      | |- context [cancel_orders_from_archive kaspi writes_back ?w0] =>
          destruct (cancel_orders_from_archive_trace kaspi writes_back w0)
            as [canceled_ids [w2 [t2 [E2 [Ht2 Hf2]]]]]
      end.
      destruct (inner_numbers t2 Hf2) as [Hn2 Hm2].
      rewrite E2. unfold bind at 1. rewrite logger_run.
      cbn [trace] in Ht2. rewrite Ht1 in Ht2.
      assert (forall tail,
                 fulfillment_numbers
                   ((Api GetKaspiDelivery :: t1)
                      ++ Log INFO (ProcessOrdersAttempt attempt r)
                      :: (Api GetNewArchive :: t2)
                      ++ Log INFO (CancelArchiveAttempt attempt canceled_ids) :: tail)
                 = attempt :: fulfillment_numbers tail
                 /\ waybill_numbers
                      ((Api GetKaspiDelivery :: t1)
                         ++ Log INFO (ProcessOrdersAttempt attempt r)
                         :: (Api GetNewArchive :: t2)
                         ++ Log INFO (CancelArchiveAttempt attempt canceled_ids) :: tail)
                    = waybill_numbers tail) as Hnum.
      { intros tail.
        rewrite fulfillment_numbers_app, waybill_numbers_app.
        change (fulfillment_numbers (Api GetKaspiDelivery :: t1))
          with (fulfillment_numbers t1).
        change (waybill_numbers (Api GetKaspiDelivery :: t1)) with (waybill_numbers t1).
        rewrite Hn1, Hm1. cbn [app].
        change (fulfillment_numbers (Log INFO (ProcessOrdersAttempt attempt r) :: ?l))
          with (attempt :: fulfillment_numbers l).
        change (waybill_numbers (Log INFO (ProcessOrdersAttempt attempt r) :: ?l))
          with (waybill_numbers l).
        change (fulfillment_numbers (Api GetNewArchive :: ?l))
          with (fulfillment_numbers l).
        change (waybill_numbers (Api GetNewArchive :: ?l)) with (waybill_numbers l).
        rewrite fulfillment_numbers_app, waybill_numbers_app, Hn2, Hm2.
        split; reflexivity. }
      destruct (any_in canceled_ids new_order_ids) eqn:Ea.
      * exists ((Api GetKaspiDelivery :: t1)
                  ++ Log INFO (ProcessOrdersAttempt attempt r)
                  :: (Api GetNewArchive :: t2)
                  ++ [Log INFO (CancelArchiveAttempt attempt canceled_ids);
                      canceled_line]), Return.
        eexists. exists 1%nat. split; [reflexivity | split].
        { cbn [trace]. rewrite Ht2.
          repeat (rewrite <- app_assoc; cbn [app]). reflexivity. }
        destruct (Hnum [canceled_line]) as [Hf Hw]. rewrite Hf, Hw.
        split; [reflexivity | split; [reflexivity | split; [lia|]]].
        split; [discriminate | intros _; lia].
      * unfold bind at 1. rewrite sleep_run.
        match goal with
        | |- context [fulfillment_attempts kaspi writes_back new_order_ids n
                                           (S attempt) ?w0] =>
            destruct (IH (S attempt) w0)
              as [rest [exit [w' [k [E [Ht [Hfn [Hwn [Hk [Hex _]]]]]]]]]]
        end.
        rewrite E.
        exists ((Api GetKaspiDelivery :: t1)
                  ++ Log INFO (ProcessOrdersAttempt attempt r)
                  :: (Api GetNewArchive :: t2)
                  ++ Log INFO (CancelArchiveAttempt attempt canceled_ids)
                  :: Sleep SLEEP_SECONDS :: rest), exit, w', (S k).
        split; [reflexivity | split].
        { rewrite Ht. cbn [trace]. rewrite Ht2.
          repeat (rewrite <- app_assoc; cbn [app]). reflexivity. }
        destruct (Hnum (Sleep SLEEP_SECONDS :: rest)) as [Hf Hw]. rewrite Hf, Hw.
        change (fulfillment_numbers (Sleep SLEEP_SECONDS :: rest))
          with (fulfillment_numbers rest).
        change (waybill_numbers (Sleep SLEEP_SECONDS :: rest))
          with (waybill_numbers rest).
        rewrite Hfn, Hwn.
        split; [reflexivity | split; [reflexivity | split; [lia|]]].
        split; [intros Hx; rewrite (Hex Hx); reflexivity | intros _; lia].
Qed.

Lemma waybill_attempts_numbers kaspi writes_back new_order_ids remaining attempt w :
  exists t exit w' k,
    waybill_attempts kaspi writes_back new_order_ids remaining attempt w
    = (Ok exit, w')
    /\ trace w' = trace w ++ t
    /\ waybill_numbers t = seq attempt k
    /\ fulfillment_numbers t = []
    /\ (k <= remaining)%nat
    /\ (exit = Exhausted -> k = remaining)
    /\ (remaining <> O -> (1 <= k)%nat).
Proof.
  revert attempt w. induction remaining as [|n IH]; intros attempt w;
    cbn [waybill_attempts].
  - eexists. exists Exhausted. eexists. exists O.
    split; [reflexivity | split; [reflexivity|]].
    repeat split; try lia; intros H; contradiction.
  - unfold bind at 1.
    destruct (save_waybill_links_trace kaspi w) as [ids [w1 [t1 [E1 [Ht1 Hf1]]]]].
    destruct (inner_numbers t1 Hf1) as [Hn1 Hm1].
    rewrite E1. unfold bind at 1. rewrite logger_run.
    destruct (nonempty ids && any_in_opt ids new_order_ids) eqn:Es.
    + exists (t1 ++ [Log INFO (WaybillAttempt attempt ids)]), Break.
      eexists. exists 1%nat. split; [reflexivity | split].
      { cbn [trace]. rewrite Ht1. rewrite <- app_assoc. reflexivity. }
      rewrite fulfillment_numbers_app, waybill_numbers_app, Hn1, Hm1.
      split; [reflexivity | split; [reflexivity | split; [lia|]]].
        split; [discriminate | intros _; lia].
    + unfold bind at 1.
      match goal with
      | |- context [cancel_orders_from_archive kaspi writes_back ?w0] =>
          destruct (cancel_orders_from_archive_trace kaspi writes_back w0)
            as [canceled_ids [w2 [t2 [E2 [Ht2 Hf2]]]]]
      end.
      destruct (inner_numbers t2 Hf2) as [Hn2 Hm2].
      rewrite E2. unfold bind at 1. rewrite logger_run.
      cbn [trace] in Ht2. rewrite Ht1 in Ht2.
      assert (forall tail,
                 waybill_numbers
                   (t1 ++ Log INFO (WaybillAttempt attempt ids)
                       :: (Api GetNewArchive :: t2)
                       ++ Log INFO (CancelArchiveWaybillAttempt attempt canceled_ids)
                       :: tail)
                 = attempt :: waybill_numbers tail
                 /\ fulfillment_numbers
                      (t1 ++ Log INFO (WaybillAttempt attempt ids)
                          :: (Api GetNewArchive :: t2)
                          ++ Log INFO (CancelArchiveWaybillAttempt attempt canceled_ids)
                          :: tail)
                    = fulfillment_numbers tail) as Hnum.
      { intros tail.
        rewrite fulfillment_numbers_app, waybill_numbers_app, Hn1, Hm1. cbn [app].
        change (waybill_numbers (Log INFO (WaybillAttempt attempt ids) :: ?l))
          with (attempt :: waybill_numbers l).
        change (fulfillment_numbers (Log INFO (WaybillAttempt attempt ids) :: ?l))
          with (fulfillment_numbers l).
        change (fulfillment_numbers (Api GetNewArchive :: ?l))
          with (fulfillment_numbers l).
        change (waybill_numbers (Api GetNewArchive :: ?l)) with (waybill_numbers l).
        rewrite fulfillment_numbers_app, waybill_numbers_app, Hn2, Hm2.
        split; reflexivity. }
      destruct (any_in canceled_ids new_order_ids) eqn:Ea.
      * exists (t1 ++ Log INFO (WaybillAttempt attempt ids)
                   :: (Api GetNewArchive :: t2)
                   ++ [Log INFO (CancelArchiveWaybillAttempt attempt canceled_ids);
                       Log WARNING
                           (Text "a new order was canceled by the customer (waybill)")]),
               Return.
        eexists. exists 1%nat. split; [reflexivity | split].
        { cbn [trace]. rewrite Ht2.
          repeat (rewrite <- app_assoc; cbn [app]). reflexivity. }
        match goal with
        | |- context [[Log INFO ?a; ?b]] => destruct (Hnum [b]) as [Hw Hf]
        end.
        rewrite Hf, Hw.
        split; [reflexivity | split; [reflexivity | split; [lia|]]].
        split; [discriminate | intros _; lia].
      * unfold bind at 1. rewrite sleep_run.
        match goal with
        | |- context [waybill_attempts kaspi writes_back new_order_ids n
                                       (S attempt) ?w0] =>
            destruct (IH (S attempt) w0)
              as [rest [exit [w' [k [E [Ht [Hwn [Hfn [Hk [Hex _]]]]]]]]]]
        end.
        rewrite E.
        exists (t1 ++ Log INFO (WaybillAttempt attempt ids)
                   :: (Api GetNewArchive :: t2)
                   ++ Log INFO (CancelArchiveWaybillAttempt attempt canceled_ids)
                   :: Sleep SLEEP_SECONDS :: rest), exit, w', (S k).
        split; [reflexivity | split].
        { rewrite Ht. cbn [trace]. rewrite Ht2.
          repeat (rewrite <- app_assoc; cbn [app]). reflexivity. }
        destruct (Hnum (Sleep SLEEP_SECONDS :: rest)) as [Hw Hf]. rewrite Hf, Hw.
        change (fulfillment_numbers (Sleep SLEEP_SECONDS :: rest))
          with (fulfillment_numbers rest).
        change (waybill_numbers (Sleep SLEEP_SECONDS :: rest))
          with (waybill_numbers rest).
        rewrite Hfn, Hwn.
        split; [reflexivity | split; [reflexivity | split; [lia|]]].
        split; [intros Hx; rewrite (Hex Hx); reflexivity | intros _; lia].
Qed.

Lemma after_acceptance_numbers kaspi writes_back r w :
  exists t w' k k',
    after_acceptance kaspi writes_back r w = (Ok tt, w')
    /\ trace w' = trace w ++ t
    /\ fulfillment_numbers t = seq 1 k
    /\ waybill_numbers t = seq 1 k'
    /\ (k <= MAX_ATTEMPTS)%nat
    /\ (k' <= MAX_ATTEMPTS)%nat
    /\ (k = O -> k' = O)
    /\ (nonempty (nr_failed r) = false -> nonempty (nr_success r) = true ->
        (1 <= k)%nat).
Proof.
  unfold after_acceptance.
  destruct (nonempty (nr_failed r)) eqn:Ef.
  { eexists. eexists. exists O, O.
    split; [reflexivity | split; [reflexivity|]].
    repeat split; try lia; discriminate. }
  destruct (nonempty (nr_success r)) eqn:Es.
  2: { eexists. eexists. exists O, O.
       split; [reflexivity | split; [reflexivity|]].
       repeat split; try lia; discriminate. }
  unfold bind at 1.
  destruct (fulfillment_attempts_numbers kaspi writes_back (nr_success r)
              MAX_ATTEMPTS 1 w)
    as [tf [exit [w1 [k [E1 [Ht1 [Hfn1 [Hwn1 [Hk1 [_ Hpos]]]]]]]]]].
  specialize (Hpos ltac:(discriminate)).
  rewrite E1.
  assert (exit <> Return ->
          exists t w' k',
            (waybill_attempts kaspi writes_back (nr_success r) MAX_ATTEMPTS 1 ;;
             ret tt) w1 = (Ok tt, w')
            /\ trace w' = trace w ++ t
            /\ fulfillment_numbers t = seq 1 k
            /\ waybill_numbers t = seq 1 k'
            /\ (k' <= MAX_ATTEMPTS)%nat) as Hwaybill.
  { intros _.
    destruct (waybill_attempts_numbers kaspi writes_back (nr_success r)
                MAX_ATTEMPTS 1 w1)
      as [tw [exit2 [w2 [k' [E2 [Ht2 [Hwn2 [Hfn2 [Hk2 _]]]]]]]]].
    exists (tf ++ tw), w2, k'. unfold bind. rewrite E2.
    split; [reflexivity | split; [rewrite Ht2, Ht1, app_assoc; reflexivity|]].
    rewrite fulfillment_numbers_app, waybill_numbers_app.
    rewrite Hfn1, Hwn1, Hfn2, Hwn2, app_nil_r.
    split; [reflexivity | split; [reflexivity | exact Hk2]]. }
  destruct exit.
  - destruct Hwaybill as [t [w' [k' [E [Ht [Hf [Hw Hk']]]]]]]; [discriminate|].
    exists t, w', k, k'. repeat split; try assumption; lia.
  - exists tf, w1, k, O. rewrite Hwn1.
    split; [reflexivity | split; [exact Ht1|]].
    repeat split; try assumption; lia.
  - destruct Hwaybill as [t [w' [k' [E [Ht [Hf [Hw Hk']]]]]]]; [discriminate|].
    exists t, w', k, k'. repeat split; try assumption; lia.
Qed.

Lemma main_numbers kaspi writes_back w :
  exists t w' k k',
    main kaspi writes_back w = (Ok tt, w')
    /\ trace w' = trace w ++ started_line :: t ++ [finished_line]
    /\ fulfillment_numbers t = seq 1 k
    /\ waybill_numbers t = seq 1 k'
    /\ (k <= MAX_ATTEMPTS)%nat
    /\ (k' <= MAX_ATTEMPTS)%nat
    /\ (k = O -> k' = O).
Proof.
  unfold main. unfold bind at 1. rewrite logger_run.
  set (w0 := mkWorld (db w) (clock w) (trace w ++ [Log INFO (Text "Script started")])).
  unfold try_finally, try_except at 1.
  unfold bind at 1.
  destruct (ok_and_extends unit
              (try_except
                 (cancel_orders_from_returned_archive kaspi writes_back ;;
                  cancel_orders_from_archive kaspi writes_back ;;
                  ret tt)
                 any_exception
                 (fun _ => logger ERROR (Text "Error in cancel_orders_from_archive")))
              w0) as [[] [w1 [ta [E1 [Ht1 Hf1]]]]].
  { apply try_except_any_ok. intros e w2. eexists. eexists. reflexivity. }
  { pose proof inner_is_inner. preserve. }
  rewrite E1. unfold bind at 1.
  destruct (ok_and_extends NewOrdersResult (process_new_orders kaspi) w1
              (process_new_orders_ok kaspi w1))
    as [r [w2 [tb [E2 [Ht2 Hf2]]]]].
  { pose proof inner_is_inner. preserve. }
  rewrite E2. unfold bind at 1. rewrite logger_run.
  match goal with
  | |- context [after_acceptance kaspi writes_back r ?w3] =>
      destruct (after_acceptance_numbers kaspi writes_back r w3)
        as [t2 [w4 [k [k' [E4 [Ht4 [Hfn [Hwn [Hk [Hk' [Hz _]]]]]]]]]]]
  end.
  rewrite E4. rewrite logger_run.
  exists ((ta ++ tb) ++ Log INFO (NewOrdersLine r) :: t2).
  eexists. exists k, k'. split; [reflexivity | split].
  - cbn [trace]. rewrite Ht4. cbn [trace]. rewrite Ht2, Ht1. unfold w0. cbn [trace].
    unfold started_line, finished_line.
    repeat (rewrite <- app_assoc; cbn [app]). reflexivity.
  - destruct (inner_numbers (ta ++ tb)) as [Hn Hm];
      [apply Forall_app; split; assumption|].
    rewrite fulfillment_numbers_app, waybill_numbers_app, Hn, Hm. cbn [app].
    change (fulfillment_numbers (Log INFO (NewOrdersLine r) :: t2))
      with (fulfillment_numbers t2).
    change (waybill_numbers (Log INFO (NewOrdersLine r) :: t2))
      with (waybill_numbers t2).
    repeat split; assumption.
Qed.

(** X17.  A run of [main] always returns; the first line of its trace is
    the start line and the last one the finish line.  In between, the lines
    that report a fulfillment attempt are numbered 1, 2, ... without a gap,
    and so are those that report a waybill attempt; there are at most
    [MAX_ATTEMPTS] of each, and no waybill attempt without a fulfillment
    attempt. *)
Theorem main_attempts_are_numbered_and_bounded :
  forall (kaspi : nat -> Kaspi) (writes_back : bool) (w : World),
  exists t w' k k',
    main kaspi writes_back w = (Ok tt, w')
    /\ trace w' = trace w ++ started_line :: t ++ [finished_line]
    /\ fulfillment_numbers t = seq 1 k
    /\ waybill_numbers t = seq 1 k'
    /\ (k <= MAX_ATTEMPTS)%nat
    /\ (k' <= MAX_ATTEMPTS)%nat
    /\ (k = O -> k' = O).
Proof.
  intros kaspi writes_back w. apply main_numbers.
Qed.

Lemma main_attempts_witness :
  exists t w',
    main quiet_feed true shop_world = (Ok tt, w')
    /\ trace w' = started_line :: t ++ [finished_line]
    /\ waybill_numbers t = [].
Proof.
  destruct (main_attempts_are_numbered_and_bounded quiet_feed true shop_world)
    as [t [w' [k [k' [E [Ht [Hf [Hw [_ [_ Hz]]]]]]]]]].
  exists t, w'. split; [exact E | split; [exact Ht|]].
  rewrite Hw, Hz; [reflexivity|].
  vm_compute in E. injection E as Ew. subst w'. cbn [trace shop_world app] in Ht.
  injection Ht as Ht.
  apply (app_inj_tail
           [Api GetReturnedArchive; Api GetNewArchive; Api GetNewOrders;
            Log INFO (NewOrdersLine empty_new_orders_result);
            Log INFO (Text "no new orders to process")] t) in Ht.
  destruct Ht as [<- _]. destruct k; [reflexivity | discriminate].
Defined.

(** ** An order without pickup point *)

(** X18.  An order of the delivery page that lacks its pickup point is
    reported failed: [process_single_order] fetches its line items, fails on
    the missing key, logs the error and returns [False]; nothing is written
    and no invoice is requested. *)
Theorem order_without_pickup_point_fails :
  forall (kaspi : nat -> Kaspi) (writes_back : bool) (order : Order) (w : World),
    order_exists (db w) (o_id order) = false ->
    o_pickupPointId order = None ->
    process_single_order kaspi writes_back order w
    = (Ok false,
       mkWorld (db w) (S (clock w))
               (trace w ++ [Api (GetOrderEntries (o_id order));
                            Log ERROR (TextFor "error while processing order"
                                               (o_id order))])).
Proof.
  intros kaspi writes_back order w Hfresh Hp.
  unfold process_single_order, try_except.
  rewrite (bind_ok _ _ _ _ _ _ _ (is_order_processed_run (o_id order) w)).
  rewrite Hfresh.
  rewrite (bind_ok _ _ _ _ _ _ _ (get_order_entries_run kaspi (o_id order) w)).
  rewrite Hp. unfold bind at 1, raise. cbn [any_exception].
  rewrite (bind_ok _ _ _ _ _ _ _ (logger_run _ _ _)).
  unfold ret. cbn [db clock trace]. rewrite <- app_assoc. reflexivity.
Qed.

Lemma order_without_pickup_point_witness :
  process_single_order quiet_feed true order_without_pickup_point shop_world
  = (Ok false,
     mkWorld shop_db 1
             [Api (GetOrderEntries (Some "o6"));
              Log ERROR (TextFor "error while processing order" (Some "o6"))]).
Proof.
  apply (order_without_pickup_point_fails
           quiet_feed true order_without_pickup_point shop_world);
    reflexivity.
Defined.

(** ** The marks of an order *)

Lemma invoice_generated_mark_invoiced d order_id x :
  invoice_generated (update_orders order_id set_invoice_generated d) x
  = if (x =? order_id)%string then order_exists d (Some order_id)
    else invoice_generated d x.
Proof.
  unfold invoice_generated, order_rows, order_exists, update_orders. simpl.
  induction (kaspi_orders d) as [|ko l IH]; simpl.
  - destruct (x =? order_id)%string; reflexivity.
  - destruct (ko_order_id ko =? order_id)%string eqn:E1;
      destruct (x =? order_id)%string eqn:E2; simpl.
    + apply String.eqb_eq in E2. subst x. rewrite E1. reflexivity.
    + apply String.eqb_eq in E1. rewrite E1, (String.eqb_sym order_id x), E2.
      exact IH.
    + apply String.eqb_eq in E2. subst x. rewrite E1. exact IH.
    + destruct (ko_order_id ko =? x)%string; [reflexivity | exact IH].
Qed.

Lemma order_canceled_mark_canceled d order_id x :
  order_canceled (update_orders order_id set_canceled d) x
  = if (x =? order_id)%string then order_exists d (Some order_id)
    else order_canceled d x.
Proof.
  unfold order_canceled, order_rows, order_exists, update_orders. simpl.
  induction (kaspi_orders d) as [|ko l IH]; simpl.
  - destruct (x =? order_id)%string; reflexivity.
  - destruct (ko_order_id ko =? order_id)%string eqn:E1;
      destruct (x =? order_id)%string eqn:E2; simpl.
    + apply String.eqb_eq in E2. subst x. rewrite E1. reflexivity.
    + apply String.eqb_eq in E1. rewrite E1, (String.eqb_sym order_id x), E2.
      exact IH.
    + apply String.eqb_eq in E2. subst x. rewrite E1. exact IH.
    + destruct (ko_order_id ko =? x)%string; [reflexivity | exact IH].
Qed.

Lemma order_rows_update_orders order_id f d x :
  (forall ko, ko_order_id (f ko) = ko_order_id ko) ->
  order_rows (update_orders order_id f d) x
  = map (fun ko => if (ko_order_id ko =? order_id)%string then f ko else ko)
        (order_rows d x).
Proof.
  intros Hf. unfold order_rows, update_orders. simpl.
  induction (kaspi_orders d) as [|ko l IH]; simpl; [reflexivity|].
  replace (ko_order_id (if (ko_order_id ko =? order_id)%string then f ko else ko))
    with (ko_order_id ko)
    by (destruct (ko_order_id ko =? order_id)%string; [rewrite Hf|]; reflexivity).
  destruct (ko_order_id ko =? x)%string; simpl; rewrite IH; reflexivity.
Qed.

(** X19.  The two marks are targeted and independent.  After
    [mark_order_as_canceled], [is_order_canceled] is true for that order
    exactly when it is recorded, and what it was for every other order; the
    invoice flags and the order codes are what they were.  The same holds for
    [mark_order_as_invoiced] and [is_invoice_generated], with the roles of the
    flags exchanged.  Neither mark ever raises. *)
Theorem marks_are_targeted_and_independent :
  forall (order_id : string) (w : World),
    (let w' := snd (mark_order_as_canceled order_id w) in
     fst (mark_order_as_canceled order_id w) = Ok tt
     /\ (forall x, order_canceled (db w') x
                   = if (x =? order_id)%string
                     then order_exists (db w) (Some order_id)
                     else order_canceled (db w) x)
     /\ (forall x, invoice_generated (db w') x = invoice_generated (db w) x)
     /\ (forall x, order_code_of (db w') x = order_code_of (db w) x))
    /\ (let w' := snd (mark_order_as_invoiced order_id w) in
        fst (mark_order_as_invoiced order_id w) = Ok tt
        /\ (forall x, invoice_generated (db w') x
                      = if (x =? order_id)%string
                        then order_exists (db w) (Some order_id)
                        else invoice_generated (db w) x)
        /\ (forall x, order_canceled (db w') x = order_canceled (db w) x)
        /\ (forall x, order_code_of (db w') x = order_code_of (db w) x)).
Proof.
  intros order_id w. split; cbn zeta.
  - split; [reflexivity | split; [|split]]; intros x.
    + apply order_canceled_mark_canceled.
    + change (db (snd (mark_order_as_canceled order_id w)))
        with (update_orders order_id set_canceled (db w)).
      unfold invoice_generated.
      rewrite order_rows_update_orders by reflexivity.
      destruct (order_rows (db w) x) as [|ko l]; [reflexivity|]. cbn [map].
      destruct (ko_order_id ko =? order_id)%string; reflexivity.
    + change (db (snd (mark_order_as_canceled order_id w)))
        with (update_orders order_id set_canceled (db w)).
      unfold order_code_of.
      rewrite order_rows_update_orders by reflexivity.
      destruct (order_rows (db w) x) as [|ko l]; [reflexivity|]. cbn [map].
      destruct (ko_order_id ko =? order_id)%string; reflexivity.
  - split; [reflexivity | split; [|split]]; intros x.
    + apply invoice_generated_mark_invoiced.
    + change (db (snd (mark_order_as_invoiced order_id w)))
        with (update_orders order_id set_invoice_generated (db w)).
      unfold order_canceled.
      rewrite order_rows_update_orders by reflexivity.
      destruct (order_rows (db w) x) as [|ko l]; [reflexivity|]. cbn [map].
      destruct (ko_order_id ko =? order_id)%string; reflexivity.
    + change (db (snd (mark_order_as_invoiced order_id w)))
        with (update_orders order_id set_invoice_generated (db w)).
      unfold order_code_of.
      rewrite order_rows_update_orders by reflexivity.
      destruct (order_rows (db w) x) as [|ko l]; [reflexivity|]. cbn [map].
      destruct (ko_order_id ko =? order_id)%string; reflexivity.
Qed.

(** ** Ambiguous stock *)

Lemma update_stock_quantity_and_log_ambiguous writes_back product_code new_quantity
      order_quantity operation stock_name w :
  ambiguous (db w) product_code stock_name ->
  update_stock_quantity_and_log writes_back product_code new_quantity
                                order_quantity operation stock_name w
  = (Raise MultipleResultsFound,
     mkWorld (db w) (clock w + 3) (trace w ++ [Sleep 2; Sleep 4; Sleep 8])).
Proof.
  intros H. unfold update_stock_quantity_and_log.
  change [Sleep 2; Sleep 4; Sleep 8] with (retry_trace [] 3 2).
  apply (async_retry_exhausts unit is_SQLAlchemyError _ MultipleResultsFound
                              [] (db w));
    [reflexivity | | reflexivity].
  intros w0 Hd. rewrite <- Hd in H. rewrite app_nil_r, world_eta. run_monad.
  destruct H as [s1 s2 rest Hs | stock p1 p2 rest Hs Hp
                 | stock product i1 i2 rest Hs Hp Hi].
  - rewrite Hs. reflexivity.
  - rewrite Hs. simpl. rewrite Hp. reflexivity.
  - rewrite Hs. simpl. rewrite Hp. simpl. rewrite Hi. reflexivity.
Qed.

(** X20.  When the stock name, the product code or their pair matches more
    than one active row, [update_stock_quantity_and_log] writes nothing: each
    of its four tries fails with [MultipleResultsFound], the decorator sleeps
    2, 4 and 8 seconds in between, and the exception reaches the caller. *)
Theorem ambiguous_stock_update_raises_after_retries :
  forall (writes_back : bool) (product_code : string)
         (new_quantity order_quantity : Z) (operation : string)
         (stock_name : option string) (w : World),
    ambiguous (db w) product_code stock_name ->
    update_stock_quantity_and_log writes_back product_code new_quantity
                                  order_quantity operation stock_name w
    = (Raise MultipleResultsFound,
       mkWorld (db w) (clock w + 3) (trace w ++ [Sleep 2; Sleep 4; Sleep 8])).
Proof.
  intros. apply update_stock_quantity_and_log_ambiguous. assumption.
Qed.

Lemma ambiguous_stock_update_witness :
  update_stock_quantity_and_log true "P2" 2 1 "return" (Some "PP5") duplicated_world
  = (Raise MultipleResultsFound,
     mkWorld duplicated_db 3 [Sleep 2; Sleep 4; Sleep 8]).
Proof.
  apply (ambiguous_stock_update_raises_after_retries
           true "P2" 2 1 "return" (Some "PP5") duplicated_world).
  apply (amb_inventory _ _ _ (mkStock 1 "PP5" true) (mkProduct 2 "P2" true)
                       (mkStockInventory 2 2 1 1 true)
                       (mkStockInventory 3 2 1 1 true) []);
    reflexivity.
Defined.

(** ** The archive of returns *)

Lemma cancel_tasks_all_skipped writes_back orders canceled_ids w :
  Forall (skipped_on_cancel (db w)) orders ->
  db (snd (cancel_tasks writes_back orders canceled_ids w)) = db w.
Proof.
  revert canceled_ids w.
  induction orders as [|order rest IH]; intros canceled_ids w H; [reflexivity|].
  inversion H as [|? ? Hskip Hrest]; subst.
  cbn [cancel_tasks]. unfold bind at 1.
  destruct (cancel_task_run writes_back order canceled_ids w) as [w1 E1].
  rewrite E1.
  assert (db w1 = db w) as Hdb.
  { pose proof (cancel_single_order_skipped writes_back order w Hskip) as Hs.
    unfold cancel_task, bind in E1.
    destruct (cancel_single_order writes_back order w) as [[[]|e] w0];
      cbn [snd] in Hs.
    - destruct (o_id order) as [oid|];
        [destruct (truthy (Some oid))|]; unfold ret in E1;
        injection E1 as _ <-; exact Hs.
    - discriminate. }
  rewrite IH; [exact Hdb|].
  rewrite Hdb. exact Hrest.
Qed.

(** X21.  [cancel_orders_from_returned_archive] returns the id of every
    returned order of the page that carries one, each as often as the page
    shows it, and no other id.  The orders of the page go through the same
    checks as canceled ones: when each of them is without id, was never
    recorded or is already marked canceled, the pass changes nothing in the
    database. *)
Theorem returned_archive_pass_skips_what_is_canceled :
  forall (kaspi : nat -> Kaspi) (writes_back : bool) (w : World),
  exists ids w',
    cancel_orders_from_returned_archive kaspi writes_back w = (Ok ids, w')
    /\ Permutation ids (carried_ids (returned_archive (kaspi (clock w))))
    /\ (Forall (skipped_on_cancel (db w)) (returned_archive (kaspi (clock w))) ->
        db w' = db w).
Proof.
  intros kaspi writes_back w.
  unfold cancel_orders_from_returned_archive, try_except. unfold bind at 1.
  change (get_returned_archive kaspi w)
    with (Ok (returned_archive (kaspi (clock w))),
          mkWorld (db w) (S (clock w)) (trace w ++ [Api GetReturnedArchive])).
  destruct (returned_archive (kaspi (clock w))) as [|order rest].
  - eexists. eexists.
    split; [reflexivity | split; [apply Permutation_refl | intros _; reflexivity]].
  - cbn [nonempty negb].
    pose proof (cancel_tasks_all_skipped
                  writes_back (order :: rest) []
                  (mkWorld (db w) (S (clock w))
                           (trace w ++ [Api GetReturnedArchive]))) as Hdb.
    destruct (cancel_tasks_run writes_back (order :: rest) []
                (mkWorld (db w) (S (clock w)) (trace w ++ [Api GetReturnedArchive])))
      as [w' E].
    rewrite E in *. eexists. exists w'.
    split; [reflexivity | split; [apply Permutation_refl | exact Hdb]].
Qed.

Lemma returned_archive_pass_witness :
  exists ids w',
    cancel_orders_from_returned_archive returns_feed false canceled_world
    = (Ok ids, w')
    /\ In "o1" ids /\ In "o9" ids
    /\ db w' = db canceled_world.
Proof.
  destruct (returned_archive_pass_skips_what_is_canceled
              returns_feed false canceled_world) as [ids [w' [E [Hperm Hdb]]]].
  exists ids, w'. split; [exact E|].
  split; [|split].
  - apply (Permutation_in _ (Permutation_sym Hperm)). right. left. reflexivity.
  - apply (Permutation_in _ (Permutation_sym Hperm)). left. reflexivity.
  - apply Hdb.
    apply Forall_cons; [|apply Forall_cons; [|apply Forall_nil]].
    + right. left. reflexivity.
    + right. right. reflexivity.
Defined.
